(** * The websocket broker of MAD (mapadroid/websocket/WebsocketServer.py)

    A shallow embedding of [WebsocketServer]: the frame decoder
    [__on_message], the receive loop, the authenticator, the connection
    handler with its admission section, the worker join thread and the
    start/stop operations, followed by the properties of the specification
    that were checked against them.

    Modelling conventions.
    - A Python [str] is a [string] whose characters are read as the code
      points 0..255; [bytes] is a [list byte].
    - Python objects that are shared and mutated in place (client entries,
      connections, workers, threads) live in stores indexed by an object
      identity; the registry maps an origin to the identity of its entry.
    - A method either returns, raises, or has not returned within the
      schedule it was given ([Blocked]); mutations made before an exception
      stay in the state.
    - The handler runs on a cooperative single-threaded scheduler;
      [connection_handler] is a run as one uninterrupted sequence, the
      [async with] sections being the atomic parts of it, and
      [serve_admitted] is the last part of the handler with all that
      happens on the loop during [await receiver_task] as a parameter.
      What other threads or the remote peer decide (received frames,
      answers of the data manager and of the worker factory, whether a
      thread survives a join) is read from an [oracle]. *)

From Stdlib Require Import ZArith Ascii String List Lia Bool.
From Stdlib Require Strings.Byte.
From stdpp Require Import base tactics option list gmap strings.

Local Open Scope string_scope.
Local Open Scope Z_scope.

(** ** Python values used by the broker *)

Module Py.

Inductive exn :=
| IndexError
| ValueError
| AttributeError
| KeyError
| RuntimeError
| OSError
| ConnectionClosed
| ExternalError.

(** Outcome of a call: a value, an exception, or no return within the
    given schedule. *)
Inductive res (A : Type) :=
| Ret (a : A)
| Raise (e : exn)
| Blocked.
Arguments Ret {A} a.
Arguments Raise {A} e.
Arguments Blocked {A}.

Definition code (c : ascii) : Z := Z.of_N (N_of_ascii c).

Definition is_ascii_digit (c : ascii) : bool :=
  (48 <=? code c) && (code c <=? 57).

(** Whitespace as [int()] sees it: the ASCII blanks tested by
    [Py_ISSPACE], and the two code points between 128 and 255 that
    [_PyUnicode_TransformDecimalAndSpaceToASCII] rewrites to a blank
    (NEL, U+0085, and the no-break space, U+00A0). *)
Definition is_int_space (c : ascii) : bool :=
  ((9 <=? code c) && (code c <=? 13)) || (code c =? 32)
  || (code c =? 133) || (code c =? 160).

Definition is_underscore (c : ascii) : bool := code c =? 95.

Fixpoint skip_spaces (s : string) : string :=
  match s with
  | String c s' => if is_int_space c then skip_spaces s' else s
  | EmptyString => s
  end.

(** The digit scan of [PyLong_FromString] in base 10: digits, with single
    underscores between them.  Returns the value read, the number of
    digits and the unread rest. *)
Fixpoint scan_digits (prev_underscore : bool) (acc : Z) (ndigits : nat)
         (s : string) : option (Z * nat * string) :=
  match s with
  | String c s' =>
      if is_ascii_digit c
      then scan_digits false (10 * acc + (code c - 48)) (S ndigits) s'
      else if is_underscore c
           then (if prev_underscore then None
                 else scan_digits true acc ndigits s')
           else if prev_underscore then None else Some (acc, ndigits, s)
  | EmptyString => if prev_underscore then None else Some (acc, ndigits, s)
  end.

Definition starts_with_underscore (s : string) : bool :=
  match s with
  | String c _ => is_underscore c
  | EmptyString => false
  end.

Definition parse_sign (s : string) : Z * string :=
  match s with
  | String c s' =>
      if code c =? 43 then (1, s')
      else if code c =? 45 then (-1, s')
      else (1, s)
  | EmptyString => (1, s)
  end.

(** [sys.get_int_max_str_digits()] as the interpreter sets it when nothing
    is configured: a decimal numeral with more digits is refused. *)
Definition int_max_str_digits : Z := 4300.

(** [int(s)] for a [str] argument and the default base.  The digits are
    counted as they are written, leading zeros included and underscores
    not, and the count is checked once the whole text has been accepted. *)
Definition int (s : string) : res Z :=
  let '(sign, s1) := parse_sign (skip_spaces s) in
  if starts_with_underscore s1 then Raise ValueError
  else match scan_digits false 0 0 s1 with
       | Some (v, S n, rest) =>
           match skip_spaces rest with
           | EmptyString =>
               if int_max_str_digits <? Z.of_nat (S n)
               then Raise ValueError
               else Ret (sign * v)
           | String _ _ => Raise ValueError
           end
       | _ => Raise ValueError
       end.

(** [s.split(sep, 1)] for a one-character separator: at most one cut, at
    the first occurrence. *)
Fixpoint split1 (sep : ascii) (s : string) : list string :=
  match s with
  | EmptyString => [EmptyString]
  | String c s' =>
      if Ascii.eqb c sep then [EmptyString; s']
      else match split1 sep s' with
           | [l] => [String c l]
           | l :: r => String c l :: r
           | [] => []
           end
  end.

(** [l[i]] on a list, for a non-negative index. *)
Definition index {A} (l : list A) (i : nat) : res A :=
  match l !! i with
  | Some x => Ret x
  | None => Raise IndexError
  end.

(** [int.from_bytes(b, byteorder='big', signed=False)]. *)
Definition int_from_bytes_big (b : list Byte.byte) : Z :=
  fold_left (fun acc x => 256 * acc + Z.of_N (Byte.to_N x)) b 0.

End Py.

Export Py.

(** ** Data model of the broker *)

Inductive message :=
| Text (s : string)
| Binary (b : list Byte.byte).

Inductive level := Debug5 | Debug | Info | Warning | Error.

Inductive delay :=
| Seconds (n : Z)
| Milliseconds (n : Z)
| UniformSeconds (lo hi : Z).

(** What a run does to the outside world, in order of occurrence (most
    recent first in [trace]). *)
Inductive event :=
| Log (l : level)
| TimeSleep (d : delay)
| AsyncSleep (d : delay)
| Join (thread : nat) (timeout : delay)
| SetMessageResponse (entry : nat) (message_id : Z) (response : message).

Inductive thread_state := NotStarted | Alive | Finished.

(** [WebsocketConnectedClientEntry], with the fields the handler passes to
    its constructor and reads back.  Connections, workers and threads are
    referred to by identity. *)
Record WebsocketConnectedClientEntry := {
  origin : string;
  websocket_client_connection : nat;
  worker_instance : option nat;
  worker_thread : option nat
}.

Record MappingManager := {
  get_all_devicemappings : list string;
  get_auths : list (string * string)
}.

Record device := {
  dev_origin : string;
  identifier : Z
}.

(** The fields of [WebsocketServer] that do not change after [__init__]. *)
Record settings := {
  enable_configmode : bool;
  mapping_manager : option MappingManager
}.

(** The mutable part of [WebsocketServer] together with the objects it
    shares with the handlers. *)
Record server := {
  stop_server_event : bool;
  current_users : gmap string nat;
  users_connecting : gset string;
  entries : gmap nat WebsocketConnectedClientEntry;
  connection_open : gmap nat bool;
  worker_stopping : gmap nat bool;
  threads : gmap nat thread_state;
  worker_shutdown_queue : list (option nat);
  unfinished_tasks : nat;
  internal_worker_join_thread : thread_state;
  loop_running : bool;
  trace : list event
}.

Definition set_stop_server_event (v : bool) (s : server) : server :=
  {| stop_server_event := v; current_users := current_users s;
     users_connecting := users_connecting s; entries := entries s;
     connection_open := connection_open s; worker_stopping := worker_stopping s;
     threads := threads s; worker_shutdown_queue := worker_shutdown_queue s;
     unfinished_tasks := unfinished_tasks s;
     internal_worker_join_thread := internal_worker_join_thread s;
     loop_running := loop_running s; trace := trace s |}.

Definition set_current_users (v : gmap string nat) (s : server) : server :=
  {| stop_server_event := stop_server_event s; current_users := v;
     users_connecting := users_connecting s; entries := entries s;
     connection_open := connection_open s; worker_stopping := worker_stopping s;
     threads := threads s; worker_shutdown_queue := worker_shutdown_queue s;
     unfinished_tasks := unfinished_tasks s;
     internal_worker_join_thread := internal_worker_join_thread s;
     loop_running := loop_running s; trace := trace s |}.

Definition set_users_connecting (v : gset string) (s : server) : server :=
  {| stop_server_event := stop_server_event s; current_users := current_users s;
     users_connecting := v; entries := entries s;
     connection_open := connection_open s; worker_stopping := worker_stopping s;
     threads := threads s; worker_shutdown_queue := worker_shutdown_queue s;
     unfinished_tasks := unfinished_tasks s;
     internal_worker_join_thread := internal_worker_join_thread s;
     loop_running := loop_running s; trace := trace s |}.

Definition set_entries (v : gmap nat WebsocketConnectedClientEntry)
           (s : server) : server :=
  {| stop_server_event := stop_server_event s; current_users := current_users s;
     users_connecting := users_connecting s; entries := v;
     connection_open := connection_open s; worker_stopping := worker_stopping s;
     threads := threads s; worker_shutdown_queue := worker_shutdown_queue s;
     unfinished_tasks := unfinished_tasks s;
     internal_worker_join_thread := internal_worker_join_thread s;
     loop_running := loop_running s; trace := trace s |}.

Definition set_connection_open (v : gmap nat bool) (s : server) : server :=
  {| stop_server_event := stop_server_event s; current_users := current_users s;
     users_connecting := users_connecting s; entries := entries s;
     connection_open := v; worker_stopping := worker_stopping s;
     threads := threads s; worker_shutdown_queue := worker_shutdown_queue s;
     unfinished_tasks := unfinished_tasks s;
     internal_worker_join_thread := internal_worker_join_thread s;
     loop_running := loop_running s; trace := trace s |}.

Definition set_worker_stopping (v : gmap nat bool) (s : server) : server :=
  {| stop_server_event := stop_server_event s; current_users := current_users s;
     users_connecting := users_connecting s; entries := entries s;
     connection_open := connection_open s; worker_stopping := v;
     threads := threads s; worker_shutdown_queue := worker_shutdown_queue s;
     unfinished_tasks := unfinished_tasks s;
     internal_worker_join_thread := internal_worker_join_thread s;
     loop_running := loop_running s; trace := trace s |}.

Definition set_threads (v : gmap nat thread_state) (s : server) : server :=
  {| stop_server_event := stop_server_event s; current_users := current_users s;
     users_connecting := users_connecting s; entries := entries s;
     connection_open := connection_open s; worker_stopping := worker_stopping s;
     threads := v; worker_shutdown_queue := worker_shutdown_queue s;
     unfinished_tasks := unfinished_tasks s;
     internal_worker_join_thread := internal_worker_join_thread s;
     loop_running := loop_running s; trace := trace s |}.

Definition set_queue (q : list (option nat)) (n : nat) (s : server) : server :=
  {| stop_server_event := stop_server_event s; current_users := current_users s;
     users_connecting := users_connecting s; entries := entries s;
     connection_open := connection_open s; worker_stopping := worker_stopping s;
     threads := threads s; worker_shutdown_queue := q;
     unfinished_tasks := n;
     internal_worker_join_thread := internal_worker_join_thread s;
     loop_running := loop_running s; trace := trace s |}.

Definition set_internal_worker_join_thread (v : thread_state)
           (s : server) : server :=
  {| stop_server_event := stop_server_event s; current_users := current_users s;
     users_connecting := users_connecting s; entries := entries s;
     connection_open := connection_open s; worker_stopping := worker_stopping s;
     threads := threads s; worker_shutdown_queue := worker_shutdown_queue s;
     unfinished_tasks := unfinished_tasks s;
     internal_worker_join_thread := v;
     loop_running := loop_running s; trace := trace s |}.

Definition set_loop_running (v : bool) (s : server) : server :=
  {| stop_server_event := stop_server_event s; current_users := current_users s;
     users_connecting := users_connecting s; entries := entries s;
     connection_open := connection_open s; worker_stopping := worker_stopping s;
     threads := threads s; worker_shutdown_queue := worker_shutdown_queue s;
     unfinished_tasks := unfinished_tasks s;
     internal_worker_join_thread := internal_worker_join_thread s;
     loop_running := v; trace := trace s |}.

Definition set_trace (v : list event) (s : server) : server :=
  {| stop_server_event := stop_server_event s; current_users := current_users s;
     users_connecting := users_connecting s; entries := entries s;
     connection_open := connection_open s; worker_stopping := worker_stopping s;
     threads := threads s; worker_shutdown_queue := worker_shutdown_queue s;
     unfinished_tasks := unfinished_tasks s;
     internal_worker_join_thread := internal_worker_join_thread s;
     loop_running := loop_running s; trace := v |}.

(** ** The monad of broker methods: state, exceptions, blocking *)

Definition M (A : Type) : Type := server -> res A * server.

Definition ret {A} (a : A) : M A := fun s => (Ret a, s).

Definition bind {A B} (m : M A) (k : A -> M B) : M B :=
  fun s => match m s with
           | (Ret a, s') => k a s'
           | (Raise e, s') => (Raise e, s')
           | (Blocked, s') => (Blocked, s')
           end.

Declare Scope broker_scope.
Delimit Scope broker_scope with broker.
Notation "x <- m ;;; k" := (bind m (fun x => k))
  (at level 100, m at next level, k at level 200, right associativity)
  : broker_scope.
Notation "m ;;; k" := (bind m (fun _ => k))
  (at level 100, k at level 200, right associativity) : broker_scope.
Local Open Scope broker_scope.

Definition raise {A} (e : exn) : M A := fun s => (Raise e, s).
Definition blocked {A} : M A := fun s => (Blocked, s).
Definition lift {A} (r : res A) : M A := fun s => (r, s).
Definition gets {A} (f : server -> A) : M A := fun s => (Ret (f s), s).
Definition modify (f : server -> server) : M unit := fun s => (Ret tt, f s).

(** [try: m except Exception: h]: an exception is handled, blocking is not. *)
Definition try_except {A} (m : M A) (h : exn -> M A) : M A :=
  fun s => match m s with
           | (Raise e, s') => h e s'
           | r => r
           end.

(** [try: m finally: f]. *)
Definition try_finally {A} (m : M A) (f : M unit) : M A :=
  fun s => match m s with
           | (Ret a, s') => (f ;;; ret a) s'
           | (Raise e, s') => (f ;;; raise e) s'
           | (Blocked, s') => (Blocked, s')
           end.

Definition emit (e : event) : M unit := modify (fun s => set_trace (e :: trace s) s).
Definition log (l : level) : M unit := emit (Log l).

(** ** External collaborators *)

(** One step of what [connection.recv()] and the transport do while the
    receive loop runs. *)
Inductive recv_step :=
| RecvMessage (m : message)
| RecvTimeout
| RecvConnectionClosed
| TransportClosed.

(** The answers the collaborators give during one run of the handler:
    [DataManager.search('device', params={'origin': o})] (the devices of the
    returned dict, in order), [DataManager.is_device_active],
    [WorkerFactory.get_worker_using_settings] ([true] when it returns a
    worker), [check_auth], and what arrives on the connection. *)
Record oracle := {
  search_device : string -> res (list device);
  is_device_active : Z -> bool;
  get_worker_using_settings : string -> bool -> bool;
  check_auth : string -> list (string * string) -> bool;
  incoming : list recv_step
}.

(** The websocket handed to the handler: its identity and the headers of
    its handshake. *)
Record connection := {
  conn : nat;
  request_headers : list (string * string)
}.

Definition lower_char (c : ascii) : ascii :=
  if (65 <=? code c) && (code c <=? 90)
  then ascii_of_N (N_of_ascii c + 32) else c.

Fixpoint lower (s : string) : string :=
  match s with
  | EmptyString => EmptyString
  | String c s' => String (lower_char c) (lower s')
  end.

(** [Headers.get_all(key)]: the values of all headers of that name, names
    compared without case. *)
Definition get_all (headers : list (string * string)) (key : string)
  : list string :=
  map snd (filter (fun kv => String.eqb (lower (fst kv)) (lower key)) headers).

(** ** Operations on the shared objects *)

Definition is_open (c : nat) (s : server) : bool :=
  default false (connection_open s !! c).

Definition close (c : nat) : M unit :=
  modify (fun s => set_connection_open (<[c := false]> (connection_open s)) s).

Definition get_entry (e : nat) : M WebsocketConnectedClientEntry :=
  fun s => match entries s !! e with
           | Some r => (Ret r, s)
           | None => (Raise ExternalError, s)
           end.

(** [thread.is_alive()] on an optional thread. *)
Definition is_alive (t : option nat) : M bool :=
  match t with
  | None => raise AttributeError
  | Some t => gets (fun s => match threads s !! t with
                             | Some Alive => true
                             | _ => false
                             end)
  end.

(** [thread.start()]: a thread can be started once. *)
Definition thread_start (t : option nat) : M unit :=
  match t with
  | None => raise AttributeError
  | Some t => fun s => match threads s !! t with
                       | Some NotStarted =>
                           (Ret tt, set_threads (<[t := Alive]> (threads s)) s)
                       | _ => (Raise RuntimeError, s)
                       end
  end.

(** Modelled from the spec: the worker class ([AbstractWorker]) is not among
    the sources.  The specification lists its interface as [stop()] and
    [is_stopping() -> bool]; stopping is taken to be a flag of the worker
    that [stop_worker] sets. *)
Definition is_stopping (w : option nat) : M bool :=
  match w with
  | None => raise AttributeError
  | Some w => gets (fun s => default false (worker_stopping s !! w))
  end.

Definition stop_worker (w : option nat) : M unit :=
  match w with
  | None => raise AttributeError
  | Some w =>
      modify (fun s => set_worker_stopping (<[w := true]> (worker_stopping s)) s)
  end.

(** [queue.put(item)]. *)
Definition queue_put (item : option nat) : M unit :=
  modify (fun s => set_queue (worker_shutdown_queue s ++ [item])
                             (S (unfinished_tasks s)) s).

(** [set.remove(x)]. *)
Definition connecting_remove (o : string) : M unit :=
  fun s => if bool_decide (o ∈ users_connecting s)
           then (Ret tt, set_users_connecting (users_connecting s ∖ {[o]}) s)
           else (Raise KeyError, s).

(** ** Frame decoding and the receive loop *)

(** [__on_message].  [set_message_response] belongs to the entry class and
    is recorded as an effect. *)
Definition on_message (client_entry : nat) (msg : message) : M unit :=
  match msg with
  | Text m =>
      log Debug5 ;;;
      let splitup := split1 ";"%char m in
      left <- lift (index splitup 0) ;;;
      message_id <- lift (Py.int left) ;;;
      response <- lift (index splitup 1) ;;;
      emit (SetMessageResponse client_entry message_id (Text response))
  | Binary m =>
      log Debug ;;;
      let message_id := int_from_bytes_big (take 4 m) in
      let response := drop 4 m in
      emit (SetMessageResponse client_entry message_id (Binary response))
  end.

(** The [while connection.open] loop of [__client_message_receiver].  The
    loop test reads the connection; each turn takes the next step of the
    script, and a script that ends while the connection is open leaves the
    loop waiting. *)
Fixpoint receive_loop (client_entry connection : nat) (script : list recv_step)
  : M unit :=
  open <- gets (is_open connection) ;;;
  if open then
    match script with
    | [] => blocked
    | RecvTimeout :: script' =>
        emit (AsyncSleep (Milliseconds 20)) ;;;
        receive_loop client_entry connection script'
    | RecvConnectionClosed :: _ =>
        close connection ;;;
        log Warning
    | RecvMessage m :: script' =>
        on_message client_entry m ;;;
        receive_loop client_entry connection script'
    | TransportClosed :: script' =>
        close connection ;;;
        receive_loop client_entry connection script'
    end
  else log Warning.

(** [__client_message_receiver]. *)
Definition client_message_receiver (w : oracle) (o : string)
           (client_entry : option nat) : M unit :=
  match client_entry with
  | None => ret tt
  | Some e =>
      r <- get_entry e ;;;
      log Info ;;;
      receive_loop e (websocket_client_connection r) (incoming w)
  end.

(** [__close_websocket_client_connection]. *)
Definition close_websocket_client_connection (origin_of_worker : option string)
           (c : nat) : M unit :=
  log Info ;;; close c ;;; log Info.

(** ** Authentication *)

(** [__authenticate_connection]: the pair (origin, success). *)
Definition authenticate_connection (cfg : settings) (w : oracle)
           (c : connection) : M (option string * bool) :=
  match get_all (request_headers c) "Origin" !! 0%nat with
  | None =>
      (* IndexError *)
      log Warning ;;; ret (None, false)
  | Some o =>
      let credentials : M (option string * bool) :=
        match mapping_manager cfg with
        | None => raise AttributeError
        | Some mm =>
            let valid_auths := get_auths mm in
            let configured := negb (bool_decide (valid_auths = [])) in
            if configured then
              match get_all (request_headers c) "Authorization" !! 0%nat with
              | None =>
                  (* IndexError *)
                  log Warning ;;; ret (Some o, false)
              | Some auth_base64 =>
                  if configured && negb (String.eqb auth_base64 "")
                     && negb (check_auth w auth_base64 valid_auths)
                  then ret (Some o, false)
                  else ret (Some o, true)
              end
            else ret (Some o, true)
        end in
      log Info ;;;
      match mapping_manager cfg with
      | None =>
          (* the tuple (origin, False) is built and dropped: no return *)
          log Warning ;;; credentials
      | Some mm =>
          if negb (bool_decide (o ∈ get_all_devicemappings mm)) then
            found <- lift (search_device w o) ;;;
            (if negb (bool_decide (found = [])) then log Warning
             else log Warning) ;;;
            ret (Some o, false)
          else credentials
      end
  end.

(** ** The connection handler *)

Definition new_entry (e : WebsocketConnectedClientEntry) : M nat :=
  fun s => let id := fresh (dom (entries s)) in
           (Ret id, set_entries (<[id := e]> (entries s)) s).

Definition new_worker : M nat :=
  fun s => let id := fresh (dom (worker_stopping s)) in
           (Ret id, set_worker_stopping (<[id := false]> (worker_stopping s)) s).

Definition new_thread : M nat :=
  fun s => let id := fresh (dom (threads s)) in
           (Ret id, set_threads (<[id := NotStarted]> (threads s)) s).

Definition set_worker_of (worker thread : nat)
           (e : WebsocketConnectedClientEntry) : WebsocketConnectedClientEntry :=
  {| origin := origin e;
     websocket_client_connection := websocket_client_connection e;
     worker_instance := Some worker;
     worker_thread := Some thread |}.

Definition set_connection_of (c : nat)
           (e : WebsocketConnectedClientEntry) : WebsocketConnectedClientEntry :=
  {| origin := origin e;
     websocket_client_connection := c;
     worker_instance := worker_instance e;
     worker_thread := worker_thread e |}.

Definition update_entry (entry : nat)
           (f : WebsocketConnectedClientEntry -> WebsocketConnectedClientEntry)
  : M unit :=
  modify (fun s => set_entries (alter f entry (entries s)) s).

(** [__add_worker_and_thread_to_entry]. *)
Definition add_worker_and_thread_to_entry (cfg : settings) (w : oracle)
           (entry : nat) (o : string) (use_configmode : option bool) : M bool :=
  let use_configmode := default (enable_configmode cfg) use_configmode in
  if get_worker_using_settings w o use_configmode then
    worker <- new_worker ;;;
    new_worker_thread <- new_thread ;;;
    update_entry entry (set_worker_of worker new_worker_thread) ;;;
    ret true
  else ret false.

(** The section of [__connection_handler] under [__current_users_mutex]:
    it returns [continue_register] and the entry the handler goes on
    with. *)
Definition admission (cfg : settings) (w : oracle) (c : connection)
           (o : string) : M (bool * nat) :=
  log Debug ;;;
  entry <- gets (fun s => current_users s !! o) ;;;
  use_configmode <-
    (if negb (enable_configmode cfg) then
       found <- lift (search_device w o) ;;;
       match find (fun dev => String.eqb (dev_origin dev) o) found with
       | None => raise AttributeError
       | Some dev =>
           if negb (is_device_active w (identifier dev))
           then log Warning ;;; ret true
           else ret (enable_configmode cfg)
       end
     else ret (enable_configmode cfg)) ;;;
  match entry, use_configmode with
  | Some entry, false =>
      log Info ;;;
      r <- get_entry entry ;;;
      open <- gets (is_open (websocket_client_connection r)) ;;;
      continue_register <-
        (if open then log Error ;;; ret false
         else
           alive <- is_alive (worker_thread r) ;;;
           alive_and_not_stopping <-
             (if alive then
                stopping <- is_stopping (worker_instance r) ;;;
                ret (negb stopping)
              else ret false) ;;;
           if alive_and_not_stopping then log Info ;;; ret false
           else
             alive <- is_alive (worker_thread r) ;;;
             if negb alive then
               log Info ;;;
               add_worker_and_thread_to_entry cfg w entry o
                                              (Some use_configmode)
             else log Info ;;; ret false) ;;;
      (if continue_register
       then update_entry entry (set_connection_of (conn c))
       else ret tt) ;;;
      (if continue_register
       then modify (fun s => set_current_users (<[o := entry]> (current_users s)) s)
       else ret tt) ;;;
      ret (continue_register, entry)
  | _, _ =>
      log Info ;;;
      entry <- new_entry {| origin := o;
                            websocket_client_connection := conn c;
                            worker_instance := None;
                            worker_thread := None |} ;;;
      continue_register <-
        add_worker_and_thread_to_entry cfg w entry o (Some use_configmode) ;;;
      (if continue_register
       then modify (fun s => set_current_users (<[o := entry]> (current_users s)) s)
       else ret tt) ;;;
      ret (continue_register, entry)
  end.

(** The [@logger.catch()] decorator: an exception that leaves the handler
    is logged and swallowed. *)
Definition logger_catch (m : M unit) : M unit :=
  try_except m (fun _ => log Error).

(** [__connection_handler]. *)
Definition connection_handler (cfg : settings) (w : oracle) (c : connection)
  : M unit :=
  logger_catch (
    stop <- gets stop_server_event ;;;
    if stop then ret tt
    else
      auth <- authenticate_connection cfg w c ;;;
      if negb (snd auth) then
        close_websocket_client_connection (fst auth) (conn c)
      else
        match fst auth with
        | None => ret tt
        | Some o =>
            log Info ;;;
            (if enable_configmode cfg then log Warning else ret tt) ;;;
            connecting <- gets users_connecting ;;;
            if bool_decide (o ∈ connecting) then log Info
            else
              modify (fun s => set_users_connecting ({[o]} ∪ users_connecting s) s) ;;;
              adm <- admission cfg w c o ;;;
              let continue_register := fst adm in
              let entry := snd adm in
              if negb continue_register then
                emit (AsyncSleep (UniformSeconds 3 15)) ;;;
                log Debug ;;;
                connecting_remove o ;;;
                log Info
              else
                r <- get_entry entry ;;;
                let worker_instance := worker_instance r in
                let worker_thread := worker_thread r in
                try_finally
                  (try_except
                     (alive <- is_alive worker_thread ;;;
                      (if negb alive
                       then log Debug ;;; thread_start worker_thread
                       else ret tt) ;;;
                      connecting_remove o ;;;
                      log Debug ;;;
                      client_message_receiver w o (Some entry))
                     (fun _ => log Error))
                  (cur <- get_entry entry ;;;
                   if Nat.eqb (websocket_client_connection cur) (conn c) then
                     log Debug ;;;
                     stop_worker worker_instance ;;;
                     queue_put worker_thread
                   else log Warning) ;;;
                log Info
        end).

(** The last part of [__connection_handler], from
    [worker_instance = entry.worker_instance] on, which serves a connection
    that was admitted.  Here the handler is one task among others on the
    loop: [receiver_task] is all that happens there until
    [await receiver_task] comes back, the receive loop of this connection
    and what the other tasks do in the meantime. *)
Definition serve_admitted (c : connection) (o : string) (entry : nat)
           (receiver_task : M unit) : M unit :=
  r <- get_entry entry ;;;
  let worker_instance := worker_instance r in
  let worker_thread := worker_thread r in
  try_finally
    (try_except
       (alive <- is_alive worker_thread ;;;
        (if negb alive
         then log Debug ;;; thread_start worker_thread
         else ret tt) ;;;
        connecting_remove o ;;;
        log Debug ;;;
        receiver_task)
       (fun _ => log Error))
    (cur <- get_entry entry ;;;
     if Nat.eqb (websocket_client_connection cur) (conn c) then
       log Debug ;;;
       stop_worker worker_instance ;;;
       queue_put worker_thread
     else log Warning) ;;;
  log Info.

(** ** The worker join thread *)

(** What the rest of the process does to the join thread's inputs during
    one turn of its loop, and whether a joined thread that was running is
    still running when [join(10)] comes back. *)
Record tick := {
  alive_after_join : bool;
  puts : list (option nat);
  sets_stop : bool
}.

(** [thread.join(timeout)]. *)
Definition thread_join (t : nat) (timeout : delay) (still_alive : bool)
  : M unit :=
  emit (Join t timeout) ;;;
  fun s => match threads s !! t with
           | Some Alive =>
               if still_alive then (Ret tt, s)
               else (Ret tt, set_threads (<[t := Finished]> (threads s)) s)
           | Some Finished => (Ret tt, s)
           | _ => (Raise RuntimeError, s)
           end.

(** [queue.task_done()]. *)
Definition task_done : M unit :=
  fun s => match unfinished_tasks s with
           | O => (Raise ValueError, s)
           | S n => (Ret tt, set_queue (worker_shutdown_queue s) n s)
           end.

(** The test of the [while] in [__internal_worker_join]. *)
Definition join_loop_test (s : server) : bool :=
  negb (stop_server_event s)
  || (stop_server_event s && negb (bool_decide (worker_shutdown_queue s = []))).

(** One pass through the body of that loop. *)
Definition join_loop_body (still_alive : bool) : M unit :=
  q <- gets worker_shutdown_queue ;;;
  match q with
  | [] =>
      (* queue.Empty *)
      emit (TimeSleep (Seconds 1))
  | next_item :: rest =>
      modify (fun s => set_queue rest (unfinished_tasks s) s) ;;;
      match next_item with
      | Some t =>
          log Info ;;;
          try_except (thread_join t (Seconds 10) still_alive)
                     (fun e => match e with
                               | RuntimeError => log Warning
                               | _ => raise e
                               end) ;;;
          alive <- is_alive (Some t) ;;;
          if alive then log Debug ;;; queue_put (Some t)
          else log Debug
      | None => ret tt
      end ;;;
      task_done
  end.

Definition interfere (t : tick) : M unit :=
  modify (fun s => set_queue (worker_shutdown_queue s ++ puts t)
                             (unfinished_tasks s + length (puts t))%nat s) ;;;
  if sets_stop t then modify (set_stop_server_event true) else ret tt.

(** [__internal_worker_join], one [tick] per turn of the loop. *)
Fixpoint internal_worker_join (sched : list tick) : M unit :=
  go_on <- gets join_loop_test ;;;
  if go_on then
    match sched with
    | [] => blocked
    | t :: sched' =>
        join_loop_body (alive_after_join t) ;;;
        interfere t ;;;
        internal_worker_join sched'
    end
  else log Info.

(** One turn of the join thread as seen from another thread: when the loop
    ends or the body raises, the thread is over. *)
Definition join_thread_turn (still_alive : bool) (s : server) : server :=
  if join_loop_test s then
    match join_loop_body still_alive s with
    | (Ret _, s') => s'
    | (_, s') => set_internal_worker_join_thread Finished s'
    end
  else set_internal_worker_join_thread Finished (snd (log Info s)).

(** ** Starting and stopping the server *)

Fixpoint for_each {A} (l : list A) (f : A -> M unit) : M unit :=
  match l with
  | [] => ret tt
  | x :: l' => f x ;;; for_each l' f
  end.

(** [__close_all_connections_and_signal_stop]. *)
Definition close_all_connections_and_signal_stop : M unit :=
  log Info ;;;
  users <- gets (fun s => map_to_list (current_users s)) ;;;
  for_each users (fun kv =>
    worker_entry <- get_entry (snd kv) ;;;
    stop_worker (worker_instance worker_entry) ;;;
    close_websocket_client_connection
      (Some (origin worker_entry))
      (websocket_client_connection worker_entry)) ;;;
  log Info.

(** A connection that arrives while something else is going on: the handler
    runs on the scheduler and its outcome is not observed by the caller. *)
Definition run_handler (cfg : settings) (a : oracle * connection)
           (s : server) : server :=
  snd (connection_handler cfg (fst a) (snd a) s).

Definition run_arrivals (cfg : settings) (batch : list (oracle * connection))
           (s : server) : server :=
  fold_left (fun s a => run_handler cfg a s) batch s.

(** The [while len(self.__users_connecting) > 0] loop of [stop_server];
    between two tests the connections of one batch are handled. *)
Fixpoint wait_for_connecting (cfg : settings)
         (sched : list (list (oracle * connection))) : M unit :=
  fun s =>
    if Nat.ltb 0 (size (users_connecting s)) then
      match sched with
      | [] => (Blocked, s)
      | batch :: sched' =>
          wait_for_connecting cfg sched'
            (run_arrivals cfg batch
               (snd ((log Info ;;; emit (TimeSleep (Seconds 1))) s)))
      end
    else (Ret tt, s).

(** [queue.join()]: returns once every queued item has been marked done;
    only the join thread marks items done. *)
Fixpoint queue_join (ticks : list bool) : M unit :=
  fun s =>
    match unfinished_tasks s with
    | O => (Ret tt, s)
    | S _ =>
        match internal_worker_join_thread s, ticks with
        | Alive, t :: ticks' => queue_join ticks' (join_thread_turn t s)
        | _, _ => (Blocked, s)
        end
    end.

(** [stop_server]. *)
Definition stop_server (cfg : settings)
           (sched : list (list (oracle * connection))) (ticks : list bool)
  : M unit :=
  log Info ;;;
  modify (set_stop_server_event true) ;;;
  wait_for_connecting cfg sched ;;;
  running <- gets loop_running ;;;
  (if running then close_all_connections_and_signal_stop
   else (* future.result() is never set *) blocked) ;;;
  log Info ;;;
  jt <- gets internal_worker_join_thread ;;;
  match jt with
  | Alive => ret tt
  | Finished => ret tt
  | NotStarted => raise RuntimeError
  end ;;;
  queue_join ticks ;;;
  modify (set_loop_running false) ;;;
  log Info.

(** [start_server], up to the point where [run_forever] is entered.
    [bind_ok] tells whether [websockets.serve] could bind the port. *)
Definition start_server (cfg : settings) (bind_ok : bool) : M unit :=
  log Info ;;;
  match mapping_manager cfg with
  | None => raise AttributeError
  | Some _ => log Debug
  end ;;;
  jt <- gets internal_worker_join_thread ;;;
  match jt with
  | Alive => ret tt
  | NotStarted => modify (set_internal_worker_join_thread Alive)
  | Finished => raise RuntimeError
  end ;;;
  if bind_ok then modify (set_loop_running true)
  else raise OSError.

(** ** Queries *)

(** What a method typed [Optional[AbstractCommunicator]] can hand back at
    run time. *)
Inductive pyvalue :=
| PyNone
| PyBool (b : bool)
| PyCommunicator (worker : nat).

(** [get_origin_communicator]; the communicator is that of the worker. *)
Definition get_origin_communicator (o : string) : M pyvalue :=
  entry <- gets (fun s => current_users s !! o) ;;;
  match entry with
  | Some e =>
      r <- get_entry e ;;;
      match worker_instance r with
      | Some worker => ret (PyCommunicator worker)
      | None => ret (PyBool false)
      end
  | None => ret (PyBool false)
  end.

(** * Properties *)

(** ** Reference notions the statements compare the code with *)

Fixpoint all_ascii_digits (s : string) : bool :=
  match s with
  | EmptyString => true
  | String c s' => is_ascii_digit c && all_ascii_digits s'
  end.

(** The number a string of decimal digits denotes, most significant digit
    first. *)
Fixpoint unsigned_value (s : string) : Z :=
  match s with
  | EmptyString => 0
  | String c s' =>
      (code c - 48) * 10 ^ Z.of_nat (String.length s') + unsigned_value s'
  end.

(** The number a sequence of bytes denotes, most significant byte first. *)
Fixpoint big_endian_value (b : list Byte.byte) : Z :=
  match b with
  | [] => 0
  | x :: b' =>
      Z.of_N (Byte.to_N x) * 256 ^ Z.of_nat (length b') + big_endian_value b'
  end.

Fixpoint has_char (sep : ascii) (s : string) : bool :=
  match s with
  | EmptyString => false
  | String c s' => Ascii.eqb c sep || has_char sep s'
  end.

(** A text frame the decoder cannot take apart: no semicolon, or a part
    before the first semicolon that [int] rejects. *)
Definition malformed_text (m : string) : bool :=
  match split1 ";"%char m with
  | [l; _] => match Py.int l with
              | Ret _ => false
              | _ => true
              end
  | _ => true
  end.

(** The (message id, response) pairs handed to entries, oldest first. *)
Definition deliveries (t : list event) : list (Z * message) :=
  rev (omap (fun ev => match ev with
                       | SetMessageResponse _ i r => Some (i, r)
                       | _ => None
                       end) t).

(** Reading on after a frame: the loop ends the way it would have ended
    without the frame and hands over what it would have handed over. *)
Definition continues_after (client_entry connection : nat) (m : message)
           (script : list recv_step) (s : server) : Prop :=
  fst (receive_loop client_entry connection (RecvMessage m :: script) s)
  = fst (receive_loop client_entry connection script s)
  /\ deliveries (trace (snd (receive_loop client_entry connection
                                          (RecvMessage m :: script) s)))
     = deliveries (trace (snd (receive_loop client_entry connection script s))).

(** The state in which the handler enters the admission section, given the
    state [s1] authentication left: the connection is announced in the log
    and the origin is in the connecting set. *)
Definition at_admission (cfg : settings) (o : string) (s1 : server) : server :=
  snd ((log Info ;;;
        (if enable_configmode cfg then log Warning else ret tt) ;;;
        modify (fun s => set_users_connecting ({[o]} ∪ users_connecting s) s))
         s1).

(** What the specification expects of a restart: no entry is left. *)
Definition restart_empties_registry (cfg : settings)
           (sched : list (list (oracle * connection))) (ticks : list bool)
           (bind_ok : bool) (s : server) : Prop :=
  current_users
    (snd ((stop_server cfg sched ticks ;;; start_server cfg bind_ok) s)) = ∅.

(** [keeps P m]: when [P] holds before [m] it holds after it, whether [m]
    returns, raises or blocks. *)
Definition keeps (P : server -> Prop) {A} (m : M A) : Prop :=
  forall s, P s -> P (snd (m s)).

(** ** Sample configurations *)

Module Sample.

Definition mappings : MappingManager :=
  {| get_all_devicemappings := ["dev1"; "dev2"];
     get_auths := [("user", "secret")] |}.

Definition configured : settings :=
  {| enable_configmode := false; mapping_manager := Some mappings |}.



(** A running server to which a new connection, number 5, has just been
    made. *)
Definition serving : server :=
  {| stop_server_event := false; current_users := ∅;
     users_connecting := ∅; entries := ∅;
     connection_open := {[ 5%nat := true ]};
     worker_stopping := ∅; threads := ∅; worker_shutdown_queue := [];
     unfinished_tasks := 0; internal_worker_join_thread := Alive;
     loop_running := true; trace := [] |}.

(** A running server with dev1 connected over connection 1, served by
    worker 0 on thread 0, and a new connection, number 5. *)
Definition with_dev1 : server :=
  {| stop_server_event := false;
     current_users := {[ "dev1" := 0%nat ]};
     users_connecting := ∅;
     entries := {[ 0%nat := {| origin := "dev1";
                               websocket_client_connection := 1;
                               worker_instance := Some 0%nat;
                               worker_thread := Some 0%nat |} ]};
     connection_open := {[ 1%nat := true; 5%nat := true ]};
     worker_stopping := {[ 0%nat := false ]};
     threads := {[ 0%nat := Alive ]};
     worker_shutdown_queue := [];
     unfinished_tasks := 0; internal_worker_join_thread := Alive;
     loop_running := true; trace := [] |}.

(** The same server at shutdown, with thread 0 waiting to be joined. *)
Definition draining : server :=
  set_queue [Some 0%nat] 1 (set_stop_server_event true with_dev1).

(** Two turns of the join thread: the joined thread outlives the first
    join and is gone after the second. *)
Definition two_turns : list tick :=
  [ {| alive_after_join := true; puts := []; sets_stop := false |};
    {| alive_after_join := false; puts := []; sets_stop := false |} ].

Definition dev1 : device := {| dev_origin := "dev1"; identifier := 11 |}.

(** Collaborators that know dev1 as an active device, build workers, and
    accept no credentials at all. *)
Definition world (frames : list recv_step) : oracle :=
  {| search_device := fun o => if String.eqb o "dev1" then Ret [dev1]
                               else Ret [];
     is_device_active := fun _ => true;
     get_worker_using_settings := fun _ _ => true;
     check_auth := fun _ _ => false;
     incoming := frames |}.

(** The same, with a data manager that has no record of any device. *)
Definition world_without_devices : oracle :=
  {| search_device := fun _ => Ret [];
     is_device_active := fun _ => true;
     get_worker_using_settings := fun _ _ => true;
     check_auth := fun _ _ => false;
     incoming := [] |}.

(** The same as [world], with a worker factory that builds nothing. *)
Definition world_without_workers : oracle :=
  {| search_device := fun o => if String.eqb o "dev1" then Ret [dev1]
                               else Ret [];
     is_device_active := fun _ => true;
     get_worker_using_settings := fun _ _ => false;
     check_auth := fun _ _ => true;
     incoming := [] |}.

Definition handshake (authorization : list string) : connection :=
  {| conn := 5;
     request_headers :=
       ("Host", "mad.example") :: ("origin", "dev1")
       :: map (fun v => ("Authorization", v)) authorization |}.

End Sample.

(** ** Further methods of the server *)

(** The loop of [get_connected_origins] over the items of the registry.
    (The registry is kept as a finite map, so the items come in the order of
    [map_to_list] and not in the dict's insertion order; what is proved
    about the result does not depend on the order.) *)
Fixpoint collect_connected (items : list (string * nat))
         (origins_connected : list string) : M (list string) :=
  match items with
  | [] => ret origins_connected
  | kv :: items' =>
      entry <- get_entry (snd kv) ;;;
      open <- gets (is_open (websocket_client_connection entry)) ;;;
      collect_connected items'
        (if open then (origins_connected ++ [fst kv])%list
         else origins_connected)
  end.

(** [get_connected_origins]. *)
Definition get_connected_origins : M (list string) :=
  items <- gets (fun s => map_to_list (current_users s)) ;;;
  collect_connected items [].

(** [get_reg_origins]: the coroutine is handed to the loop and its result
    awaited; a loop that is not running never produces it. *)
Definition get_reg_origins : M (list string) :=
  running <- gets loop_running ;;;
  if running then get_connected_origins else blocked.

(** [__close_and_signal_stop]. *)
Definition close_and_signal_stop (o : string) : M unit :=
  log Info ;;;
  entry <- gets (fun s => current_users s !! o) ;;;
  match entry with
  | Some e =>
      r <- get_entry e ;;;
      stop_worker (worker_instance r) ;;;
      close_websocket_client_connection (Some (origin r))
                                        (websocket_client_connection r) ;;;
      log Info
  | None => log Warning
  end.

(** [force_disconnect]. *)
Definition force_disconnect (o : string) : M unit :=
  running <- gets loop_running ;;;
  if running then close_and_signal_stop o else blocked.

(** ** Further reference notions *)

(** What the decoder makes of a frame, when it can take it apart. *)
Definition frame_parts (m : message) : option (Z * message) :=
  match m with
  | Text t =>
      match split1 ";"%char t with
      | [l; r] => match Py.int l with
                  | Ret i => Some (i, Text r)
                  | _ => None
                  end
      | _ => None
      end
  | Binary b => Some (big_endian_value (take 4 b), Binary (drop 4 b))
  end.

(** The frames of a script, in the order of arrival. *)
Definition frames (script : list recv_step) : list message :=
  omap (fun st => match st with
                  | RecvMessage m => Some m
                  | _ => None
                  end) script.

(** A stretch of a script in which frames that can be decoded arrive, and
    reads time out, while the connection stays up. *)
Definition undisturbed (script : list recv_step) : Prop :=
  Forall (fun st => match st with
                    | RecvMessage m => is_Some (frame_parts m)
                    | RecvTimeout => True
                    | _ => False
                    end) script.

(** Every registered origin has its entry among the objects; the entry
    carries that origin, a worker and a thread. *)
Definition registry_wf (s : server) : Prop :=
  forall o e,
    current_users s !! o = Some e ->
    exists r, entries s !! e = Some r
              /\ origin r = o
              /\ is_Some (worker_instance r)
              /\ is_Some (worker_thread r).

(** The bookkeeping of the shutdown queue: one unfinished task per queued
    item. *)
Definition balanced (s : server) : Prop :=
  unfinished_tasks s = length (worker_shutdown_queue s).

(** A turn of the join thread during which no thread survives its join and
    nobody adds to the queue. *)
Definition quiet_tick (t : tick) : Prop :=
  alive_after_join t = false /\ puts t = [].

Definition thread_alive (t : nat) (s : server) : bool :=
  match threads s !! t with
  | Some Alive => true
  | _ => false
  end.

Fixpoint all_int_spaces (s : string) : bool :=
  match s with
  | EmptyString => true
  | String c s' => is_int_space c && all_int_spaces s'
  end.

(** A decimal numeral as [int] takes it: blanks, an optional minus sign, the
    digits, blanks. *)
Definition numeral (pre : string) (negative : bool) (digits post : string)
  : string :=
  pre +:+ (if negative then "-" else "") +:+ digits +:+ post.

(** The state in which the handler of an admitted connection awaits its
    receiver task, given the state [s2] in which admission left it: the
    thread [t] has been started and the origin is out of the connecting
    set. *)
Definition awaiting (o : string) (t : nat) (s2 : server) : server :=
  snd ((log Debug ;;; thread_start (Some t) ;;; connecting_remove o ;;;
        log Debug) s2).

(** ** Further sample configurations *)

Module Scenario.

(** dev1 is registered, its old connection is closed and its thread has
    ended; connection 5 is new. *)
Definition dev1_gone : server :=
  set_connection_open {[ 1%nat := false; 5%nat := true ]}
    (set_threads {[ 0%nat := Finished ]} Sample.with_dev1).

Definition dev1_entry : WebsocketConnectedClientEntry :=
  {| origin := "dev1"; websocket_client_connection := 1;
     worker_instance := Some 0%nat; worker_thread := Some 0%nat |}.

(** A server in config mode. *)
Definition config_mode : settings :=
  {| enable_configmode := true;
     mapping_manager := Some Sample.mappings |}.

(** dev1 sends one frame and hangs up. *)
Definition one_frame : oracle :=
  Sample.world [RecvMessage (Text "1;ok"); RecvConnectionClosed].

(** One turn of the join thread in which the joined thread ends. *)
Definition quiet_turns : list tick :=
  [ {| alive_after_join := false; puts := []; sets_stop := false |} ].

(** dev1 is connected and an earlier thread of it, thread 3, is waiting in
    the shutdown queue. *)
Definition dev1_queued : server :=
  set_queue [Some 3%nat] 1
    (set_threads {[ 0%nat := Alive; 3%nat := Alive ]} Sample.with_dev1).

(** dev1 again, on connection 6. *)
Definition second_handshake : connection :=
  {| conn := 6;
     request_headers := [("Origin", "dev1"); ("Authorization", "")] |}.

(** What can happen while the handler of connection 5 awaits its receiver
    task: the receiver starts; the transport of connection 5 goes down and
    the worker thread, thread 0, ends; dev1 comes back on connection 6 and
    that handshake is handled up to its own await; then the receiver of
    connection 5 wakes up to a closed connection. *)
Definition raced_receiver : M unit :=
  log Info ;;;
  close 5 ;;;
  modify (fun s => set_threads (<[0%nat := Finished]> (threads s)) s) ;;;
  modify (fun s =>
            set_connection_open (<[6%nat := true]> (connection_open s)) s) ;;;
  modify (run_handler Sample.configured (Sample.world [], second_handshake)) ;;;
  log Warning.

(** A message id of 4301 digits, one more than [int] reads, and a text
    frame that carries it. *)
Definition long_id : string := string_of_list_ascii (repeat "1"%char 4301).

Definition long_frame : message := Text (long_id +:+ String ";" "ok").

End Scenario.

(** [registry_wf] on the two maps it reads. *)
Definition wf_maps (cu : gmap string nat)
           (en : gmap nat WebsocketConnectedClientEntry) : Prop :=
  forall o e,
    cu !! o = Some e ->
    exists r, en !! e = Some r
              /\ origin r = o
              /\ is_Some (worker_instance r)
              /\ is_Some (worker_thread r).

(** The origins among the given items whose entry holds an open
    connection. *)
Definition open_among (s : server) (items : list (string * nat))
  : list string :=
  omap (fun kv => match entries s !! snd kv with
                  | Some r => if is_open (websocket_client_connection r) s
                              then Some (fst kv) else None
                  | None => None
                  end) items.

(** A registered origin whose entry holds an open connection. *)
Definition connected (s : server) (o : string) : Prop :=
  exists e r,
    current_users s !! o = Some e
    /\ entries s !! e = Some r
    /\ is_open (websocket_client_connection r) s = true.

(** An item of the registry whose entry exists and has a worker. *)
Definition stoppable (s : server) (kv : string * nat) : Prop :=
  exists r wk, entries s !! snd kv = Some r /\ worker_instance r = Some wk.

(** ** Saved routes (mapadroid/route/routecalc/RoutecalcUtil.py) *)

Module Route.

(** Whitespace as [str.strip()] and [str.isspace()] see it, among the code
    points below 256. *)
Definition is_space (c : ascii) : bool :=
  ((9 <=? code c) && (code c <=? 13))
  || ((28 <=? code c) && (code c <=? 32))
  || (code c =? 133) || (code c =? 160).

Fixpoint lstrip (s : string) : string :=
  match s with
  | String c s' => if is_space c then lstrip s' else s
  | EmptyString => s
  end.

Fixpoint rstrip (s : string) : string :=
  match s with
  | EmptyString => EmptyString
  | String c s' =>
      match rstrip s' with
      | EmptyString => if is_space c then EmptyString else String c EmptyString
      | String _ _ as r => String c r
      end
  end.

(** [s.strip()]. *)
Definition strip (s : string) : string := rstrip (lstrip s).

(** [s.isspace()], or [s] is empty. *)
Fixpoint all_space (s : string) : bool :=
  match s with
  | EmptyString => true
  | String c s' => is_space c && all_space s'
  end.

(** [s.split(sep)] for a one-character separator. *)
Fixpoint split (sep : ascii) (s : string) : list string :=
  match s with
  | EmptyString => [EmptyString]
  | String c s' =>
      if Ascii.eqb c sep then EmptyString :: split sep s'
      else match split sep s' with
           | h :: t => String c h :: t
           | [] => [String c EmptyString]
           end
  end.

Definition res_bind {A B} (r : res A) (k : A -> res B) : res B :=
  match r with
  | Ret a => k a
  | Raise e => Raise e
  | Blocked => Blocked
  end.

(** The dict [{'lat': .., 'lng': ..}] of a route. *)
Record coord (F : Type) := { lat : F; lng : F }.
Arguments lat {F} _.
Arguments lng {F} _.

Section Floats.

(** Floating point numbers are not modelled: the type of floats and the
    functions [float(s)] and [str(x)] (as used by ['%s' % x]) are taken as
    they come. *)
Context {F : Type} (float : string -> res F) (str : F -> string).

(** The loop of [_read_saved_json_route] over the lines of a route file. *)
Fixpoint read_lines (lines : list string) (result : list (coord F))
  : res (list (coord F)) :=
  match lines with
  | [] => Ret result
  | line :: lines' =>
      if String.eqb (strip line) EmptyString then read_lines lines' result
      else
        let line_split := split ","%char line in
        res_bind (index line_split 0) (fun f0 =>
        res_bind (float (strip f0)) (fun la =>
        res_bind (index line_split 1) (fun f1 =>
        res_bind (float (strip f1)) (fun ln =>
        read_lines lines' (result ++ [ {| lat := la; lng := ln |} ])%list))))
  end.

(** [_read_saved_json_route], given the [routefile] of the entry. *)
Definition read_saved_json_route (routefile : option (list string))
  : res (list (coord F)) :=
  match routefile with
  | Some lines => read_lines lines []
  | None => Ret []
  end.

(** The lines [get_json_route] stores for a computed route:
    ['%s,%s' % (coord['lat'], coord['lng'])] for each coordinate. *)
Definition calc_coords (export_data : list (coord F)) : list string :=
  map (fun c => str (lat c) +:+ String "," (str (lng c))) export_data.

(** A float whose text [float] reads back, and whose text is a single
    field: not blank and free of commas. *)
Definition prints_cleanly (x : F) : Prop :=
  float (strip (str x)) = Ret x
  /\ strip (str x) <> EmptyString
  /\ has_char "," (str x) = false.

End Floats.

(** Unary numerals, a stand-in number format to try the reader on. *)
Definition unary_float (s : string) : res nat :=
  match s with
  | EmptyString => Raise ValueError
  | _ =>
      if forallb (fun c => Ascii.eqb c "1") (list_ascii_of_string s)
      then Ret (String.length s) else Raise ValueError
  end.

Fixpoint unary_str (n : nat) : string :=
  match n with
  | O => EmptyString
  | S n' => String "1" (unary_str n')
  end.

(** A route of two points. *)
Definition two_points : list (coord nat) :=
  [ {| lat := 2%nat; lng := 3%nat |}; {| lat := 1%nat; lng := 4%nat |} ].

End Route.

(** ** Facts about the Python primitives *)

Section PyFacts.

Lemma digit_bounds c : is_ascii_digit c = true -> 48 <= code c <= 57.
Proof.
  unfold is_ascii_digit. intros H.
  apply andb_true_iff in H as [H1 H2].
  apply Z.leb_le in H1. apply Z.leb_le in H2. lia.
Qed.

Ltac decide_codes :=
  repeat match goal with
         | |- context [?a <=? ?b] => destruct (Z.leb_spec a b); try lia
         | |- context [?a =? ?b] => destruct (Z.eqb_spec a b); try lia
         end; try reflexivity.

Lemma digit_not_space c : is_ascii_digit c = true -> is_int_space c = false.
Proof.
  intros H. apply digit_bounds in H. unfold is_int_space. decide_codes.
Qed.

Lemma digit_not_underscore c :
  is_ascii_digit c = true -> is_underscore c = false.
Proof.
  intros H. apply digit_bounds in H. unfold is_underscore. decide_codes.
Qed.

Lemma digit_not_semicolon c :
  is_ascii_digit c = true -> Ascii.eqb c ";" = false.
Proof.
  intros H. apply digit_bounds in H.
  destruct (Ascii.eqb_spec c ";") as [-> |]; [| reflexivity].
  change (code ";") with 59 in H. lia.
Qed.

Lemma digits_without_semicolon s :
  all_ascii_digits s = true -> has_char ";" s = false.
Proof.
  induction s as [| c s IH]; simpl; [reflexivity |].
  intros H. apply andb_true_iff in H as [Hc Hs].
  rewrite (digit_not_semicolon c Hc). simpl. auto.
Qed.

Lemma split1_at_first sep l r :
  has_char sep l = false ->
  split1 sep (l +:+ String sep r) = [l; r].
Proof.
  induction l as [| c l IH]; simpl.
  - intros _. rewrite Ascii.eqb_refl. reflexivity.
  - intros H. apply orb_false_iff in H as [Hc Hl].
    rewrite Hc, (IH Hl). reflexivity.
Qed.

Lemma split1_without sep s :
  has_char sep s = false -> split1 sep s = [s].
Proof.
  induction s as [| c s IH]; simpl; [reflexivity |].
  intros H. apply orb_false_iff in H as [Hc Hs].
  rewrite Hc, (IH Hs). reflexivity.
Qed.

Lemma scan_digits_all s : forall acc n,
  all_ascii_digits s = true ->
  scan_digits false acc n s
  = Some (acc * 10 ^ Z.of_nat (String.length s) + unsigned_value s,
          (n + String.length s)%nat, EmptyString).
Proof.
  induction s as [| c s IH]; intros acc n H.
  - simpl. do 3 f_equal; [lia | lia].
  - simpl in H. apply andb_true_iff in H as [Hc Hs].
    cbn [scan_digits]. rewrite Hc, (IH _ _ Hs).
    cbn [String.length unsigned_value].
    rewrite Nat2Z.inj_succ, Z.pow_succ_r by lia.
    do 3 f_equal; lia.
Qed.

Lemma int_of_digits s :
  s <> EmptyString -> all_ascii_digits s = true ->
  Z.of_nat (String.length s) <= int_max_str_digits ->
  Py.int s = Ret (unsigned_value s).
Proof.
  destruct s as [| c s]; [congruence |]. intros _ H Hlen.
  pose proof H as Hall. simpl in H. apply andb_true_iff in H as [Hc Hs].
  pose proof (digit_bounds c Hc) as Hb.
  unfold Py.int. cbn [skip_spaces]. rewrite (digit_not_space c Hc).
  unfold parse_sign.
  destruct (Z.eqb_spec (code c) 43); [lia |].
  destruct (Z.eqb_spec (code c) 45); [lia |].
  cbn [starts_with_underscore]. rewrite (digit_not_underscore c Hc).
  rewrite (scan_digits_all _ 0 0%nat Hall).
  cbn [String.length Nat.add skip_spaces].
  cbn [String.length] in Hlen.
  destruct (Z.ltb_spec int_max_str_digits (Z.of_nat (S (String.length s))));
    [lia |].
  f_equal. lia.
Qed.

Lemma int_of_long_digits s :
  all_ascii_digits s = true ->
  int_max_str_digits < Z.of_nat (String.length s) ->
  Py.int s = Raise ValueError.
Proof.
  destruct s as [| c s]; [cbn; unfold int_max_str_digits; lia |].
  intros H Hlen.
  pose proof H as Hall. simpl in H. apply andb_true_iff in H as [Hc Hs].
  pose proof (digit_bounds c Hc) as Hb.
  unfold Py.int. cbn [skip_spaces]. rewrite (digit_not_space c Hc).
  unfold parse_sign.
  destruct (Z.eqb_spec (code c) 43); [lia |].
  destruct (Z.eqb_spec (code c) 45); [lia |].
  cbn [starts_with_underscore]. rewrite (digit_not_underscore c Hc).
  rewrite (scan_digits_all _ 0 0%nat Hall).
  cbn [String.length Nat.add skip_spaces].
  cbn [String.length] in Hlen.
  destruct (Z.ltb_spec int_max_str_digits (Z.of_nat (S (String.length s))));
    [reflexivity | lia].
Qed.

Lemma int_from_bytes_big_acc b : forall acc,
  fold_left (fun a x => 256 * a + Z.of_N (Byte.to_N x)) b acc
  = acc * 256 ^ Z.of_nat (length b) + big_endian_value b.
Proof.
  induction b as [| x b IH]; intros acc; simpl fold_left.
  - simpl. lia.
  - rewrite IH. cbn [length big_endian_value].
    rewrite Nat2Z.inj_succ, Z.pow_succ_r by lia. lia.
Qed.

Lemma int_from_bytes_big_value b : int_from_bytes_big b = big_endian_value b.
Proof. unfold int_from_bytes_big. rewrite int_from_bytes_big_acc. lia. Qed.

End PyFacts.

(** ** Frame decoding *)

(** C6, as the code has it. A text frame made of one or more ASCII digits,
    a semicolon and a payload is cut at the first semicolon.  When the
    digits are no more than [int] accepts (4300 unless the interpreter is
    configured otherwise), the message id handed to the entry is the number
    the digits denote and the response is the whole rest, further
    semicolons included; when they are more, [int] raises ValueError and
    nothing is handed over.  A binary frame hands over the big-endian value
    of its first four bytes and the bytes after them. *)
Theorem on_message_decodes (client_entry : nat) (s : server) :
  (forall digits payload,
      digits <> EmptyString ->
      all_ascii_digits digits = true ->
      Z.of_nat (String.length digits) <= int_max_str_digits ->
      on_message client_entry (Text (digits +:+ String ";" payload)) s
      = (Ret tt,
         set_trace (SetMessageResponse client_entry (unsigned_value digits)
                                       (Text payload)
                    :: Log Debug5 :: trace s) s))
  /\ (forall digits payload,
         all_ascii_digits digits = true ->
         int_max_str_digits < Z.of_nat (String.length digits) ->
         on_message client_entry (Text (digits +:+ String ";" payload)) s
         = (Raise ValueError, set_trace (Log Debug5 :: trace s) s))
  /\ (forall b,
         on_message client_entry (Binary b) s
         = (Ret tt,
            set_trace (SetMessageResponse client_entry
                                          (big_endian_value (take 4 b))
                                          (Binary (drop 4 b))
                       :: Log Debug :: trace s) s)).
Proof.
  split; [| split].
  - intros digits payload Hne Hall Hlen.
    unfold on_message, bind, lift, log, emit, modify.
    rewrite (split1_at_first _ _ _ (digits_without_semicolon _ Hall)).
    cbn [index lookup list_lookup]. simpl.
    rewrite (int_of_digits _ Hne Hall Hlen). reflexivity.
  - intros digits payload Hall Hlen.
    unfold on_message, bind, lift, log, emit, modify.
    rewrite (split1_at_first _ _ _ (digits_without_semicolon _ Hall)).
    cbn [index lookup list_lookup]. simpl.
    rewrite (int_of_long_digits _ Hall Hlen). reflexivity.
  - intros b. unfold on_message, bind, log, emit, modify. simpl.
    rewrite int_from_bytes_big_value. reflexivity.
Qed.

Lemma on_message_decodes_witness :
  on_message 7 (Text "42;pong;again") Sample.serving
  = (Ret tt,
     set_trace [SetMessageResponse 7 42 (Text "pong;again"); Log Debug5]
               Sample.serving).
Proof.
  apply (proj1 (on_message_decodes 7 Sample.serving) "42" "pong;again").
  - discriminate.
  - reflexivity.
  - unfold int_max_str_digits. simpl. lia.
Defined.

(** C6, as the specification words it, fails: the text of
    [Scenario.long_frame] is 4301 ASCII digits, a semicolon and a payload,
    and the decoder raises ValueError on it instead of handing over an id
    and the payload. *)
Lemma long_id_not_decoded :
  all_ascii_digits Scenario.long_id = true
  /\ Scenario.long_frame = Text (Scenario.long_id +:+ String ";" "ok")
  /\ fst (on_message 7 Scenario.long_frame Sample.serving) = Raise ValueError
  /\ deliveries (trace (snd (on_message 7 Scenario.long_frame Sample.serving)))
     = [].
Proof. repeat split; vm_compute; reflexivity. Qed.

Section DecoderFacts.

Lemma int_raises_ValueError s e : Py.int s = Raise e -> e = ValueError.
Proof.
  unfold Py.int. destruct (parse_sign (skip_spaces s)) as [sign s1].
  destruct (starts_with_underscore s1); [congruence |].
  destruct (scan_digits false 0 0 s1) as [[[v [| n]] rest] |];
    try congruence.
  destruct (skip_spaces rest); [| congruence].
  destruct (int_max_str_digits <? Z.of_nat (S n)); congruence.
Qed.

Lemma int_returns_or_raises s : Py.int s <> Blocked.
Proof.
  unfold Py.int. destruct (parse_sign (skip_spaces s)) as [sign s1].
  destruct (starts_with_underscore s1); [congruence |].
  destruct (scan_digits false 0 0 s1) as [[[v [| n]] rest] |];
    try congruence.
  destruct (skip_spaces rest); [| congruence].
  destruct (int_max_str_digits <? Z.of_nat (S n)); congruence.
Qed.

Lemma split1_shape sep s :
  split1 sep s = [s] \/ exists l r, split1 sep s = [l; r].
Proof.
  induction s as [| c s IH]; simpl; [by left |].
  destruct (Ascii.eqb c sep); [right; eauto |].
  destruct IH as [-> | (l & r & ->)]; [by left | right; eauto].
Qed.

Lemma on_message_malformed client_entry m s :
  malformed_text m = true ->
  exists e, (e = ValueError \/ e = IndexError)
            /\ on_message client_entry (Text m) s
               = (Raise e, set_trace (Log Debug5 :: trace s) s).
Proof.
  unfold malformed_text, on_message, bind, lift, log, emit, modify.
  intros Hbad.
  destruct (split1_shape ";" m) as [Heq | (l & r & Heq)];
    rewrite Heq in *; cbn [index lookup list_lookup] in *; simpl.
  - destruct (Py.int m) as [v | e |] eqn:Hint.
    + exists IndexError. split; [by right | reflexivity].
    + exists e. split; [left; eapply int_raises_ValueError; eauto | reflexivity].
    + by apply int_returns_or_raises in Hint.
  - destruct (Py.int l) as [v | e |] eqn:Hint.
    + discriminate.
    + exists e. split; [left; eapply int_raises_ValueError; eauto | reflexivity].
    + by apply int_returns_or_raises in Hint.
Qed.

End DecoderFacts.

(** ** Malformed frames *)

(** C1, as the code has it. A text frame without a semicolon, or whose part
    before the first semicolon [int] rejects, makes the decoder raise
    (ValueError, or IndexError when the text is a number and the semicolon
    is missing).  Nothing is handed to the entry, no warning is logged, and
    the exception leaves the receive loop at once: the frames that follow
    on the connection are not read. *)
Theorem malformed_frame_ends_receive_loop
        (client_entry connection : nat) (m : string)
        (script : list recv_step) (s : server) :
  is_open connection s = true ->
  malformed_text m = true ->
  exists e, (e = ValueError \/ e = IndexError)
            /\ receive_loop client_entry connection
                            (RecvMessage (Text m) :: script) s
               = (Raise e, set_trace (Log Debug5 :: trace s) s).
Proof.
  intros Hopen Hbad.
  destruct (on_message_malformed client_entry m s Hbad) as (e & He & Hrun).
  exists e. split; [exact He |].
  cbn [receive_loop]. unfold bind at 1. unfold gets. rewrite Hopen.
  unfold bind at 1. rewrite Hrun. reflexivity.
Qed.

Lemma malformed_frame_ends_receive_loop_witness :
  exists e, (e = ValueError \/ e = IndexError)
            /\ receive_loop 0 5 [RecvMessage (Text "42");
                                 RecvMessage (Text "1;ok")] Sample.serving
               = (Raise e, set_trace [Log Debug5] Sample.serving).
Proof.
  apply (malformed_frame_ends_receive_loop
           0 5 "42" [RecvMessage (Text "1;ok")] Sample.serving);
    reflexivity.
Defined.

(** C1, as the specification words it, fails: after the frame "abc" the
    loop does not go on to the frame "1;ok" that follows it. *)
Lemma malformed_frame_not_skipped :
  ~ continues_after 0 5 (Text "abc")
      [RecvMessage (Text "1;ok"); RecvConnectionClosed] Sample.serving.
Proof.
  unfold continues_after. intros [Hres _]. vm_compute in Hres. discriminate.
Qed.

(** What the handler makes of it: dev1 connects and sends "abc"; the
    exception is logged as an error, the worker is told to stop and its
    thread is queued for joining, and "1;ok" is never handed over. *)
Example malformed_frame_ends_handler :
  let run := connection_handler
               Sample.configured
               (Sample.world [RecvMessage (Text "abc");
                              RecvMessage (Text "1;ok");
                              RecvConnectionClosed])
               (Sample.handshake [""]) Sample.serving in
  fst run = Ret tt
  /\ deliveries (trace (snd run)) = []
  /\ firstn 4 (trace (snd run)) = [Log Info; Log Debug; Log Error; Log Debug5]
  /\ worker_stopping (snd run) !! 0%nat = Some true
  /\ worker_shutdown_queue (snd run) = [Some 0%nat].
Proof. vm_compute. repeat split; reflexivity. Qed.

(** ** Authentication *)




(** The branch of the authenticator for a missing mapping manager, taken by
    itself (no server that serves gets there): the advisory is logged, the
    pair (origin, False) is built and dropped, and the call [get_auths] on
    the missing manager raises AttributeError. *)
Lemma authenticate_unconfigured_raises
      (cfg : settings) (w : oracle) (c : connection) (o : string)
      (s : server) :
  mapping_manager cfg = None ->
  get_all (request_headers c) "Origin" !! 0%nat = Some o ->
  authenticate_connection cfg w c s
  = (Raise AttributeError, set_trace (Log Warning :: Log Info :: trace s) s).
Proof.
  intros Hmm Ho. unfold authenticate_connection. rewrite Ho, Hmm.
  reflexivity.
Qed.

(** With credentials configured, a known origin that sends a non-empty
    Authorization header is accepted exactly when [check_auth] accepts the
    header, and one that sends none is rejected. *)
Lemma authenticate_checks_credentials
      (cfg : settings) (mm : MappingManager) (w : oracle) (c : connection)
      (o : string) (s : server) :
  mapping_manager cfg = Some mm ->
  get_all (request_headers c) "Origin" !! 0%nat = Some o ->
  o ∈ get_all_devicemappings mm ->
  get_auths mm <> [] ->
  (forall a,
      get_all (request_headers c) "Authorization" !! 0%nat = Some a ->
      a <> EmptyString ->
      authenticate_connection cfg w c s
      = (Ret (Some o, check_auth w a (get_auths mm)),
         set_trace (Log Info :: trace s) s))
  /\ (get_all (request_headers c) "Authorization" !! 0%nat = None ->
      authenticate_connection cfg w c s
      = (Ret (Some o, false),
         set_trace (Log Warning :: Log Info :: trace s) s)).
Proof.
  intros Hmm Ho Hknown Hauths.
  unfold authenticate_connection. rewrite Ho, Hmm.
  rewrite (bool_decide_eq_true_2 _ Hknown).
  rewrite (bool_decide_eq_false_2 _ Hauths). cbn [negb].
  split.
  - intros a Ha Hne. rewrite Ha.
    apply String.eqb_neq in Hne. rewrite Hne. cbn [negb andb].
    destruct (check_auth w a (get_auths mm)); reflexivity.
  - intros Ha. rewrite Ha. reflexivity.
Qed.

(** C7, at the failing inputs. When credentials are configured and a known
    origin sends an Authorization header whose value is empty, the header
    is never passed to [check_auth] and the handshake is accepted, whatever
    [check_auth] would have said. *)
Theorem authenticate_accepts_empty_authorization
        (cfg : settings) (mm : MappingManager) (w : oracle) (c : connection)
        (o : string) (s : server) :
  mapping_manager cfg = Some mm ->
  get_all (request_headers c) "Origin" !! 0%nat = Some o ->
  o ∈ get_all_devicemappings mm ->
  get_auths mm <> [] ->
  get_all (request_headers c) "Authorization" !! 0%nat = Some EmptyString ->
  authenticate_connection cfg w c s
  = (Ret (Some o, true), set_trace (Log Info :: trace s) s).
Proof.
  intros Hmm Ho Hknown Hauths Ha.
  unfold authenticate_connection. rewrite Ho, Hmm.
  rewrite (bool_decide_eq_true_2 _ Hknown).
  rewrite (bool_decide_eq_false_2 _ Hauths). cbn [negb].
  rewrite Ha. reflexivity.
Qed.

Lemma authenticate_accepts_empty_authorization_witness :
  check_auth (Sample.world []) "" (get_auths Sample.mappings) = false
  /\ authenticate_connection Sample.configured (Sample.world [])
                             (Sample.handshake [""]) Sample.serving
     = (Ret (Some "dev1", true), set_trace [Log Info] Sample.serving).
Proof.
  split; [reflexivity |].
  apply (authenticate_accepts_empty_authorization
           Sample.configured Sample.mappings (Sample.world [])
           (Sample.handshake [""]) "dev1" Sample.serving);
    try reflexivity.
  - apply (bool_decide_unpack _). vm_compute. reflexivity.
  - discriminate.
Defined.

(** ** Queries *)

(** C9, at the failing inputs. For an origin without an entry, and for one
    whose entry has no worker, [get_origin_communicator] hands back the
    boolean False, which is not the absent value None. *)
Theorem get_origin_communicator_miss (o : string) (s : server) :
  (current_users s !! o = None
   \/ exists e r, current_users s !! o = Some e
                  /\ entries s !! e = Some r
                  /\ worker_instance r = None) ->
  get_origin_communicator o s = (Ret (PyBool false), s)
  /\ PyBool false <> PyNone.
Proof.
  intros H. split; [| discriminate].
  unfold get_origin_communicator, bind, gets, get_entry.
  destruct H as [-> | (e & r & -> & -> & ->)]; reflexivity.
Qed.

Lemma get_origin_communicator_miss_witness :
  get_origin_communicator "dev1" Sample.serving
  = (Ret (PyBool false), Sample.serving)
  /\ PyBool false <> PyNone.
Proof.
  apply (get_origin_communicator_miss "dev1" Sample.serving).
  left. reflexivity.
Defined.

(** ** Admission of a connection for an origin that is still connected *)

(** C3. Config mode is off, the data manager knows the device and reports
    it active, and the registry holds an entry for the origin whose
    connection is open: the admission section answers "do not continue",
    logs the error, and changes nothing else, so the entry keeps its
    connection and the registry keeps the entry. *)
Theorem open_connection_rejects_newcomer
        (cfg : settings) (w : oracle) (c : connection) (o : string)
        (found : list device) (dev : device)
        (e : nat) (r : WebsocketConnectedClientEntry) (s : server) :
  enable_configmode cfg = false ->
  search_device w o = Ret found ->
  find (fun d => String.eqb (dev_origin d) o) found = Some dev ->
  is_device_active w (identifier dev) = true ->
  current_users s !! o = Some e ->
  entries s !! e = Some r ->
  is_open (websocket_client_connection r) s = true ->
  admission cfg w c o s
  = (Ret (false, e),
     set_trace (Log Error :: Log Info :: Log Debug :: trace s) s)
  /\ entries (snd (admission cfg w c o s)) !! e = Some r
  /\ current_users (snd (admission cfg w c o s)) = current_users s.
Proof.
  intros Hcfg Hsearch Hfind Hactive Huser Hentry Hopen.
  assert (admission cfg w c o s
          = (Ret (false, e),
             set_trace (Log Error :: Log Info :: Log Debug :: trace s) s))
    as Hrun.
  { unfold admission, bind, log, emit, modify, gets, lift, get_entry, ret.
    cbn. rewrite Huser, Hcfg. cbn. rewrite Hsearch, Hfind, Hactive. cbn.
    rewrite Hentry. unfold is_open in *. cbn. rewrite Hopen. reflexivity. }
  rewrite Hrun. cbn. auto.
Qed.

Lemma open_connection_rejects_newcomer_witness :
  admission Sample.configured (Sample.world []) (Sample.handshake [""])
            "dev1" Sample.with_dev1
  = (Ret (false, 0%nat),
     set_trace [Log Error; Log Info; Log Debug] Sample.with_dev1)
  /\ entries (snd (admission Sample.configured (Sample.world [])
                             (Sample.handshake [""]) "dev1"
                             Sample.with_dev1)) !! 0%nat
     = Some {| origin := "dev1"; websocket_client_connection := 1;
               worker_instance := Some 0%nat; worker_thread := Some 0%nat |}
  /\ current_users (snd (admission Sample.configured (Sample.world [])
                                   (Sample.handshake [""]) "dev1"
                                   Sample.with_dev1))
     = current_users Sample.with_dev1.
Proof.
  apply (open_connection_rejects_newcomer
           Sample.configured (Sample.world []) (Sample.handshake [""])
           "dev1" [Sample.dev1] Sample.dev1 0%nat
           {| origin := "dev1"; websocket_client_connection := 1;
              worker_instance := Some 0%nat; worker_thread := Some 0%nat |}
           Sample.with_dev1);
    reflexivity.
Defined.

(** ** The worker join thread *)

Section JoinThread.

Lemma join_loop_test_false s :
  join_loop_test s = false
  <-> stop_server_event s = true /\ worker_shutdown_queue s = [].
Proof.
  unfold join_loop_test.
  destruct (stop_server_event s); cbn; [| split; [| intros []]; congruence].
  case_bool_decide as Hq; cbn; split; try congruence; tauto.
Qed.

Lemma interfere_returns t s : exists s', interfere t s = (Ret tt, s').
Proof.
  unfold interfere, bind, modify, ret. cbn.
  destruct (sets_stop t); eauto.
Qed.

Lemma internal_worker_join_exit sched : forall s s',
  internal_worker_join sched s = (Ret tt, s') ->
  stop_server_event s' = true /\ worker_shutdown_queue s' = [].
Proof.
  induction sched as [| t sched IH]; intros s s';
    cbn [internal_worker_join]; unfold bind at 1; unfold gets;
    destruct (join_loop_test s) eqn:Htest.
  - discriminate.
  - intros [= <-]. by apply join_loop_test_false in Htest.
  - unfold bind at 1.
    destruct (join_loop_body (alive_after_join t) s) as [[[] | e |] s1];
      try discriminate.
    unfold bind at 1.
    destruct (interfere_returns t s1) as [s2 ->]. apply IH.
  - intros [= <-]. by apply join_loop_test_false in Htest.
Qed.

Lemma internal_worker_join_done sched s :
  stop_server_event s = true ->
  worker_shutdown_queue s = [] ->
  internal_worker_join sched s
  = (Ret tt, set_trace (Log Info :: trace s) s).
Proof.
  intros Hstop Hq.
  assert (join_loop_test s = false) as Htest
      by (by apply join_loop_test_false).
  destruct sched; cbn [internal_worker_join]; unfold bind at 1;
    unfold gets; rewrite Htest; reflexivity.
Qed.

Lemma join_loop_body_dequeues still_alive t rest s :
  worker_shutdown_queue s = Some t :: rest ->
  In (Join t (Seconds 10)) (trace (snd (join_loop_body still_alive s)))
  /\ worker_shutdown_queue (snd (join_loop_body still_alive s))
     = match threads (snd (join_loop_body still_alive s)) !! t with
       | Some Alive => (rest ++ [Some t])%list
       | _ => rest
       end.
Proof.
  intros Hq.
  unfold join_loop_body, bind, gets, modify, log, emit, try_except,
    thread_join, is_alive, queue_put, task_done, raise, ret.
  cbn. rewrite Hq. cbn.
  destruct (threads s !! t) as [[| |] |] eqn:Ht; cbn; rewrite ?Ht; cbn.
  - destruct (unfinished_tasks s); cbn; rewrite Ht; auto.
  - destruct still_alive; cbn; rewrite ?Ht, ?lookup_insert_eq; cbn.
    + rewrite Ht. auto.
    + destruct (unfinished_tasks s); cbn; rewrite lookup_insert_eq; auto.
  - destruct (unfinished_tasks s); cbn; rewrite Ht; auto.
  - destruct (unfinished_tasks s); cbn; rewrite Ht; auto.
Qed.

Lemma join_loop_body_none still_alive rest s s1 :
  worker_shutdown_queue s = None :: rest ->
  join_loop_body still_alive s = (Ret tt, s1) ->
  worker_shutdown_queue s1 = rest.
Proof.
  intros Hq.
  unfold join_loop_body, bind, gets, modify, task_done, ret.
  cbn. rewrite Hq. cbn.
  destruct (unfinished_tasks s); cbn; [discriminate |].
  by intros [= <-].
Qed.

Lemma join_loop_body_joins still_alive t rest s :
  worker_shutdown_queue s = Some t :: rest ->
  exists ev,
    trace (snd (join_loop_body still_alive s)) = (ev ++ trace s)%list
    /\ In (Join t (Seconds 10)) ev.
Proof.
  intros Hq.
  unfold join_loop_body, bind, gets, modify, log, emit, try_except,
    thread_join, is_alive, queue_put, task_done, raise, ret.
  cbn. rewrite Hq. cbn.
  destruct (threads s !! t) as [[| |] |] eqn:Ht; cbn; rewrite ?Ht; cbn.
  - destruct (unfinished_tasks s); cbn;
      by exists [Log Debug; Log Warning; Join t (Seconds 10); Log Info];
        split; [| right; right; left].
  - destruct still_alive; cbn; rewrite ?Ht, ?lookup_insert_eq; cbn.
    + by exists [Log Debug; Join t (Seconds 10); Log Info];
        split; [| right; left].
    + destruct (unfinished_tasks s); cbn;
        by exists [Log Debug; Join t (Seconds 10); Log Info];
          split; [| right; left].
  - destruct (unfinished_tasks s); cbn;
      by exists [Log Debug; Join t (Seconds 10); Log Info];
        split; [| right; left].
  - destruct (unfinished_tasks s); cbn;
      by exists [Log Debug; Log Warning; Join t (Seconds 10); Log Info];
        split; [| right; right; left].
Qed.

(** Time only adds to the trace, and within the join thread a thread that
    is not running stays so. *)
Lemma join_loop_body_later still_alive s :
  trace s `suffix_of` trace (snd (join_loop_body still_alive s))
  /\ forall t, threads s !! t <> Some Alive ->
               threads (snd (join_loop_body still_alive s)) !! t
               <> Some Alive.
Proof.
  unfold join_loop_body, bind, gets, modify, log, emit, try_except,
    thread_join, is_alive, queue_put, task_done, raise, ret.
  cbn.
  destruct (worker_shutdown_queue s) as [| [t0 |] rest]; cbn.
  - split; [repeat apply suffix_cons_r; reflexivity | auto].
  - destruct (threads s !! t0) as [[| |] |] eqn:Ht; cbn; rewrite ?Ht; cbn.
    + destruct (unfinished_tasks s); cbn;
        (split; [repeat apply suffix_cons_r; reflexivity | auto]).
    + destruct still_alive; cbn; rewrite ?Ht, ?lookup_insert_eq; cbn.
      * split; [repeat apply suffix_cons_r; reflexivity | auto].
      * destruct (unfinished_tasks s); cbn;
          (split; [repeat apply suffix_cons_r; reflexivity |]);
          intros t Hna; rewrite lookup_insert;
          case_decide; subst; congruence.
    + destruct (unfinished_tasks s); cbn;
        (split; [repeat apply suffix_cons_r; reflexivity | auto]).
    + destruct (unfinished_tasks s); cbn;
        (split; [repeat apply suffix_cons_r; reflexivity | auto]).
  - destruct (unfinished_tasks s); cbn; split; auto.
Qed.

Lemma interfere_later t s :
  trace (snd (interfere t s)) = trace s
  /\ threads (snd (interfere t s)) = threads s
  /\ worker_shutdown_queue (snd (interfere t s))
     = (worker_shutdown_queue s ++ puts t)%list.
Proof.
  unfold interfere, bind, modify, ret. cbn.
  destruct (sets_stop t); cbn; auto.
Qed.

Lemma internal_worker_join_later sched : forall s r s',
  internal_worker_join sched s = (r, s') ->
  trace s `suffix_of` trace s'
  /\ forall t, threads s !! t <> Some Alive -> threads s' !! t <> Some Alive.
Proof.
  induction sched as [| tk sched IH]; intros s r s';
    cbn [internal_worker_join]; unfold bind at 1; unfold gets;
    destruct (join_loop_test s) eqn:Htest.
  - intros [= <- <-]. split; [reflexivity | auto].
  - unfold log, emit, modify. intros [= <- <-]. cbn.
    split; [repeat apply suffix_cons_r; reflexivity | auto].
  - unfold bind at 1.
    destruct (join_loop_body_later (alive_after_join tk) s) as [Hsuf Hth].
    destruct (join_loop_body (alive_after_join tk) s) as [[[] | e |] s1];
      cbn [snd] in *; try (intros [= <- <-]; by split).
    unfold bind at 1.
    destruct (interfere_later tk s1) as (Htr & Hthr & _).
    destruct (interfere_returns tk s1) as [s2 Hs2].
    rewrite Hs2 in *. cbn [snd] in *.
    intros Hrun. destruct (IH s2 r s' Hrun) as [Hsuf2 Hth2].
    split.
    + etrans; [exact Hsuf |]. rewrite <- Htr. exact Hsuf2.
    + intros t Hna. apply Hth2. rewrite Hthr. by apply Hth.
  - unfold log, emit, modify. intros [= <- <-]. cbn.
    split; [repeat apply suffix_cons_r; reflexivity | auto].
Qed.

Lemma internal_worker_join_turn tk sched s :
  join_loop_test s = true ->
  internal_worker_join (tk :: sched) s
  = (join_loop_body (alive_after_join tk) ;;;
     interfere tk ;;;
     internal_worker_join sched) s.
Proof.
  intros Htest. cbn [internal_worker_join].
  unfold bind at 1. unfold gets. by rewrite Htest.
Qed.

Lemma internal_worker_join_joins sched : forall s s' t,
  internal_worker_join sched s = (Ret tt, s') ->
  Some t ∈ worker_shutdown_queue s ->
  (exists ev, trace s' = (ev ++ trace s)%list
              /\ In (Join t (Seconds 10)) ev)
  /\ threads s' !! t <> Some Alive.
Proof.
  induction sched as [| tk sched IH]; intros s s' t Hrun Hin.
  - cbn [internal_worker_join] in Hrun. unfold bind, gets in Hrun.
    destruct (join_loop_test s) eqn:Htest; [discriminate |].
    apply join_loop_test_false in Htest as [_ Hq].
    rewrite Hq in Hin. by apply elem_of_nil in Hin.
  - destruct (join_loop_test s) eqn:Htest.
    2:{ apply join_loop_test_false in Htest as [_ Hq].
        rewrite Hq in Hin. by apply elem_of_nil in Hin. }
    rewrite (internal_worker_join_turn _ _ _ Htest) in Hrun.
    unfold bind at 1 in Hrun.
    pose proof (join_loop_body_later (alive_after_join tk) s) as [Hsuf Hth].
    destruct (join_loop_body (alive_after_join tk) s)
      as [[[] | e |] s1] eqn:Hbody; try discriminate.
    cbn [snd] in Hsuf, Hth.
    unfold bind at 1 in Hrun.
    destruct (interfere_later tk s1) as (Htr & Hthr & Hq2).
    destruct (interfere_returns tk s1) as [s2 Hs2].
    rewrite Hs2 in *. cbn [snd] in *.
    pose proof (internal_worker_join_later sched s2 _ _ Hrun)
      as [Hsuf2 Hth2].
    assert (Some t ∈ worker_shutdown_queue s2 ->
            (exists ev, trace s' = (ev ++ trace s)%list
                        /\ In (Join t (Seconds 10)) ev)
            /\ threads s' !! t <> Some Alive) as Hlater.
    { intros Hin2. destruct (IH s2 s' t Hrun Hin2) as [(ev & Hev & Hj) Hna].
      split; [| exact Hna].
      destruct Hsuf as [ev1 Hev1].
      exists (ev ++ ev1)%list. split.
      - rewrite Hev, Htr, Hev1. by rewrite app_assoc.
      - apply in_or_app. by left. }
    destruct (worker_shutdown_queue s) as [| item rest] eqn:Hq;
      [by apply elem_of_nil in Hin |].
    apply elem_of_cons in Hin as [<- | Hrest].
    + pose proof (join_loop_body_dequeues (alive_after_join tk) t rest s Hq)
        as [_ Hq1].
      destruct (join_loop_body_joins (alive_after_join tk) t rest s Hq)
        as (ev1 & Hev1 & Hj1).
      rewrite Hbody in Hq1, Hev1. cbn [snd] in Hq1, Hev1.
      assert (threads s1 !! t <> Some Alive ->
              (exists ev, trace s' = (ev ++ trace s)%list
                          /\ In (Join t (Seconds 10)) ev)
              /\ threads s' !! t <> Some Alive) as Hdone.
      { intros Hna. split.
        - destruct Hsuf2 as [ev2 Hev2]. exists (ev2 ++ ev1)%list. split.
          + rewrite Hev2, Htr, Hev1. by rewrite app_assoc.
          + apply in_or_app. by right.
        - apply Hth2. by rewrite Hthr. }
      destruct (threads s1 !! t) as [[| |] |] eqn:Ht1;
        try (apply Hdone; discriminate).
      apply Hlater. rewrite Hq2, Hq1.
      apply elem_of_app. left. apply elem_of_app. right.
      by apply list_elem_of_singleton.
    + apply Hlater. rewrite Hq2. apply elem_of_app. left.
      destruct item as [t0 |].
      * pose proof (join_loop_body_dequeues (alive_after_join tk) t0 rest s Hq)
          as [_ Hq1].
        rewrite Hbody in Hq1. cbn [snd] in Hq1. rewrite Hq1.
        destruct (threads s1 !! t0) as [[| |] |]; try assumption.
        apply elem_of_app. by left.
      * by rewrite (join_loop_body_none _ _ _ _ Hq Hbody).
Qed.

End JoinThread.

(** C8. The loop of the join thread goes on unless the stop event is set
    and the queue is empty, so it is left only in a state where both hold,
    and in such a state it is left.  As long as it goes on, every turn is
    one pass through the body, which takes the thread at the head of the
    queue, joins it with a bound of 10 seconds and puts it back at the end
    of the queue exactly when it is still alive afterwards.  So when the
    loop is left, every thread that was in the queue has been joined with
    that bound during the run, and none of them is alive. *)
Theorem worker_join_loop :
  (forall s,
      join_loop_test s = false
      <-> stop_server_event s = true /\ worker_shutdown_queue s = [])
  /\ (forall sched s s',
         internal_worker_join sched s = (Ret tt, s') ->
         stop_server_event s' = true /\ worker_shutdown_queue s' = [])
  /\ (forall sched s,
         stop_server_event s = true ->
         worker_shutdown_queue s = [] ->
         internal_worker_join sched s
         = (Ret tt, set_trace (Log Info :: trace s) s))
  /\ (forall still_alive t rest s,
         worker_shutdown_queue s = Some t :: rest ->
         In (Join t (Seconds 10))
            (trace (snd (join_loop_body still_alive s)))
         /\ worker_shutdown_queue (snd (join_loop_body still_alive s))
            = match threads (snd (join_loop_body still_alive s)) !! t with
              | Some Alive => (rest ++ [Some t])%list
              | _ => rest
              end)
  /\ (forall tk sched s,
         join_loop_test s = true ->
         internal_worker_join (tk :: sched) s
         = (join_loop_body (alive_after_join tk) ;;;
            interfere tk ;;;
            internal_worker_join sched) s)
  /\ (forall sched s s' t,
         internal_worker_join sched s = (Ret tt, s') ->
         Some t ∈ worker_shutdown_queue s ->
         (exists ev, trace s' = (ev ++ trace s)%list
                     /\ In (Join t (Seconds 10)) ev)
         /\ threads s' !! t <> Some Alive).
Proof.
  split; [exact join_loop_test_false |].
  split; [exact internal_worker_join_exit |].
  split; [exact internal_worker_join_done |].
  split; [exact join_loop_body_dequeues |].
  split; [exact internal_worker_join_turn |].
  exact internal_worker_join_joins.
Qed.

Lemma worker_join_loop_witness :
  internal_worker_join Sample.two_turns Sample.draining
  = (Ret tt, snd (internal_worker_join Sample.two_turns Sample.draining))
  /\ Some 0%nat ∈ worker_shutdown_queue Sample.draining
  /\ (stop_server_event
        (snd (internal_worker_join Sample.two_turns Sample.draining)) = true
      /\ worker_shutdown_queue
           (snd (internal_worker_join Sample.two_turns Sample.draining)) = [])
  /\ (exists ev,
         trace (snd (internal_worker_join Sample.two_turns Sample.draining))
         = (ev ++ trace Sample.draining)%list
         /\ In (Join 0 (Seconds 10)) ev)
  /\ threads (snd (internal_worker_join Sample.two_turns Sample.draining))
     !! 0%nat <> Some Alive.
Proof.
  assert (internal_worker_join Sample.two_turns Sample.draining
          = (Ret tt,
             snd (internal_worker_join Sample.two_turns Sample.draining)))
    as Hrun by (vm_compute; reflexivity).
  assert (Some 0%nat ∈ worker_shutdown_queue Sample.draining) as Hin
      by (apply elem_of_cons; left; reflexivity).
  split; [exact Hrun |]. split; [exact Hin |].
  split.
  - exact (proj1 (proj2 worker_join_loop) _ _ _ Hrun).
  - exact (proj2 (proj2 (proj2 (proj2 (proj2 worker_join_loop))))
             _ _ _ _ Hrun Hin).
Defined.

(** ** State properties kept by a method *)

Section Keeps.

Context (P : server -> Prop).

Lemma keeps_ret {A} (a : A) : keeps P (ret a).
Proof. intros s Hs. exact Hs. Qed.

Lemma keeps_raise {A} e : keeps P (@raise A e).
Proof. intros s Hs. exact Hs. Qed.

Lemma keeps_blocked {A} : keeps P (@blocked A).
Proof. intros s Hs. exact Hs. Qed.

Lemma keeps_lift {A} (r : res A) : keeps P (lift r).
Proof. intros s Hs. exact Hs. Qed.

Lemma keeps_gets {A} (f : server -> A) : keeps P (gets f).
Proof. intros s Hs. exact Hs. Qed.

Lemma keeps_modify g : (forall s, P s -> P (g s)) -> keeps P (modify g).
Proof. intros Hg s Hs. apply Hg, Hs. Qed.

Lemma keeps_bind {A B} (m : M A) (k : A -> M B) :
  keeps P m -> (forall a, keeps P (k a)) -> keeps P (bind m k).
Proof.
  intros Hm Hk s Hs. unfold bind. specialize (Hm s Hs).
  destruct (m s) as [[a | e |] s1]; cbn in *; [by apply Hk | done | done].
Qed.

Lemma keeps_try_except {A} (m : M A) (h : exn -> M A) :
  keeps P m -> (forall e, keeps P (h e)) -> keeps P (try_except m h).
Proof.
  intros Hm Hh s Hs. unfold try_except. specialize (Hm s Hs).
  destruct (m s) as [[a | e |] s1]; cbn in *; [done | by apply Hh | done].
Qed.

Lemma keeps_try_finally {A} (m : M A) (f : M unit) :
  keeps P m -> keeps P f -> keeps P (try_finally m f).
Proof.
  intros Hm Hf s Hs. unfold try_finally. specialize (Hm s Hs).
  destruct (m s) as [[a | e |] s1]; cbn in *; [| | done].
  - apply keeps_bind; [exact Hf | intros; apply keeps_ret | exact Hm].
  - apply keeps_bind; [exact Hf | intros; apply keeps_raise | exact Hm].
Qed.

Lemma keeps_for_each {A} (l : list A) (f : A -> M unit) :
  (forall x, keeps P (f x)) -> keeps P (for_each l f).
Proof.
  intros Hf. induction l as [| x l IH]; cbn [for_each].
  - apply keeps_ret.
  - apply keeps_bind; [apply Hf | intros; exact IH].
Qed.

End Keeps.

Create HintDb keeps.
#[local] Hint Resolve keeps_ret keeps_raise keeps_blocked keeps_lift
  keeps_gets : keeps.

(** Operations that are one state function: unfold and look at the
    resulting state. *)
Ltac keeps_prim :=
  let s := fresh "s" in
  let Hs := fresh "Hs" in
  intros s Hs;
  unfold modify, emit, log, close, get_entry, is_alive, thread_start,
    is_stopping, stop_worker, queue_put, connecting_remove, new_entry,
    new_worker, new_thread, update_entry, task_done, thread_join, bind,
    raise, gets, ret in *;
  cbn; repeat (case_match; cbn); first [done | set_solver].

Ltac keeps_step :=
  first
    [ solve [eauto with keeps]
    | match goal with
      | |- keeps _ (if ?b then _ else _) => destruct b
      | |- keeps _ (match ?x with _ => _ end) => destruct x
      end
    | apply keeps_bind; [| intros ?]
    | apply keeps_try_except; [| intros ?]
    | apply keeps_try_finally
    | solve [keeps_prim] ].

Ltac keeps_auto := repeat keeps_step.

Section Footprints.

(** Authentication only writes to the log. *)
Lemma authenticate_connection_state cfg w c s :
  exists t, snd (authenticate_connection cfg w c s) = set_trace t s.
Proof.
  unfold authenticate_connection, bind, log, emit, modify, ret, raise, lift.
  repeat (case_match; simplify_eq; cbn);
    eexists; unfold set_trace; cbn; reflexivity.
Qed.

Lemma authenticate_connection_origin cfg w c s o ok s1 :
  authenticate_connection cfg w c s = (Ret (o, ok), s1) ->
  ok = true -> exists o', o = Some o'.
Proof.
  unfold authenticate_connection, bind, log, emit, modify, ret, raise, lift.
  repeat (case_match; simplify_eq; cbn); intros; simplify_eq; eauto.
Qed.

Context (Q : gset string -> Prop).
Let P := fun s => Q (users_connecting s).

Lemma connecting_on_message e m : keeps P (on_message e m).
Proof. unfold on_message. keeps_auto. Qed.

Lemma connecting_receive_loop e c script : keeps P (receive_loop e c script).
Proof.
  pose proof connecting_on_message as Hmsg.
  induction script as [| step script IH]; cbn [receive_loop]; keeps_auto.
Qed.

Lemma connecting_client_message_receiver w o e :
  keeps P (client_message_receiver w o e).
Proof.
  pose proof connecting_receive_loop as Hloop.
  unfold client_message_receiver. keeps_auto.
Qed.

Lemma connecting_authenticate cfg w c :
  keeps P (authenticate_connection cfg w c).
Proof.
  intros s Hs. destruct (authenticate_connection_state cfg w c s) as [t ->].
  exact Hs.
Qed.

Lemma connecting_add_worker cfg w e o u :
  keeps P (add_worker_and_thread_to_entry cfg w e o u).
Proof. unfold add_worker_and_thread_to_entry. keeps_auto. Qed.

Lemma connecting_admission cfg w c o : keeps P (admission cfg w c o).
Proof.
  pose proof connecting_add_worker as Hadd.
  unfold admission. keeps_auto.
Qed.

End Footprints.

(** ** An origin that stays in the connecting set *)

Section Connecting.

Context (cfg : settings) (o : string).
Let P := fun s => o ∈ users_connecting s.

(** No run of the handler takes another handler's origin out of the
    connecting set. *)
Lemma connection_handler_keeps_connecting w c :
  keeps P (connection_handler cfg w c).
Proof.
  pose proof (connecting_authenticate (fun X => o ∈ X)) as Hauth.
  pose proof (connecting_admission (fun X => o ∈ X)) as Hadm.
  pose proof (connecting_client_message_receiver (fun X => o ∈ X)) as Hrecv.
  cbv beta zeta in Hauth, Hadm, Hrecv.
  unfold connection_handler, logger_catch.
  apply keeps_try_except; [| intros; keeps_prim].
  apply keeps_bind; [keeps_auto | intros stop].
  destruct stop; [keeps_auto |].
  apply keeps_bind; [apply Hauth | intros auth].
  destruct (negb (snd auth)).
  { unfold close_websocket_client_connection. keeps_auto. }
  destruct (fst auth) as [o' |]; [| keeps_auto].
  apply keeps_bind; [keeps_auto | intros _].
  apply keeps_bind; [keeps_auto | intros _].
  intros s Hs. unfold bind at 1. unfold gets at 1.
  case_bool_decide as Hin.
  { exact Hs. }
  assert (o' <> o) as Hne by (intros ->; contradiction).
  clear Hin. revert s Hs.
  change (keeps P
    (modify (fun s => set_users_connecting ({[o']} ∪ users_connecting s) s) ;;;
     adm <- admission cfg w c o' ;;;
     (let continue_register := fst adm in
      let entry := snd adm in
      if negb continue_register then
        emit (AsyncSleep (UniformSeconds 3 15)) ;;;
        log Debug ;;;
        connecting_remove o' ;;;
        log Info
      else
        r <- get_entry entry ;;;
        (let worker_instance := worker_instance r in
         let worker_thread := worker_thread r in
         try_finally
           (try_except
              (alive <- is_alive worker_thread ;;;
               (if negb alive
                then log Debug ;;; thread_start worker_thread
                else ret tt) ;;;
               connecting_remove o' ;;;
               log Debug ;;;
               client_message_receiver w o' (Some entry))
              (fun _ => log Error))
           (cur <- get_entry entry ;;;
            if Nat.eqb (websocket_client_connection cur) (conn c) then
              log Debug ;;;
              stop_worker worker_instance ;;;
              queue_put worker_thread
            else log Warning) ;;;
         log Info)))).
  apply keeps_bind; [keeps_prim | intros _].
  apply keeps_bind; [apply Hadm | intros adm].
  cbv zeta. keeps_auto.
Qed.

Lemma run_arrivals_keeps_connecting batch : forall s,
  P s -> P (run_arrivals cfg batch s).
Proof.
  induction batch as [| a batch IH]; intros s Hs; cbn; [exact Hs |].
  apply IH. unfold run_handler.
  by apply connection_handler_keeps_connecting.
Qed.

Lemma wait_for_connecting_blocked sched : forall s,
  P s -> fst (wait_for_connecting cfg sched s) = Blocked.
Proof.
  induction sched as [| batch sched IH]; intros s Hs;
    cbn [wait_for_connecting];
    assert (Nat.ltb 0 (size (users_connecting s)) = true) as ->
      by (apply Nat.ltb_lt;
          assert (size (users_connecting s) <> 0%nat)
            by (apply size_non_empty_iff; set_solver); lia).
  - reflexivity.
  - apply IH. apply run_arrivals_keeps_connecting. exact Hs.
Qed.

Lemma stop_server_blocked sched ticks s :
  P s -> fst (stop_server cfg sched ticks s) = Blocked.
Proof.
  intros Hs. unfold stop_server.
  unfold bind at 1. unfold log, emit, modify at 1.
  unfold bind at 1. unfold modify at 1.
  unfold bind at 1.
  pose proof (wait_for_connecting_blocked sched
                (set_stop_server_event true
                   (set_trace (Log Info :: trace s) s)) Hs) as Hwait.
  destruct (wait_for_connecting cfg sched _) as [[[] | e |] s1];
    cbn in Hwait; try discriminate.
  reflexivity.
Qed.

End Connecting.

(** C10. Config mode is off and a client passes authentication as an origin
    for which the data manager's search returns no matching device, or
    raises.  The handler puts the origin into the connecting set, the
    admission section raises, and the handler ends (the exception is
    swallowed by the logger's decorator) without taking the origin out
    again.  From then on every handshake authenticated as that origin is
    dropped at the connecting test, the origin stays in the set whatever
    connections are handled afterwards, and [stop_server] never gets past
    its wait for the set to empty. *)
Theorem missing_device_leaves_origin_connecting
        (cfg : settings) (w : oracle) (c : connection) (o : string)
        (s s1 : server) :
  enable_configmode cfg = false ->
  stop_server_event s = false ->
  authenticate_connection cfg w c s = (Ret (Some o, true), s1) ->
  o ∉ users_connecting s ->
  match search_device w o with
  | Ret found => find (fun d => String.eqb (dev_origin d) o) found = None
  | Raise _ => True
  | Blocked => False
  end ->
  fst (connection_handler cfg w c s) = Ret tt
  /\ o ∈ users_connecting (snd (connection_handler cfg w c s))
  /\ (forall w' c' s2 s3,
         o ∈ users_connecting s2 ->
         stop_server_event s2 = false ->
         authenticate_connection cfg w' c' s2 = (Ret (Some o, true), s3) ->
         connection_handler cfg w' c' s2
         = (Ret tt, set_trace (Log Info :: Log Info :: trace s3) s3))
  /\ (forall batch,
         o ∈ users_connecting
               (run_arrivals cfg batch (snd (connection_handler cfg w c s))))
  /\ (forall sched ticks,
         fst (stop_server cfg sched ticks
                          (snd (connection_handler cfg w c s))) = Blocked).
Proof.
  intros Hcfg Hstop Hauth Hnew Hsearch.
  assert (exists s', connection_handler cfg w c s = (Ret tt, s')
                     /\ o ∈ users_connecting s')
    as (s' & Hrun & Hstuck).
  { destruct (authenticate_connection_state cfg w c s) as [t Ht].
    rewrite Hauth in Ht. cbn in Ht. subst s1.
    destruct (search_device w o) as [found | e |] eqn:Hfound;
      [| | contradiction].
    all: eexists; split;
      [ unfold connection_handler, logger_catch, try_except;
        unfold bind at 1; unfold gets at 1; rewrite Hstop;
        unfold bind at 1; rewrite Hauth; cbn [snd fst negb];
        rewrite Hcfg; unfold admission;
        unfold bind, log, emit, modify, gets, ret, lift, raise; cbn;
        rewrite (bool_decide_eq_false_2 _ Hnew); cbn; rewrite Hcfg; cbn;
        rewrite Hfound, ?Hsearch; cbn; reflexivity
      | cbn; set_solver ]. }
  rewrite Hrun. cbn [fst snd].
  split; [reflexivity |]. split; [exact Hstuck |]. split; [| split].
  - intros w' c' s2 s3 Hin Hstop2 Hauth2.
    destruct (authenticate_connection_state cfg w' c' s2) as [t Ht].
    rewrite Hauth2 in Ht. cbn in Ht. subst s3.
    unfold connection_handler, logger_catch, try_except.
    unfold bind at 1. unfold gets at 1. rewrite Hstop2.
    unfold bind at 1. rewrite Hauth2. cbn [snd fst negb].
    rewrite Hcfg.
    unfold bind, log, emit, modify, gets, ret. cbn.
    rewrite (bool_decide_eq_true_2 _ Hin). reflexivity.
  - intros batch. by apply (run_arrivals_keeps_connecting cfg o).
  - intros sched ticks. by apply (stop_server_blocked cfg o).
Qed.

Lemma missing_device_leaves_origin_connecting_witness :
  fst (connection_handler Sample.configured Sample.world_without_devices
                          (Sample.handshake [""]) Sample.serving) = Ret tt
  /\ "dev1" ∈ users_connecting
                (snd (connection_handler Sample.configured
                                         Sample.world_without_devices
                                         (Sample.handshake [""])
                                         Sample.serving)).
Proof.
  pose proof (missing_device_leaves_origin_connecting
                Sample.configured Sample.world_without_devices
                (Sample.handshake [""]) "dev1" Sample.serving
                (set_trace [Log Info] Sample.serving)) as H.
  destruct H as (H1 & H2 & _).
  - reflexivity.
  - reflexivity.
  - reflexivity.
  - apply (bool_decide_unpack _). vm_compute. reflexivity.
  - reflexivity.
  - split; [exact H1 | exact H2].
Defined.

(** ** Rejected connections *)

Section Rejection.

Lemma admission_rejected cfg w c o s e s' :
  admission cfg w c o s = (Ret (false, e), s') ->
  current_users s' = current_users s /\ entries s ⊆ entries s'.
Proof.
  unfold admission, add_worker_and_thread_to_entry.
  unfold get_entry, is_alive, is_stopping, new_entry, new_worker,
    new_thread, update_entry, log, emit.
  unfold bind, modify, gets, lift, ret, raise.
  cbn. intros H.
  repeat (case_match; simplify_eq; cbn in *);
    (split; [reflexivity |]);
    first [ reflexivity
          | apply insert_subseteq, not_elem_of_dom, is_fresh ].
Qed.

Lemma add_then_remove (o : string) (U : gset string) :
  o ∉ U -> ({[o]} ∪ U) ∖ {[o]} = U /\ o ∉ ({[o]} ∪ U) ∖ {[o]}.
Proof.
  intros Hnew. split.
  - apply set_eq. intros x.
    rewrite elem_of_difference, elem_of_union, !elem_of_singleton. split.
    + intros [[-> | Hx] Hne]; [done | exact Hx].
    + intros Hx. split; [by right | intros ->; done].
  - rewrite elem_of_difference, elem_of_singleton.
    intros [_ Hne]. by apply Hne.
Qed.

Lemma admission_connecting cfg w c o s :
  users_connecting (snd (admission cfg w c o s)) = users_connecting s.
Proof.
  by apply (connecting_admission (fun X => X = users_connecting s)).
Qed.

End Rejection.

(** C5. The handler has passed authentication as [o], found [o] outside the
    connecting set and put it in, and the admission section has answered
    "do not continue" (its table rejected the connection, or the worker
    factory built nothing).  Then the handler sleeps for
    [rand.uniform(3, 15)] seconds, takes [o] out of the connecting set and
    returns; the registry maps the same origins to the same entries as
    before, and every entry that existed is unchanged. *)
Theorem rejected_connection_backs_off
        (cfg : settings) (w : oracle) (c : connection) (o : string)
        (e : nat) (s s1 s2 : server) :
  stop_server_event s = false ->
  authenticate_connection cfg w c s = (Ret (Some o, true), s1) ->
  o ∉ users_connecting s ->
  admission cfg w c o (at_admission cfg o s1) = (Ret (false, e), s2) ->
  exists s3,
    connection_handler cfg w c s = (Ret tt, s3)
    /\ trace s3
       = Log Info :: Log Debug :: AsyncSleep (UniformSeconds 3 15) :: trace s2
    /\ users_connecting s3 = users_connecting s
    /\ (o ∉ users_connecting s3)
    /\ current_users s3 = current_users s
    /\ entries s ⊆ entries s3.
Proof.
  intros Hstop Hauth Hnew Hadm.
  destruct (authenticate_connection_state cfg w c s) as [t Ht].
  rewrite Hauth in Ht. cbn in Ht. subst s1.
  destruct (admission_rejected _ _ _ _ _ _ _ Hadm) as [Husers Hentries].
  pose proof (admission_connecting cfg w c o
                (at_admission cfg o (set_trace t s))) as Hconn.
  rewrite Hadm in Hconn. cbn [snd] in Hconn.
  assert (users_connecting (at_admission cfg o (set_trace t s))
          = {[o]} ∪ users_connecting s) as Hat
      by (unfold at_admission, bind, log, emit, modify, ret;
          destruct (enable_configmode cfg); reflexivity).
  assert (current_users (at_admission cfg o (set_trace t s))
          = current_users s) as Hat_users
      by (unfold at_admission, bind, log, emit, modify, ret;
          destruct (enable_configmode cfg); reflexivity).
  assert (entries (at_admission cfg o (set_trace t s)) = entries s)
    as Hat_entries
      by (unfold at_admission, bind, log, emit, modify, ret;
          destruct (enable_configmode cfg); reflexivity).
  rewrite Hat in Hconn. rewrite Hat_users in Husers.
  rewrite Hat_entries in Hentries.
  assert (o ∈ users_connecting s2) as Hin
      by (rewrite Hconn; apply elem_of_union_l, elem_of_singleton_2;
          reflexivity).
  exists (set_trace (Log Info :: Log Debug
                     :: AsyncSleep (UniformSeconds 3 15) :: trace s2)
                    (set_users_connecting (users_connecting s2 ∖ {[o]}) s2)).
  split; [| cbn; repeat split; try done; rewrite Hconn;
            apply (add_then_remove o _ Hnew)].
  unfold connection_handler, logger_catch, try_except.
  unfold bind at 1. unfold gets at 1. rewrite Hstop.
  unfold bind at 1. rewrite Hauth. cbn [snd fst negb].
  assert (forall k : M unit,
             (log Info ;;;
              (if enable_configmode cfg then log Warning else ret tt) ;;;
              connecting <- gets users_connecting ;;;
              if bool_decide (o ∈ connecting) then log Info
              else
                modify (fun s => set_users_connecting
                                   ({[o]} ∪ users_connecting s) s) ;;; k)
               (set_trace t s)
             = k (at_admission cfg o (set_trace t s))) as Henter.
  { intros k. unfold at_admission, bind, log, emit, modify, gets, ret.
    destruct (enable_configmode cfg); cbn;
      rewrite (bool_decide_eq_false_2 _ Hnew); reflexivity. }
  rewrite Henter. unfold bind at 1. rewrite Hadm. cbn [fst snd negb].
  unfold bind, log, emit, modify, connecting_remove. cbn.
  rewrite (bool_decide_eq_true_2 _ Hin). reflexivity.
Qed.

Lemma rejected_connection_backs_off_witness :
  exists s3,
    connection_handler Sample.configured Sample.world_without_workers
                       (Sample.handshake ["Basic dXNlcjpzZWNyZXQ="])
                       Sample.serving = (Ret tt, s3)
    /\ trace s3
       = [Log Info; Log Debug; AsyncSleep (UniformSeconds 3 15);
          Log Info; Log Debug; Log Info; Log Info]
    /\ users_connecting s3 = users_connecting Sample.serving
    /\ ("dev1" ∉ users_connecting s3)
    /\ current_users s3 = current_users Sample.serving
    /\ entries Sample.serving ⊆ entries s3.
Proof.
  apply (rejected_connection_backs_off
           Sample.configured Sample.world_without_workers
           (Sample.handshake ["Basic dXNlcjpzZWNyZXQ="]) "dev1" 0%nat
           Sample.serving
           (set_trace [Log Info] Sample.serving)
           (snd (admission Sample.configured Sample.world_without_workers
                           (Sample.handshake ["Basic dXNlcjpzZWNyZXQ="])
                           "dev1"
                           (at_admission Sample.configured "dev1"
                              (set_trace [Log Info] Sample.serving))))).
  - reflexivity.
  - reflexivity.
  - apply (bool_decide_unpack _). vm_compute. reflexivity.
  - vm_compute. reflexivity.
Defined.

(** ** The registry across a restart *)

Section Registry.

Context (Q : gmap string nat -> gmap nat WebsocketConnectedClientEntry
             -> Prop).
Let P := fun s => Q (current_users s) (entries s).
Let P' := fun s => stop_server_event s = true /\ P s.

Lemma registry_close_all : keeps P' close_all_connections_and_signal_stop.
Proof.
  unfold close_all_connections_and_signal_stop.
  apply keeps_bind; [keeps_prim | intros _].
  apply keeps_bind; [keeps_prim | intros users].
  apply keeps_bind; [| intros _; keeps_prim].
  apply keeps_for_each. intros kv.
  unfold close_websocket_client_connection. keeps_auto.
Qed.

Lemma registry_join_loop_body a : keeps P' (join_loop_body a).
Proof. unfold join_loop_body. keeps_auto. Qed.

Lemma registry_join_thread_turn a s : P' s -> P' (join_thread_turn a s).
Proof.
  intros Hs. unfold join_thread_turn.
  destruct (join_loop_test s); [| exact Hs].
  pose proof (registry_join_loop_body a s Hs) as Hbody.
  destruct (join_loop_body a s) as [[[] | e |] s1]; exact Hbody.
Qed.

Lemma registry_queue_join ticks : keeps P' (queue_join ticks).
Proof.
  induction ticks as [| t ticks IH]; intros s Hs; cbn [queue_join];
    destruct (unfinished_tasks s); try exact Hs;
    destruct (internal_worker_join_thread s); try exact Hs.
  apply IH. by apply registry_join_thread_turn.
Qed.

(** Once the stop event is set, a new connection is turned away before
    anything is touched. *)
Lemma run_handler_stopped cfg a s :
  stop_server_event s = true -> run_handler cfg a s = s.
Proof.
  intros Hstop.
  unfold run_handler, connection_handler, logger_catch, try_except, bind,
    gets.
  rewrite Hstop. reflexivity.
Qed.

Lemma run_arrivals_stopped cfg batch : forall s,
  stop_server_event s = true -> run_arrivals cfg batch s = s.
Proof.
  induction batch as [| a batch IH]; intros s Hstop; cbn; [reflexivity |].
  rewrite (run_handler_stopped cfg a s Hstop). by apply IH.
Qed.

Lemma registry_wait_for_connecting cfg sched :
  keeps P' (wait_for_connecting cfg sched).
Proof.
  induction sched as [| batch sched IH]; intros s Hs;
    cbn [wait_for_connecting];
    destruct (Nat.ltb 0 (size (users_connecting s))); try exact Hs.
  apply IH. rewrite run_arrivals_stopped; [exact Hs | apply Hs].
Qed.

Lemma registry_stop_server cfg sched ticks :
  keeps P (stop_server cfg sched ticks).
Proof.
  pose proof registry_close_all as Hclose.
  pose proof registry_queue_join as Hjoin.
  pose proof registry_wait_for_connecting as Hwait.
  intros s Hs.
  assert (P' (snd (stop_server cfg sched ticks s))) as [_ H]; [| exact H].
  unfold stop_server. unfold bind at 1. unfold log, emit, modify at 1.
  unfold bind at 1. unfold modify at 1.
  assert (P' (set_stop_server_event true
                (set_trace (Log Info :: trace s) s))) as Hs'
      by (split; [reflexivity | exact Hs]).
  revert Hs'. generalize (set_stop_server_event true
                            (set_trace (Log Info :: trace s) s)).
  change (keeps P'
    (wait_for_connecting cfg sched ;;;
     running <- gets loop_running ;;;
     (if running then close_all_connections_and_signal_stop else blocked) ;;;
     log Info ;;;
     jt <- gets internal_worker_join_thread ;;;
     match jt with
     | Alive => ret tt
     | Finished => ret tt
     | NotStarted => raise RuntimeError
     end ;;;
     queue_join ticks ;;;
     modify (set_loop_running false) ;;;
     log Info)).
  keeps_auto.
Qed.

Lemma registry_start_server cfg bind_ok : keeps P (start_server cfg bind_ok).
Proof. unfold start_server. keeps_auto. Qed.

End Registry.

(** C4, as the code has it. Neither [stop_server] nor [start_server]
    removes anything from the registry: after [stop_server] followed by
    [start_server], however far the two get, every origin is mapped to the
    entry it was mapped to before and the entries are the same records. *)
Theorem restart_keeps_registry
        (cfg : settings) (sched : list (list (oracle * connection)))
        (ticks : list bool) (bind_ok : bool) (s : server) :
  current_users
    (snd ((stop_server cfg sched ticks ;;; start_server cfg bind_ok) s))
  = current_users s
  /\ entries
       (snd ((stop_server cfg sched ticks ;;; start_server cfg bind_ok) s))
     = entries s.
Proof.
  apply (keeps_bind
           (fun s' => current_users s' = current_users s
                      /\ entries s' = entries s)).
  - apply (registry_stop_server
             (fun U E => U = current_users s /\ E = entries s)).
  - intros _.
    apply (registry_start_server
             (fun U E => U = current_users s /\ E = entries s)).
  - split; reflexivity.
Qed.

(** On a server with dev1 in its registry, [stop_server] and then
    [start_server] both go through. *)
Example restart_goes_through :
  fst ((stop_server Sample.configured [] [] ;;;
        start_server Sample.configured true) Sample.with_dev1) = Ret tt.
Proof. vm_compute. reflexivity. Qed.

(** C4, as the specification words it, fails: after that restart dev1 is
    still registered. *)
Lemma restart_leaves_entries :
  ~ restart_empties_registry Sample.configured [] [] true Sample.with_dev1.
Proof.
  unfold restart_empties_registry. intros H.
  apply (f_equal (fun m => m !! "dev1")) in H.
  vm_compute in H. discriminate.
Qed.

(** * Further properties of the code *)

(** ** What the decoder accepts and in which order frames are handed over *)

Section Decoding.

Lemma on_message_parts client_entry m s :
  forall i r,
    frame_parts m = Some (i, r) ->
    on_message client_entry m s
    = (Ret tt,
       set_trace (SetMessageResponse client_entry i r
                  :: Log (match m with Text _ => Debug5 | Binary _ => Debug end)
                  :: trace s) s).
Proof.
  intros i r. destruct m as [t | b]; cbn [frame_parts].
  - unfold on_message, bind, lift, log, emit, modify.
    destruct (split1 ";" t) as [| l [| r' [| ? ?]]]; try discriminate.
    destruct (Py.int l) as [v | |] eqn:Hint; try discriminate.
    intros [= <- <-]. cbn. rewrite Hint. reflexivity.
  - intros [= <- <-].
    unfold on_message, bind, log, emit, modify. cbn.
    rewrite int_from_bytes_big_value. reflexivity.
Qed.

Lemma on_message_no_parts client_entry m s :
  frame_parts m = None ->
  exists e t, on_message client_entry m s = (Raise e, set_trace t s)
              /\ deliveries t = deliveries (trace s).
Proof.
  destruct m as [t | b]; cbn [frame_parts]; [| discriminate].
  intros Hnone.
  assert (malformed_text t = true) as Hbad.
  { unfold malformed_text.
    destruct (split1 ";" t) as [| l [| r' [| ? ?]]]; try reflexivity.
    destruct (Py.int l); [discriminate | reflexivity | reflexivity]. }
  destruct (on_message_malformed client_entry t s Hbad) as (e & _ & Hrun).
  exists e, (Log Debug5 :: trace s). split; [exact Hrun | reflexivity].
Qed.

Lemma skip_spaces_app pre s :
  all_int_spaces pre = true -> skip_spaces (pre +:+ s) = skip_spaces s.
Proof.
  induction pre as [| c pre IH];
    simpl; [reflexivity |].
  intros H. apply andb_true_iff in H as [Hc Hpre]. rewrite Hc. auto.
Qed.

Lemma skip_spaces_all s : all_int_spaces s = true -> skip_spaces s = EmptyString.
Proof.
  induction s as [| c s IH]; cbn [skip_spaces all_int_spaces];
    [reflexivity |].
  intros H. apply andb_true_iff in H as [Hc Hs]. rewrite Hc. auto.
Qed.

Lemma space_not_digit c : is_int_space c = true -> is_ascii_digit c = false.
Proof.
  intros H. destruct (is_ascii_digit c) eqn:Hd; [| reflexivity].
  rewrite (digit_not_space c Hd) in H. discriminate.
Qed.

Lemma space_codes c :
  is_int_space c = true ->
  (9 <= code c <= 13) \/ code c = 32 \/ code c = 133 \/ code c = 160.
Proof.
  unfold is_int_space. intros H.
  repeat (apply orb_true_iff in H as [H | H]).
  - apply andb_true_iff in H as [H1 H2].
    apply Z.leb_le in H1. apply Z.leb_le in H2. lia.
  - apply Z.eqb_eq in H. lia.
  - apply Z.eqb_eq in H. lia.
  - apply Z.eqb_eq in H. lia.
Qed.

Lemma space_not_underscore c :
  is_int_space c = true -> is_underscore c = false.
Proof.
  intros H. apply space_codes in H. unfold is_underscore.
  apply Z.eqb_neq. lia.
Qed.

Lemma space_not_semicolon c : is_int_space c = true -> Ascii.eqb c ";" = false.
Proof.
  intros H. apply space_codes in H.
  destruct (Ascii.eqb_spec c ";") as [-> |]; [| reflexivity].
  change (code ";") with 59 in H. lia.
Qed.

Lemma scan_digits_then_spaces digits post : forall acc n,
  all_ascii_digits digits = true ->
  all_int_spaces post = true ->
  scan_digits false acc n (digits +:+ post)
  = Some (acc * 10 ^ Z.of_nat (String.length digits) + unsigned_value digits,
          (n + String.length digits)%nat, post).
Proof.
  induction digits as [| c digits IH]; intros acc n Hd Hp.
  - simpl.
    replace (acc * 10 ^ Z.of_nat 0 + 0) with acc by lia.
    replace (n + 0)%nat with n by lia.
    destruct post as [| p post]; [reflexivity |].
    cbn [all_int_spaces] in Hp. apply andb_true_iff in Hp as [Hp _].
    simpl.
    rewrite (space_not_digit p Hp), (space_not_underscore p Hp). reflexivity.
  - cbn [all_ascii_digits] in Hd. apply andb_true_iff in Hd as [Hc Hd].
    simpl. rewrite Hc, (IH _ _ Hd Hp).
    cbn [String.length unsigned_value].
    rewrite Nat2Z.inj_succ, Z.pow_succ_r by lia.
    do 3 f_equal; lia.
Qed.

Lemma int_of_numeral pre negative digits post :
  all_int_spaces pre = true ->
  all_int_spaces post = true ->
  digits <> EmptyString ->
  all_ascii_digits digits = true ->
  Z.of_nat (String.length digits) <= int_max_str_digits ->
  Py.int (numeral pre negative digits post)
  = Ret ((if negative then -1 else 1) * unsigned_value digits).
Proof.
  intros Hpre Hpost Hne Hd Hmax. unfold numeral, Py.int.
  rewrite (skip_spaces_app pre _ Hpre).
  pose proof (scan_digits_then_spaces _ _ 0 0%nat Hd Hpost) as Hscan.
  destruct digits as [| c digits]; [congruence |].
  simpl in Hd. apply andb_true_iff in Hd as [Hc Hd].
  pose proof (digit_bounds c Hc) as Hb.
  assert (starts_with_underscore (String c digits +:+ post) = false) as Hus
      by (simpl; apply (digit_not_underscore c Hc)).
  assert (skip_spaces (String c digits +:+ post) = String c digits +:+ post)
    as Hskip by (simpl; by rewrite (digit_not_space c Hc)).
  assert (parse_sign (String c digits +:+ post)
          = (1, String c digits +:+ post)) as Hsign.
  { simpl. destruct (Z.eqb_spec (code c) 43); [lia |].
    destruct (Z.eqb_spec (code c) 45); [lia |]. reflexivity. }
  remember (String c digits +:+ post) as X eqn:HX.
  destruct negative.
  - change ("-" +:+ X) with (String "-" X).
    change (skip_spaces (String "-" X)) with (String "-" X).
    change (parse_sign (String "-" X)) with (-1, X).
    cbv iota. rewrite Hus, Hscan.
    destruct (String.length (String c digits)) eqn:Hlen; [discriminate |].
    cbn [Nat.add]. rewrite (skip_spaces_all _ Hpost).
    destruct (Z.ltb_spec int_max_str_digits (Z.of_nat (S n))); [lia |].
    f_equal; lia.
  - change ("" +:+ X) with X. rewrite Hskip, Hsign.
    cbv iota. rewrite Hus, Hscan.
    destruct (String.length (String c digits)) eqn:Hlen; [discriminate |].
    cbn [Nat.add]. rewrite (skip_spaces_all _ Hpost).
    destruct (Z.ltb_spec int_max_str_digits (Z.of_nat (S n))); [lia |].
    f_equal; lia.
Qed.

Lemma has_char_app sep a b :
  has_char sep (a +:+ b) = has_char sep a || has_char sep b.
Proof.
  induction a as [| c a IH]; simpl; [reflexivity |].
  rewrite IH. by rewrite orb_assoc.
Qed.

Lemma spaces_without_semicolon s :
  all_int_spaces s = true -> has_char ";" s = false.
Proof.
  induction s as [| c s IH]; cbn [has_char all_int_spaces]; [reflexivity |].
  intros H. apply andb_true_iff in H as [Hc Hs].
  rewrite (space_not_semicolon c Hc). cbn [orb]. auto.
Qed.

Lemma numeral_without_semicolon pre negative digits post :
  all_int_spaces pre = true ->
  all_int_spaces post = true ->
  all_ascii_digits digits = true ->
  has_char ";" (numeral pre negative digits post) = false.
Proof.
  intros Hpre Hpost Hd. unfold numeral. rewrite !has_char_app.
  rewrite (spaces_without_semicolon _ Hpre),
    (spaces_without_semicolon _ Hpost), (digits_without_semicolon _ Hd).
  destruct negative; reflexivity.
Qed.

End Decoding.

(** X1. The message id of a text frame is read the way [int] reads: blanks
    around the number are ignored and a minus sign is taken, so a frame
    can carry a negative id, as long as the digits are no more than [int]
    accepts (4300 by default; the sign and the blanks do not count).  The
    response is still everything after the first semicolon. *)
Theorem on_message_signed_id
        (client_entry : nat) (pre post digits payload : string)
        (negative : bool) (s : server) :
  all_int_spaces pre = true ->
  all_int_spaces post = true ->
  digits <> EmptyString ->
  all_ascii_digits digits = true ->
  Z.of_nat (String.length digits) <= int_max_str_digits ->
  on_message client_entry
             (Text (numeral pre negative digits post +:+ String ";" payload)) s
  = (Ret tt,
     set_trace (SetMessageResponse
                  client_entry
                  ((if negative then -1 else 1) * unsigned_value digits)
                  (Text payload)
                :: Log Debug5 :: trace s) s).
Proof.
  intros Hpre Hpost Hne Hd Hmax.
  unfold on_message, bind, lift, log, emit, modify.
  rewrite (split1_at_first _ _ _
             (numeral_without_semicolon pre negative digits post
                                        Hpre Hpost Hd)).
  cbn [index lookup list_lookup]. cbn.
  rewrite (int_of_numeral pre negative digits post Hpre Hpost Hne Hd Hmax).
  reflexivity.
Qed.

Lemma on_message_signed_id_witness :
  on_message 7 (Text " -42 ;pong") Sample.serving
  = (Ret tt,
     set_trace [SetMessageResponse 7 (-42) (Text "pong"); Log Debug5]
               Sample.serving).
Proof.
  apply (on_message_signed_id 7 " " " " "42" "pong" true Sample.serving);
    (reflexivity || discriminate || (unfold int_max_str_digits; simpl; lia)).
Defined.

Section ReceiveLoop.

Lemma deliveries_log l t : deliveries (Log l :: t) = deliveries t.
Proof. reflexivity. Qed.

Lemma deliveries_after_response e i r l s :
  deliveries (trace (set_trace (SetMessageResponse e i r :: Log l :: trace s)
                               s))
  = (deliveries (trace s) ++ [(i, r)])%list.
Proof. reflexivity. Qed.

Lemma decoded_cons m script :
  omap frame_parts (frames (RecvMessage m :: script))
  = match frame_parts m with
    | Some d => d :: omap frame_parts (frames script)
    | None => omap frame_parts (frames script)
    end.
Proof. reflexivity. Qed.

Lemma receive_loop_state client_entry connection script : forall s,
  exists t co,
    snd (receive_loop client_entry connection script s)
    = set_trace t (set_connection_open co s).
Proof.
  induction script as [| step script IH]; intros s;
    cbn [receive_loop]; unfold bind at 1; unfold gets at 1;
    destruct (is_open connection s) eqn:Hopen.
  - exists (trace s), (connection_open s). by destruct s.
  - exists (Log Warning :: trace s), (connection_open s). by destruct s.
  - destruct step as [m | | |].
    + unfold bind at 1.
      destruct (frame_parts m) as [[i r] |] eqn:Hparts.
      * rewrite (on_message_parts _ _ _ _ _ Hparts).
        destruct (IH (set_trace
                        (SetMessageResponse client_entry i r
                         :: Log match m with
                                | Text _ => Debug5
                                | Binary _ => Debug
                                end :: trace s) s)) as (t & co & ->).
        exists t, co. reflexivity.
      * destruct (on_message_no_parts client_entry m s Hparts)
          as (e & t & -> & _).
        exists t, (connection_open s). by destruct s.
    + unfold bind at 1. unfold emit, modify at 1.
      destruct (IH (set_trace (AsyncSleep (Milliseconds 20) :: trace s) s))
        as (t & co & ->).
      exists t, co. reflexivity.
    + exists (Log Warning :: trace s), (<[connection := false]> (connection_open s)).
      reflexivity.
    + unfold bind at 1. unfold close, modify at 1.
      destruct (IH (set_connection_open
                      (<[connection := false]> (connection_open s)) s))
        as (t & co & ->).
      exists t, co. reflexivity.
  - exists (Log Warning :: trace s), (connection_open s). by destruct s.
Qed.

Lemma receive_loop_prefix client_entry connection script : forall s,
  exists n,
    deliveries (trace (snd (receive_loop client_entry connection script s)))
    = (deliveries (trace s) ++ take n (omap frame_parts (frames script)))%list.
Proof.
  induction script as [| step script IH]; intros s;
    cbn [receive_loop]; unfold bind at 1; unfold gets at 1;
    destruct (is_open connection s) eqn:Hopen;
    try (exists 0%nat; cbn; by rewrite app_nil_r).
  destruct step as [m | | |].
  - unfold bind at 1.
    destruct (frame_parts m) as [[i r] |] eqn:Hparts.
    + rewrite (on_message_parts _ _ _ _ _ Hparts).
      destruct (IH (set_trace
                      (SetMessageResponse client_entry i r
                       :: Log match m with
                              | Text _ => Debug5
                              | Binary _ => Debug
                              end :: trace s) s)) as (n & ->).
      exists (S n). rewrite decoded_cons, Hparts.
      rewrite deliveries_after_response, <- app_assoc. reflexivity.
    + destruct (on_message_no_parts client_entry m s Hparts)
        as (e & t & -> & Ht).
      exists 0%nat. cbn. by rewrite app_nil_r.
  - unfold bind at 1. unfold emit, modify at 1.
    destruct (IH (set_trace (AsyncSleep (Milliseconds 20) :: trace s) s))
      as (n & ->).
    exists n. reflexivity.
  - exists 0%nat. cbn. by rewrite app_nil_r.
  - unfold bind at 1. unfold close, modify at 1.
    destruct (IH (set_connection_open
                    (<[connection := false]> (connection_open s)) s))
      as (n & ->).
    exists n. reflexivity.
Qed.

Lemma receive_loop_message client_entry connection m i r script s :
  is_open connection s = true ->
  frame_parts m = Some (i, r) ->
  receive_loop client_entry connection (RecvMessage m :: script) s
  = receive_loop client_entry connection script
      (set_trace (SetMessageResponse client_entry i r
                  :: Log (match m with Text _ => Debug5 | Binary _ => Debug end)
                  :: trace s) s).
Proof.
  intros Hopen Hparts. cbn [receive_loop]. unfold bind at 1. unfold gets at 1.
  rewrite Hopen. unfold bind at 1.
  by rewrite (on_message_parts _ _ _ _ _ Hparts).
Qed.

Lemma receive_loop_timeout client_entry connection script s :
  is_open connection s = true ->
  receive_loop client_entry connection (RecvTimeout :: script) s
  = receive_loop client_entry connection script
      (set_trace (AsyncSleep (Milliseconds 20) :: trace s) s).
Proof.
  intros Hopen. cbn [receive_loop]. unfold bind at 1. unfold gets at 1.
  by rewrite Hopen.
Qed.

Lemma receive_loop_closed client_entry connection script s :
  is_open connection s = true ->
  receive_loop client_entry connection (RecvConnectionClosed :: script) s
  = (Ret tt,
     set_trace (Log Warning :: trace s)
               (set_connection_open
                  (<[connection := false]> (connection_open s)) s)).
Proof.
  intros Hopen. cbn [receive_loop]. unfold bind at 1. unfold gets at 1.
  by rewrite Hopen.
Qed.

Lemma receive_loop_undisturbed client_entry connection pre post : forall s,
  is_open connection s = true ->
  undisturbed pre ->
  exists s',
    receive_loop client_entry connection (pre ++ RecvConnectionClosed :: post) s
    = (Ret tt, s')
    /\ deliveries (trace s')
       = (deliveries (trace s) ++ omap frame_parts (frames pre))%list.
Proof.
  induction pre as [| step pre IH]; intros s Hopen Hpre.
  - cbn [app]. rewrite (receive_loop_closed _ _ _ _ Hopen).
    eexists. split; [reflexivity |]. cbn. by rewrite app_nil_r.
  - apply Forall_cons in Hpre as [Hstep Hpre].
    cbn [app]. destruct step as [m | | |]; try contradiction.
    + destruct Hstep as [[i r] Hparts].
      rewrite (receive_loop_message _ _ _ _ _ _ _ Hopen Hparts).
      destruct (IH (set_trace
                      (SetMessageResponse client_entry i r
                       :: Log match m with
                              | Text _ => Debug5
                              | Binary _ => Debug
                              end :: trace s) s) Hopen Hpre)
        as (s' & Hrun & Hdel).
      exists s'. split; [exact Hrun |]. rewrite Hdel.
      rewrite decoded_cons, Hparts.
      rewrite deliveries_after_response, <- app_assoc. reflexivity.
    + rewrite (receive_loop_timeout _ _ _ _ Hopen).
      destruct (IH (set_trace (AsyncSleep (Milliseconds 20) :: trace s) s)
                   Hopen Hpre) as (s' & Hrun & Hdel).
      exists s'. split; [exact Hrun |]. rewrite Hdel. reflexivity.
Qed.

End ReceiveLoop.

(** X2. Whatever arrives, the entry is handed the decoded frames in the
    order of arrival, without gaps: what has been handed over after the loop
    is what had been handed over before, followed by the decoding of an
    initial stretch of the frames that can be decoded.  When frames that can
    be decoded (and read timeouts) are followed by the closing of the
    connection, the loop returns and every one of those frames has been
    handed over.  A text frame can be decoded when it has a semicolon and
    [int] accepts what is before the first one; an id of more than 4300
    digits it does not accept. *)
Theorem receive_loop_in_order
        (client_entry connection : nat) (s : server) :
  (forall script,
      exists n,
        deliveries (trace (snd (receive_loop client_entry connection
                                             script s)))
        = (deliveries (trace s)
           ++ take n (omap frame_parts (frames script)))%list)
  /\ (forall pre post,
         is_open connection s = true ->
         undisturbed pre ->
         fst (receive_loop client_entry connection
                           (pre ++ RecvConnectionClosed :: post) s) = Ret tt
         /\ deliveries (trace (snd (receive_loop
                                      client_entry connection
                                      (pre ++ RecvConnectionClosed :: post)
                                      s)))
            = (deliveries (trace s) ++ omap frame_parts (frames pre))%list).
Proof.
  split.
  - intros script. apply receive_loop_prefix.
  - intros pre post Hopen Hpre.
    destruct (receive_loop_undisturbed client_entry connection pre post s
                                       Hopen Hpre) as (s' & Hrun & Hdel).
    rewrite Hrun. split; [reflexivity | exact Hdel].
Qed.

Lemma receive_loop_in_order_witness :
  fst (receive_loop 0 5
         ([RecvMessage (Text "2;b"); RecvTimeout; RecvMessage (Text "1;a")]
          ++ RecvConnectionClosed :: [RecvMessage (Text "3;c")])
         Sample.serving) = Ret tt
  /\ deliveries (trace (snd (receive_loop 0 5
         ([RecvMessage (Text "2;b"); RecvTimeout; RecvMessage (Text "1;a")]
          ++ RecvConnectionClosed :: [RecvMessage (Text "3;c")])
         Sample.serving)))
     = [(2, Text "b"); (1, Text "a")].
Proof.
  apply (proj2 (receive_loop_in_order 0 5 Sample.serving)
               [RecvMessage (Text "2;b"); RecvTimeout;
                RecvMessage (Text "1;a")]
               [RecvMessage (Text "3;c")]).
  - reflexivity.
  - repeat constructor; eexists; reflexivity.
Defined.

Lemma client_message_receiver_state w o client_entry s :
  exists t co,
    snd (client_message_receiver w o client_entry s)
    = set_trace t (set_connection_open co s).
Proof.
  unfold client_message_receiver. destruct client_entry as [e |].
  - unfold bind at 1. unfold get_entry.
    destruct (entries s !! e) as [r |].
    + unfold bind at 1. unfold log, emit, modify at 1.
      destruct (receive_loop_state e (websocket_client_connection r)
                                   (incoming w)
                                   (set_trace (Log Info :: trace s) s))
        as (t & co & ->).
      exists t, co. reflexivity.
    + exists (trace s), (connection_open s). by destruct s.
  - exists (trace s), (connection_open s). by destruct s.
Qed.

(** X3. The receive loop writes to the log and marks connections closed, and
    does nothing else: registry, entries, connecting set, workers, threads,
    the shutdown queue and the stop event are as they were, however the
    loop ends.  (It is the handler's cleanup that stops the worker, not the
    loop.) *)
Theorem receive_loop_touches_only_log_and_connections
        (w : oracle) (o : string) (client_entry : option nat) (s : server) :
  let s' := snd (client_message_receiver w o client_entry s) in
  current_users s' = current_users s
  /\ entries s' = entries s
  /\ users_connecting s' = users_connecting s
  /\ worker_stopping s' = worker_stopping s
  /\ threads s' = threads s
  /\ worker_shutdown_queue s' = worker_shutdown_queue s
  /\ unfinished_tasks s' = unfinished_tasks s
  /\ stop_server_event s' = stop_server_event s.
Proof.
  intros s'. subst s'.
  destruct (client_message_receiver_state w o client_entry s)
    as (t & co & ->).
  cbn. repeat split; reflexivity.
Qed.


(** ** Who gets past authentication, and what a refusal leaves behind *)

(** X4. Authentication answers success exactly for a handshake whose first
    Origin header names a device of the mapping manager and which, when
    credentials are configured, carries an Authorization header whose
    first value is empty or accepted by [check_auth].  The origin it
    returns is the Origin header's value, and the only trace it leaves is
    one line in the log. *)
Theorem authenticate_success_means
        (cfg : settings) (w : oracle) (c : connection)
        (o : option string) (s s1 : server) :
  authenticate_connection cfg w c s = (Ret (o, true), s1)
  <-> exists mm name,
        mapping_manager cfg = Some mm
        /\ o = Some name
        /\ get_all (request_headers c) "Origin" !! 0%nat = Some name
        /\ name ∈ get_all_devicemappings mm
        /\ (get_auths mm = []
            \/ get_auths mm <> []
               /\ exists a,
                    get_all (request_headers c) "Authorization" !! 0%nat
                    = Some a
                    /\ (a = EmptyString
                        \/ check_auth w a (get_auths mm) = true))
        /\ s1 = set_trace (Log Info :: trace s) s.
Proof.
  unfold authenticate_connection. split.
  - destruct (get_all (request_headers c) "Origin" !! 0%nat) as [name |]
      eqn:Hname;
      [| unfold bind, log, emit, modify, ret; cbn; congruence].
    destruct (mapping_manager cfg) as [mm |] eqn:Hmm;
      [| unfold bind, log, emit, modify, raise; cbn; congruence].
    unfold bind at 1. unfold log, emit, modify at 1.
    case_bool_decide as Hknown; cbn [negb].
    + case_bool_decide as Hauths; cbn [negb].
      * intros [= <- <-]. exists mm, name. repeat split; auto.
      * destruct (get_all (request_headers c) "Authorization" !! 0%nat)
          as [a |] eqn:Ha;
          [| unfold bind, log, emit, modify, ret; cbn; congruence].
        cbn [andb].
        destruct (String.eqb_spec a "") as [-> | Hne]; cbn [negb andb].
        -- intros [= <- <-]. exists mm, name. repeat split; auto.
           right. split; [exact Hauths |]. exists EmptyString. auto.
        -- destruct (check_auth w a (get_auths mm)) eqn:Hcheck; cbn [negb].
           ++ intros [= <- <-]. exists mm, name. repeat split; auto.
              right. split; [exact Hauths |]. exists a. auto.
           ++ unfold ret. congruence.
    + unfold bind, lift, log, emit, modify, ret.
      destruct (search_device w name) as [found | e |]; cbn;
        [destruct (negb (bool_decide (found = []))); cbn |..]; congruence.
  - intros (mm & name & Hmm & -> & Hname & Hknown & Hcred & ->).
    rewrite Hname, Hmm. unfold bind at 1. unfold log, emit, modify at 1.
    rewrite (bool_decide_eq_true_2 _ Hknown). cbn [negb].
    destruct Hcred as [Hnone | (Hauths & a & Ha & Hok)].
    + rewrite (bool_decide_eq_true_2 _ Hnone). reflexivity.
    + rewrite (bool_decide_eq_false_2 _ Hauths), Ha. cbn [negb andb].
      destruct Hok as [-> | Hcheck]; [reflexivity |].
      rewrite Hcheck. by destruct (String.eqb a "").
Qed.

Lemma authenticate_success_means_witness :
  exists mm name,
    mapping_manager Sample.configured = Some mm
    /\ Some "dev1" = Some name
    /\ get_all (request_headers (Sample.handshake ["Basic dXNlcjpzZWNyZXQ="]))
               "Origin" !! 0%nat = Some name
    /\ name ∈ get_all_devicemappings mm
    /\ (get_auths mm = []
        \/ get_auths mm <> []
           /\ exists a,
                get_all (request_headers
                           (Sample.handshake ["Basic dXNlcjpzZWNyZXQ="]))
                        "Authorization" !! 0%nat = Some a
                /\ (a = EmptyString
                    \/ check_auth Sample.world_without_workers a
                                  (get_auths mm) = true))
    /\ set_trace [Log Info] Sample.serving
       = set_trace (Log Info :: trace Sample.serving) Sample.serving.
Proof.
  apply (proj1 (authenticate_success_means
                  Sample.configured Sample.world_without_workers
                  (Sample.handshake ["Basic dXNlcjpzZWNyZXQ="])
                  (Some "dev1") Sample.serving
                  (set_trace [Log Info] Sample.serving))).
  reflexivity.
Defined.

(** X5. A handshake that authentication refuses is answered by closing the
    connection and nothing else: the handler returns, the connection is
    closed, and the registry, the entries, the connecting set, the workers,
    the threads and the shutdown queue are as they were.  No backoff sleep
    is taken on this path. *)
Theorem refused_handshake_closes_connection
        (cfg : settings) (w : oracle) (c : connection)
        (o : option string) (s s1 : server) :
  stop_server_event s = false ->
  authenticate_connection cfg w c s = (Ret (o, false), s1) ->
  connection_handler cfg w c s
  = (Ret tt,
     set_trace (Log Info :: Log Info :: trace s1)
               (set_connection_open
                  (<[conn c := false]> (connection_open s)) s))
  /\ is_open (conn c) (snd (connection_handler cfg w c s)) = false.
Proof.
  intros Hstop Hauth.
  destruct (authenticate_connection_state cfg w c s) as [t Ht].
  rewrite Hauth in Ht. cbn in Ht. subst s1.
  assert (connection_handler cfg w c s
          = (Ret tt,
             set_trace (Log Info :: Log Info :: t)
                       (set_connection_open
                          (<[conn c := false]> (connection_open s)) s)))
    as Hrun.
  { unfold connection_handler, logger_catch, try_except.
    unfold bind at 1. unfold gets at 1. rewrite Hstop.
    unfold bind at 1. rewrite Hauth. cbn [snd fst negb].
    reflexivity. }
  split; [exact Hrun |].
  rewrite Hrun. unfold is_open. cbn. by rewrite lookup_insert_eq.
Qed.

Lemma refused_handshake_closes_connection_witness :
  connection_handler Sample.configured (Sample.world [])
                     (Sample.handshake ["Basic bm9wZQ=="]) Sample.serving
  = (Ret tt,
     set_trace (Log Info :: Log Info
                :: trace (set_trace [Log Info] Sample.serving))
               (set_connection_open
                  (<[5%nat := false]> (connection_open Sample.serving))
                  Sample.serving))
  /\ is_open 5 (snd (connection_handler
                       Sample.configured (Sample.world [])
                       (Sample.handshake ["Basic bm9wZQ=="])
                       Sample.serving)) = false.
Proof.
  apply (refused_handshake_closes_connection
           Sample.configured (Sample.world [])
           (Sample.handshake ["Basic bm9wZQ=="]) (Some "dev1")
           Sample.serving (set_trace [Log Info] Sample.serving));
    reflexivity.
Defined.

(** ** The admission table *)

Ltac run_admission :=
  unfold admission, add_worker_and_thread_to_entry;
  unfold get_entry, is_alive, is_stopping, new_entry, new_worker,
    new_thread, update_entry, log, emit;
  unfold bind, modify, gets, lift, ret, raise.

(** X6. For an origin that is registered, with config mode off and the
    device active, the admission section goes on exactly when the entry's
    old connection is closed, its thread is not alive and the worker
    factory builds a worker.  It always answers with the registered entry:
    the registry is not changed; when it goes on, that same entry gets the
    new connection, a new worker and a new thread that has not been
    started, and when it does not, no entry is changed. *)
Theorem admission_of_registered_origin
        (cfg : settings) (w : oracle) (c : connection) (o : string)
        (found : list device) (dev : device)
        (e t wk : nat) (r : WebsocketConnectedClientEntry) (s : server) :
  enable_configmode cfg = false ->
  search_device w o = Ret found ->
  find (fun d => String.eqb (dev_origin d) o) found = Some dev ->
  is_device_active w (identifier dev) = true ->
  current_users s !! o = Some e ->
  entries s !! e = Some r ->
  worker_thread r = Some t ->
  worker_instance r = Some wk ->
  let proceed := negb (is_open (websocket_client_connection r) s)
                 && negb (thread_alive t s)
                 && get_worker_using_settings w o false in
  let s' := snd (admission cfg w c o s) in
  fst (admission cfg w c o s) = Ret (proceed, e)
  /\ current_users s' = current_users s
  /\ (proceed = false -> entries s' = entries s)
  /\ (proceed = true ->
      exists wk' t',
        entries s' !! e
        = Some {| origin := origin r;
                  websocket_client_connection := conn c;
                  worker_instance := Some wk';
                  worker_thread := Some t' |}
        /\ threads s' !! t' = Some NotStarted
        /\ worker_stopping s' !! wk' = Some false).
Proof.
  intros Hcfg Hsearch Hfind Hactive Huser Hentry Hthread Hworker.
  run_admission. unfold is_open, thread_alive. cbn.
  rewrite Huser, Hcfg. cbn. rewrite Hsearch, Hfind, Hactive. cbn.
  rewrite Hentry. cbn. rewrite Hthread, Hworker.
  destruct (connection_open s !! websocket_client_connection r)
    as [[|] |] eqn:Hc;
    destruct (threads s !! t) as [[| |] |] eqn:Ht;
    destruct (worker_stopping s !! wk) as [[|] |] eqn:Hw;
    destruct (get_worker_using_settings w o false) eqn:Hf;
    repeat (cbn; rewrite ?Hc, ?Ht, ?Hw, ?Hf);
    rewrite ?(insert_id _ _ _ Huser);
    (split; [reflexivity |]); (split; [reflexivity |]);
    (split; [intros; try reflexivity; discriminate |]);
    intros; try discriminate.
  all: exists (fresh (dom (worker_stopping s))), (fresh (dom (threads s)));
    rewrite !lookup_alter_eq, !lookup_insert_eq, Hentry;
    cbn; repeat split; reflexivity.
Qed.

Lemma admission_of_registered_origin_witness :
  fst (admission Sample.configured (Sample.world [])
                 (Sample.handshake [""]) "dev1" Scenario.dev1_gone)
  = Ret (true, 0%nat)
  /\ current_users (snd (admission Sample.configured (Sample.world [])
                                   (Sample.handshake [""]) "dev1"
                                   Scenario.dev1_gone))
     = current_users Scenario.dev1_gone.
Proof.
  destruct (admission_of_registered_origin
              Sample.configured (Sample.world []) (Sample.handshake [""])
              "dev1" [Sample.dev1] Sample.dev1 0%nat 0%nat 0%nat
              Scenario.dev1_entry Scenario.dev1_gone)
    as (Hres & Husers & _); try reflexivity.
  split; [exact Hres | exact Husers].
Defined.

Ltac new_entry_cases Hfresh :=
  (split; [reflexivity |]); (split; [exact Hfresh |]);
  (split; [| split; [intros; try reflexivity; discriminate |]]);
  intros; try discriminate;
  try (split; [reflexivity |]);
  try (eexists (fresh (dom (worker_stopping _))), (fresh (dom (threads _)));
       rewrite lookup_alter_eq, !lookup_insert_eq; cbn;
       repeat split; reflexivity);
  rewrite ?alter_insert_eq; by apply insert_subseteq.

(** X7. Where no entry is registered for the origin, and always in config
    mode or for a device that is not active (paused), the admission section
    builds a new entry and asks the factory for a worker in that mode; it
    goes on exactly when the factory delivers.  On success the registry
    maps the origin to the new entry, which holds the new connection, a
    new worker and a thread not yet started; on failure the registry is
    unchanged.  Entries that existed, a replaced one included, are not
    modified. *)
Theorem admission_builds_new_entry
        (cfg : settings) (w : oracle) (c : connection) (o : string)
        (u : bool) (s : server) :
  (enable_configmode cfg = true /\ u = true
   \/ enable_configmode cfg = false
      /\ exists found dev,
           search_device w o = Ret found
           /\ find (fun d => String.eqb (dev_origin d) o) found = Some dev
           /\ u = negb (is_device_active w (identifier dev))) ->
  (current_users s !! o = None \/ u = true) ->
  let e := fresh (dom (entries s)) in
  let ok := get_worker_using_settings w o u in
  let s' := snd (admission cfg w c o s) in
  fst (admission cfg w c o s) = Ret (ok, e)
  /\ entries s !! e = None
  /\ entries s ⊆ entries s'
  /\ (ok = false -> current_users s' = current_users s)
  /\ (ok = true ->
      current_users s' = <[o := e]> (current_users s)
      /\ exists wk t,
           entries s' !! e
           = Some {| origin := o;
                     websocket_client_connection := conn c;
                     worker_instance := Some wk;
                     worker_thread := Some t |}
           /\ threads s' !! t = Some NotStarted
           /\ worker_stopping s' !! wk = Some false).
Proof.
  intros Hmode Hentry e ok s'.
  assert (entries s !! e = None) as Hfresh
      by (apply not_elem_of_dom, is_fresh).
  subst ok s'. run_admission. cbn.
  destruct Hmode as [[Hcfg ->] | (Hcfg & found & dev & Hsearch & Hfind & ->)];
    rewrite Hcfg; cbn; rewrite ?Hsearch, ?Hfind; cbn.
  - destruct (get_worker_using_settings w o true) eqn:Hf;
      destruct (current_users s !! o); cbn; rewrite ?Hf; cbn;
      new_entry_cases Hfresh.
  - destruct Hentry as [Hentry | Hu].
    + rewrite Hentry.
      destruct (is_device_active w (identifier dev)); cbn;
        destruct (get_worker_using_settings w o _) eqn:Hf;
        cbn; rewrite ?Hf; cbn; new_entry_cases Hfresh.
    + rewrite Hu. cbn.
      destruct (get_worker_using_settings w o true) eqn:Hf;
        destruct (current_users s !! o); cbn; rewrite ?Hf; cbn;
        new_entry_cases Hfresh.
Qed.

Lemma admission_builds_new_entry_witness :
  fst (admission Scenario.config_mode (Sample.world [])
                 (Sample.handshake [""]) "dev1" Sample.with_dev1)
  = Ret (true, 1%nat)
  /\ entries Sample.with_dev1
     ⊆ entries (snd (admission Scenario.config_mode (Sample.world [])
                               (Sample.handshake [""]) "dev1"
                               Sample.with_dev1)).
Proof.
  destruct (admission_builds_new_entry
              Scenario.config_mode (Sample.world []) (Sample.handshake [""])
              "dev1" true Sample.with_dev1)
    as (Hres & _ & Hsub & _).
  - left. split; reflexivity.
  - right. reflexivity.
  - split; [exact Hres | exact Hsub].
Defined.

Section Accepted.

Lemma admission_accepted_post cfg w c o s e s' :
  admission cfg w c o s = (Ret (true, e), s') ->
  current_users s' !! o = Some e
  /\ users_connecting s' = users_connecting s
  /\ connection_open s' = connection_open s
  /\ worker_shutdown_queue s' = worker_shutdown_queue s
  /\ unfinished_tasks s' = unfinished_tasks s
  /\ stop_server_event s' = stop_server_event s
  /\ exists r wk t,
       entries s' !! e = Some r
       /\ websocket_client_connection r = conn c
       /\ worker_instance r = Some wk
       /\ worker_thread r = Some t
       /\ threads s' !! t = Some NotStarted
       /\ worker_stopping s' !! wk = Some false.
Proof.
  run_admission. cbn. intros H.
  repeat (case_match; simplify_eq; cbn in *);
    (split; [by rewrite lookup_insert_eq |]);
    do 5 (split; [reflexivity |]);
    eexists _, (fresh (dom (worker_stopping s))), (fresh (dom (threads s)));
    rewrite !lookup_alter_eq, ?lookup_insert_eq;
    try match goal with
        | H : entries s !! _ = Some _ |- _ => rewrite H
        end;
    cbn; repeat split; reflexivity.
Qed.

End Accepted.

(** ** A connection that is admitted *)

(** X8. When the admission section goes on, the registry maps the origin to
    the entry it answers with; that entry holds the new connection, a
    worker that is not stopping and a thread that has not been started;
    [get_origin_communicator] finds the communicator of that worker.  The
    connecting set, the connections and the shutdown queue are not
    touched. *)
Theorem admitted_entry_is_published
        (cfg : settings) (w : oracle) (c : connection) (o : string)
        (e : nat) (s s' : server) :
  admission cfg w c o s = (Ret (true, e), s') ->
  current_users s' !! o = Some e
  /\ (exists r wk t,
        entries s' !! e = Some r
        /\ websocket_client_connection r = conn c
        /\ worker_instance r = Some wk
        /\ worker_thread r = Some t
        /\ threads s' !! t = Some NotStarted
        /\ worker_stopping s' !! wk = Some false
        /\ get_origin_communicator o s' = (Ret (PyCommunicator wk), s'))
  /\ users_connecting s' = users_connecting s
  /\ connection_open s' = connection_open s
  /\ worker_shutdown_queue s' = worker_shutdown_queue s.
Proof.
  intros Hadm.
  destruct (admission_accepted_post _ _ _ _ _ _ _ Hadm)
    as (Hcu & Hconn & Hopen & Hq & _ & _ & r & wk & t
        & He & Hc & Hw & Ht & Hth & Hws).
  split; [exact Hcu |]. split; [| auto].
  exists r, wk, t. repeat (split; [assumption |]).
  unfold get_origin_communicator, bind, gets, get_entry, ret.
  by rewrite Hcu, He, Hw.
Qed.

Lemma admitted_entry_is_published_witness :
  current_users
    (snd (admission Sample.configured (Sample.world [])
                    (Sample.handshake [""]) "dev1" Sample.serving))
  !! "dev1" = Some 0%nat.
Proof.
  apply (admitted_entry_is_published
           Sample.configured (Sample.world []) (Sample.handshake [""])
           "dev1" 0%nat Sample.serving
           (snd (admission Sample.configured (Sample.world [])
                           (Sample.handshake [""]) "dev1" Sample.serving))).
  vm_compute. reflexivity.
Defined.

Section Cleanup.

Lemma at_admission_state cfg o s1 :
  exists t,
    at_admission cfg o s1
    = set_trace t (set_users_connecting ({[o]} ∪ users_connecting s1) s1).
Proof.
  unfold at_admission, bind, log, emit, modify, ret.
  destruct (enable_configmode cfg); eexists; reflexivity.
Qed.

Lemma handler_enters_admission cfg o s t (k : M unit) :
  o ∉ users_connecting s ->
  (log Info ;;;
   (if enable_configmode cfg then log Warning else ret tt) ;;;
   connecting <- gets users_connecting ;;;
   if bool_decide (o ∈ connecting) then log Info
   else
     modify (fun s => set_users_connecting ({[o]} ∪ users_connecting s) s) ;;;
     k) (set_trace t s)
  = k (at_admission cfg o (set_trace t s)).
Proof.
  intros Hnew. unfold at_admission, bind, log, emit, modify, gets, ret.
  destruct (enable_configmode cfg); cbn;
    rewrite (bool_decide_eq_false_2 _ Hnew); reflexivity.
Qed.

End Cleanup.

(** X9. A connection that was admitted is served and then cleaned up, and
    the cleanup depends on what happened while the handler was waiting.
    The handler goes on with the part [serve_admitted]: it starts the
    entry's thread and takes the origin out of the connecting set, then
    awaits its receiver task.  As long as that task is pending the handler
    has done nothing more.  Once it is over, whether it returned or raised,
    the handler returns normally; if the entry still holds this
    connection, the worker it was given has been told to stop and its
    thread has been put at the end of the shutdown queue, with one more
    unfinished task; if another handler has meanwhile given the entry a
    different connection, a warning is logged, no worker is told to stop
    and nothing is queued. *)
Theorem admitted_connection_is_cleaned_up
        (cfg : settings) (w : oracle) (c : connection) (o : string)
        (e : nat) (s s1 s2 : server) (receiver_task : M unit) :
  stop_server_event s = false ->
  authenticate_connection cfg w c s = (Ret (Some o, true), s1) ->
  o ∉ users_connecting s ->
  admission cfg w c o (at_admission cfg o s1) = (Ret (true, e), s2) ->
  connection_handler cfg w c s
  = logger_catch
      (serve_admitted c o e (client_message_receiver w o (Some e))) s2
  /\ exists r wk t,
       entries s2 !! e = Some r
       /\ worker_instance r = Some wk
       /\ worker_thread r = Some t
       /\ threads (awaiting o t s2) !! t = Some Alive
       /\ users_connecting (awaiting o t s2) = users_connecting s
       /\ let s4 := snd (receiver_task (awaiting o t s2)) in
          let run := logger_catch (serve_admitted c o e receiver_task) s2 in
          match fst (receiver_task (awaiting o t s2)) with
          | Blocked => run = (Blocked, s4)
          | _ =>
              fst run = Ret tt
              /\ match entries s4 !! e with
                 | Some cur =>
                     stop_server_event (snd run) = stop_server_event s4
                     /\ current_users (snd run) = current_users s4
                     /\ users_connecting (snd run) = users_connecting s4
                     /\ entries (snd run) = entries s4
                     /\ connection_open (snd run) = connection_open s4
                     /\ threads (snd run) = threads s4
                     /\ if Nat.eqb (websocket_client_connection cur) (conn c)
                        then
                          worker_stopping (snd run)
                          = <[wk := true]> (worker_stopping s4)
                          /\ worker_shutdown_queue (snd run)
                             = (worker_shutdown_queue s4 ++ [Some t])%list
                          /\ unfinished_tasks (snd run)
                             = S (unfinished_tasks s4)
                        else
                          worker_stopping (snd run) = worker_stopping s4
                          /\ worker_shutdown_queue (snd run)
                             = worker_shutdown_queue s4
                          /\ unfinished_tasks (snd run) = unfinished_tasks s4
                          /\ exists tr,
                               trace (snd run)
                               = Log Info :: Log Warning :: tr
                 | None => True
                 end
          end.
Proof.
  intros Hstop Hauth Hnew Hadm.
  destruct (authenticate_connection_state cfg w c s) as [t0 Ht0].
  rewrite Hauth in Ht0. cbn in Ht0. subst s1.
  destruct (admission_accepted_post _ _ _ _ _ _ _ Hadm)
    as (Hcu & Hconn & Hopen & Hq & Hu & _ & r & wk & t
        & He & Hc & Hw & Ht & Hth & Hws).
  destruct (at_admission_state cfg o (set_trace t0 s)) as [ta Hat].
  rewrite Hat in Hconn, Hq, Hu. cbn in Hconn, Hq, Hu.
  assert (o ∈ users_connecting s2) as Hin
      by (rewrite Hconn; apply elem_of_union_l, elem_of_singleton_2;
          reflexivity).
  pose proof (add_then_remove o _ Hnew) as [Hback _].
  rewrite <- Hconn in Hback.
  split.
  { unfold connection_handler, logger_catch.
    unfold try_except at 1.
    unfold bind at 1. unfold gets at 1. rewrite Hstop.
    unfold bind at 1. rewrite Hauth. cbn [snd fst negb].
    rewrite (handler_enters_admission cfg o s t0 _ Hnew).
    unfold bind at 1. rewrite Hadm. cbn [fst snd negb].
    reflexivity. }
  assert (awaiting o t s2
          = set_trace (Log Debug :: Log Debug :: trace s2)
              (set_users_connecting (users_connecting s2 ∖ {[o]})
                 (set_threads (<[t := Alive]> (threads s2)) s2))) as Haw.
  { unfold awaiting, bind, log, emit, modify, thread_start,
      connecting_remove.
    cbn. rewrite Hth. cbn. rewrite (bool_decide_eq_true_2 _ Hin).
    reflexivity. }
  exists r, wk, t. do 3 (split; [assumption |]).
  split; [rewrite Haw; cbn; by rewrite lookup_insert_eq |].
  split; [rewrite Haw; cbn; exact Hback |].
  cbv zeta.
  remember (logger_catch (serve_admitted c o e receiver_task) s2)
    as run eqn:Hrun.
  unfold serve_admitted, logger_catch in Hrun.
  unfold try_except at 1 in Hrun.
  unfold bind at 1 in Hrun. unfold get_entry at 1 in Hrun. rewrite He in Hrun.
  rewrite Hw, Ht in Hrun.
  unfold try_finally, try_except in Hrun.
  unfold bind at 1 in Hrun. unfold bind at 1 in Hrun.
  unfold is_alive, gets at 1 in Hrun.
  rewrite Hth in Hrun. cbn [negb] in Hrun.
  unfold bind at 1 in Hrun. unfold bind at 1 in Hrun.
  unfold log, emit, modify at 1 in Hrun.
  unfold thread_start at 1 in Hrun. cbn [threads set_trace] in Hrun.
  rewrite Hth in Hrun.
  unfold bind at 1 in Hrun. unfold connecting_remove at 1 in Hrun.
  cbn [users_connecting set_threads set_trace] in Hrun.
  rewrite (bool_decide_eq_true_2 _ Hin) in Hrun.
  unfold bind at 1 in Hrun. unfold log, emit, modify at 1 in Hrun.
  cbn [trace set_users_connecting set_threads set_trace] in Hrun.
  match type of Hrun with
  | context [receiver_task ?st] =>
      replace st with (awaiting o t s2) in Hrun by (by rewrite Haw)
  end.
  destruct (receiver_task (awaiting o t s2)) as [[[] | ex |] s4] eqn:Hrecv;
    cbn [fst snd].
  - unfold bind, get_entry, log, emit, modify, stop_worker, queue_put, ret
      in Hrun.
    cbn in Hrun.
    destruct (entries s4 !! e) as [cur |] eqn:Hcur; cbn in Hrun.
    + destruct (Nat.eqb (websocket_client_connection cur) (conn c));
        subst run; cbn; repeat split; eauto.
    + subst run. cbn. auto.
  - unfold bind, get_entry, log, emit, modify, stop_worker, queue_put, ret,
      raise in Hrun.
    cbn in Hrun.
    destruct (entries s4 !! e) as [cur |] eqn:Hcur; cbn in Hrun.
    + destruct (Nat.eqb (websocket_client_connection cur) (conn c));
        subst run; cbn; repeat split; eauto.
    + subst run. cbn. auto.
  - subst run. reflexivity.
Qed.

Lemma admitted_connection_is_cleaned_up_witness :
  connection_handler Sample.configured (Sample.world [])
                     (Sample.handshake [""]) Sample.serving
  = logger_catch
      (serve_admitted (Sample.handshake [""]) "dev1" 0
         (client_message_receiver (Sample.world []) "dev1" (Some 0%nat)))
      (snd (admission Sample.configured (Sample.world [])
                      (Sample.handshake [""]) "dev1"
                      (at_admission Sample.configured "dev1"
                         (set_trace [Log Info] Sample.serving))))
  /\ exists r wk t,
       entries (snd (admission Sample.configured (Sample.world [])
                               (Sample.handshake [""]) "dev1"
                               (at_admission Sample.configured "dev1"
                                  (set_trace [Log Info] Sample.serving))))
       !! 0%nat = Some r
       /\ worker_instance r = Some wk
       /\ worker_thread r = Some t
       /\ threads
            (awaiting "dev1" t
               (snd (admission Sample.configured (Sample.world [])
                               (Sample.handshake [""]) "dev1"
                               (at_admission Sample.configured "dev1"
                                  (set_trace [Log Info] Sample.serving)))))
          !! t = Some Alive
       /\ users_connecting
            (awaiting "dev1" t
               (snd (admission Sample.configured (Sample.world [])
                               (Sample.handshake [""]) "dev1"
                               (at_admission Sample.configured "dev1"
                                  (set_trace [Log Info] Sample.serving)))))
          = users_connecting Sample.serving
       /\ let s2 := snd (admission Sample.configured (Sample.world [])
                                   (Sample.handshake [""]) "dev1"
                                   (at_admission Sample.configured "dev1"
                                      (set_trace [Log Info] Sample.serving)))
          in
          let s4 := snd (Scenario.raced_receiver (awaiting "dev1" t s2)) in
          let run := logger_catch
                       (serve_admitted (Sample.handshake [""]) "dev1" 0
                                       Scenario.raced_receiver) s2 in
          match fst (Scenario.raced_receiver (awaiting "dev1" t s2)) with
          | Blocked => run = (Blocked, s4)
          | _ =>
              fst run = Ret tt
              /\ match entries s4 !! 0%nat with
                 | Some cur =>
                     stop_server_event (snd run) = stop_server_event s4
                     /\ current_users (snd run) = current_users s4
                     /\ users_connecting (snd run) = users_connecting s4
                     /\ entries (snd run) = entries s4
                     /\ connection_open (snd run) = connection_open s4
                     /\ threads (snd run) = threads s4
                     /\ if Nat.eqb (websocket_client_connection cur)
                                   (conn (Sample.handshake [""]))
                        then
                          worker_stopping (snd run)
                          = <[wk := true]> (worker_stopping s4)
                          /\ worker_shutdown_queue (snd run)
                             = (worker_shutdown_queue s4 ++ [Some t])%list
                          /\ unfinished_tasks (snd run)
                             = S (unfinished_tasks s4)
                        else
                          worker_stopping (snd run) = worker_stopping s4
                          /\ worker_shutdown_queue (snd run)
                             = worker_shutdown_queue s4
                          /\ unfinished_tasks (snd run) = unfinished_tasks s4
                          /\ exists tr,
                               trace (snd run)
                               = Log Info :: Log Warning :: tr
                 | None => True
                 end
          end.
Proof.
  apply (admitted_connection_is_cleaned_up
           Sample.configured (Sample.world []) (Sample.handshake [""])
           "dev1" 0%nat Sample.serving
           (set_trace [Log Info] Sample.serving) _
           Scenario.raced_receiver).
  - reflexivity.
  - reflexivity.
  - apply (bool_decide_unpack _). vm_compute. reflexivity.
  - vm_compute. reflexivity.
Defined.

(** The race in [Scenario.raced_receiver], run: connection 5 was admitted
    with worker 0 and thread 0; while its handler waited, dev1 came back on
    connection 6 and took the entry over with worker 1 and thread 1.  The
    handler of connection 5 then returns with a warning, tells no worker to
    stop and queues nothing. *)
Example raced_connection_is_not_cleaned_up :
  let s2 := snd (admission Sample.configured (Sample.world [])
                           (Sample.handshake [""]) "dev1"
                           (at_admission Sample.configured "dev1"
                              (set_trace [Log Info] Sample.serving))) in
  let run := logger_catch
               (serve_admitted (Sample.handshake [""]) "dev1" 0
                               Scenario.raced_receiver) s2 in
  fst run = Ret tt
  /\ websocket_client_connection <$> entries (snd run) !! 0%nat = Some 6%nat
  /\ worker_instance <$> entries (snd run) !! 0%nat = Some (Some 1%nat)
  /\ worker_stopping (snd run) !! 0%nat = Some false
  /\ worker_stopping (snd run) !! 1%nat = Some false
  /\ worker_shutdown_queue (snd run) = []
  /\ firstn 2 (trace (snd run)) = [Log Info; Log Warning].
Proof. vm_compute. repeat split; reflexivity. Qed.

(** ** What the handler keeps true of the registry *)

Section RegistryProperties.

Context (Q : gmap string nat -> gmap nat WebsocketConnectedClientEntry
             -> Prop).
Let P := fun s => Q (current_users s) (entries s).

Lemma registry_authenticate cfg w c : keeps P (authenticate_connection cfg w c).
Proof.
  intros s Hs. destruct (authenticate_connection_state cfg w c s) as [t ->].
  exact Hs.
Qed.

Lemma registry_client_message_receiver w o e :
  keeps P (client_message_receiver w o e).
Proof.
  intros s Hs. destruct (client_message_receiver_state w o e s)
    as (t & co & ->).
  exact Hs.
Qed.

Lemma registry_connection_handler cfg w c :
  (forall o, keeps P (admission cfg w c o)) ->
  keeps P (connection_handler cfg w c).
Proof.
  intros Hadm.
  pose proof registry_authenticate as Hauth.
  pose proof registry_client_message_receiver as Hrecv.
  unfold connection_handler, logger_catch, close_websocket_client_connection.
  keeps_auto.
Qed.

Lemma registry_run_arrivals cfg batch :
  (forall w c o, keeps P (admission cfg w c o)) ->
  forall s, P s -> P (run_arrivals cfg batch s).
Proof.
  intros Hadm. induction batch as [| a batch IH]; intros s Hs; cbn;
    [exact Hs |].
  apply IH. unfold run_handler. apply registry_connection_handler; auto.
Qed.

End RegistryProperties.

Section NothingDeleted.

Context (U : gset string) (E : gset nat).
Let P := fun s => U ⊆ dom (current_users s) /\ E ⊆ dom (entries s).

Lemma growing_add_worker cfg w e o u :
  keeps P (add_worker_and_thread_to_entry cfg w e o u).
Proof.
  unfold add_worker_and_thread_to_entry.
  destruct (get_worker_using_settings w o _); [| apply keeps_ret].
  apply keeps_bind; [keeps_prim | intros wk].
  apply keeps_bind; [keeps_prim | intros t].
  apply keeps_bind; [| intros; apply keeps_ret].
  intros s [Hu He]. split; [exact Hu |].
  cbn. by rewrite dom_alter_L.
Qed.

Lemma growing_admission cfg w c o : keeps P (admission cfg w c o).
Proof.
  pose proof growing_add_worker as Hadd.
  assert (forall e f, keeps P (update_entry e f)) as Hupd.
  { intros e f s [Hu He]. split; [exact Hu |]. cbn. by rewrite dom_alter_L. }
  assert (forall e, keeps P (modify (fun s =>
            set_current_users (<[o := e]> (current_users s)) s))) as Hpub.
  { intros e s [Hu He]. split; [| exact He]. cbn.
    rewrite dom_insert_L. by apply union_subseteq_r'. }
  assert (forall r, keeps P (new_entry r)) as Hnew.
  { intros r s [Hu He]. split; [exact Hu |]. cbn.
    rewrite dom_insert_L. by apply union_subseteq_r'. }
  unfold admission. keeps_auto.
Qed.

End NothingDeleted.

(** X10. The handler never takes anything out of the registry: whatever
    connections are handled, an origin that is registered stays registered
    and an entry that exists stays in existence. *)
Theorem handler_never_unregisters
        (cfg : settings) (batch : list (oracle * connection)) (s : server) :
  dom (current_users s) ⊆ dom (current_users (run_arrivals cfg batch s))
  /\ dom (entries s) ⊆ dom (entries (run_arrivals cfg batch s)).
Proof.
  apply (registry_run_arrivals
           (fun cu en => dom (current_users s) ⊆ dom cu
                         /\ dom (entries s) ⊆ dom en)).
  - intros w c o.
    apply (growing_admission (dom (current_users s)) (dom (entries s))).
  - split; reflexivity.
Qed.

Section WellFormed.

Lemma wf_insert_fresh cu en f r :
  wf_maps cu en -> en !! f = None -> wf_maps cu (<[f := r]> en).
Proof.
  intros Hwf Hf o e Hoe. destruct (Hwf o e Hoe) as (r1 & He & Hrest).
  exists r1. split; [| exact Hrest].
  rewrite lookup_insert_ne; [exact He | congruence].
Qed.

Lemma wf_alter cu en e g :
  wf_maps cu en ->
  (forall r, origin (g r) = origin r
             /\ (is_Some (worker_instance r) -> is_Some (worker_instance (g r)))
             /\ (is_Some (worker_thread r) -> is_Some (worker_thread (g r)))) ->
  wf_maps cu (alter g e en).
Proof.
  intros Hwf Hg o e1 Hoe. destruct (Hwf o e1 Hoe) as (r1 & He & Ho & Hw & Ht).
  destruct (decide (e = e1)) as [-> | Hne].
  - exists (g r1). rewrite lookup_alter_eq, He.
    destruct (Hg r1) as (Hgo & Hgw & Hgt).
    split; [reflexivity |]. split; [congruence |]. auto.
  - exists r1. by rewrite lookup_alter_ne.
Qed.

Lemma wf_publish cu en o e r :
  wf_maps cu en ->
  en !! e = Some r ->
  origin r = o ->
  is_Some (worker_instance r) ->
  is_Some (worker_thread r) ->
  wf_maps (<[o := e]> cu) en.
Proof.
  intros Hwf He Ho Hw Ht o1 e1 Hoe.
  rewrite lookup_insert in Hoe. case_decide; simplify_eq.
  - exists r. auto.
  - by apply Hwf.
Qed.

Lemma set_worker_of_keeps wk t r :
  origin (set_worker_of wk t r) = origin r
  /\ (is_Some (worker_instance r)
      -> is_Some (worker_instance (set_worker_of wk t r)))
  /\ (is_Some (worker_thread r)
      -> is_Some (worker_thread (set_worker_of wk t r))).
Proof. cbn. eauto. Qed.

Lemma set_connection_of_keeps c r :
  origin (set_connection_of c r) = origin r
  /\ (is_Some (worker_instance r)
      -> is_Some (worker_instance (set_connection_of c r)))
  /\ (is_Some (worker_thread r)
      -> is_Some (worker_thread (set_connection_of c r))).
Proof. cbn. eauto. Qed.

Lemma wf_admission cfg w c o s :
  registry_wf s -> registry_wf (snd (admission cfg w c o s)).
Proof.
  intros Hwf.
  assert (entries s !! fresh (dom (entries s)) = None) as Hfresh
      by (apply not_elem_of_dom, is_fresh).
  destruct (admission cfg w c o s) as [res s'] eqn:H. cbn [snd].
  revert H. run_admission. cbn. intros H.
  repeat (case_match; simplify_eq; cbn in *);
    try exact Hwf;
    match goal with
    | |- registry_wf ?s0 => change (wf_maps (current_users s0) (entries s0))
    end;
    cbn;
    repeat first
      [ exact Hwf
      | rewrite insert_id by assumption
      | eapply wf_publish;
        [| rewrite lookup_alter_eq, lookup_insert_eq; reflexivity
         | reflexivity | cbn; eauto | cbn; eauto ]
      | apply wf_alter;
        [| first [apply set_worker_of_keeps | apply set_connection_of_keeps]]
      | apply wf_insert_fresh; [| assumption] ].
Qed.

Lemma wf_connection_handler cfg w c :
  keeps registry_wf (connection_handler cfg w c).
Proof.
  apply (registry_connection_handler wf_maps).
  intros o s Hs. by apply wf_admission.
Qed.

End WellFormed.

(** X11. The handler keeps the registry well formed: if every registered
    origin has an entry that carries that origin, a worker and a thread,
    the same is true after any number of connections have been handled,
    whether they were admitted, rejected or ended in an exception. *)
Theorem handler_keeps_registry_well_formed
        (cfg : settings) (batch : list (oracle * connection)) (s : server) :
  registry_wf s -> registry_wf (run_arrivals cfg batch s).
Proof.
  revert s. induction batch as [| a batch IH]; intros s Hwf; cbn;
    [exact Hwf |].
  apply IH. unfold run_handler. by apply wf_connection_handler.
Qed.

Lemma handler_keeps_registry_well_formed_witness :
  registry_wf
    (run_arrivals Sample.configured
                  [(Scenario.one_frame, Sample.handshake [""])]
                  Sample.with_dev1).
Proof.
  apply (handler_keeps_registry_well_formed
           Sample.configured [(Scenario.one_frame, Sample.handshake [""])]
           Sample.with_dev1).
  intros o e H.
  change (current_users Sample.with_dev1)
    with ({[ "dev1" := 0%nat ]} : gmap string nat) in H.
  apply lookup_singleton_Some in H as [<- <-].
  eexists. split; [reflexivity |]. cbn. eauto.
Defined.

(** ** Queries and forced disconnects *)

Section Queries.

Lemma collect_connected_result items : forall acc s,
  Forall (fun kv => is_Some (entries s !! snd kv)) items ->
  collect_connected items acc s = (Ret (acc ++ open_among s items)%list, s).
Proof.
  induction items as [| kv items IH]; intros acc s Hall.
  - cbn. unfold ret. by rewrite app_nil_r.
  - apply Forall_cons in Hall as [[r Hr] Hall].
    cbn [collect_connected]. unfold bind at 1. unfold get_entry.
    rewrite Hr. unfold bind at 1. unfold gets at 1.
    rewrite (IH _ s Hall). unfold open_among. cbn [omap list_omap].
    rewrite Hr.
    destruct (is_open (websocket_client_connection r) s);
      [by rewrite <- app_assoc | reflexivity].
Qed.

Lemma open_among_sublist s items : open_among s items `sublist_of` items.*1.
Proof.
  induction items as [| kv items IH]; cbn; [constructor |].
  unfold open_among in *. cbn [omap list_omap].
  destruct (entries s !! kv.2) as [r |]; [| by constructor].
  destruct (is_open (websocket_client_connection r) s); by constructor.
Qed.

Lemma open_among_registry s o :
  o ∈ open_among s (map_to_list (current_users s)) <-> connected s o.
Proof.
  unfold open_among, connected. rewrite list_elem_of_omap. split.
  - intros ([o' e] & Hin & Hsome). apply elem_of_map_to_list in Hin.
    cbn in Hsome. destruct (entries s !! e) as [r |] eqn:Hr; [| done].
    destruct (is_open (websocket_client_connection r) s) eqn:Hopen; [| done].
    simplify_eq. eauto.
  - intros (e & r & Hcu & Hr & Hopen). exists (o, e).
    split; [by apply elem_of_map_to_list |]. cbn. by rewrite Hr, Hopen.
Qed.

Lemma registry_wf_items s :
  registry_wf s ->
  Forall (fun kv => is_Some (entries s !! snd kv))
         (map_to_list (current_users s)).
Proof.
  intros Hwf. apply Forall_forall. intros [o e] Hin.
  apply elem_of_map_to_list in Hin.
  destruct (Hwf o e Hin) as (r & Hr & _). cbn. eauto.
Qed.

End Queries.

(** X12. On a well-formed registry [get_connected_origins] returns, without
    changing anything, a list without repetitions that holds exactly the
    registered origins whose entry has an open connection. *)
Theorem connected_origins_are_the_open_ones (s : server) :
  registry_wf s ->
  exists l,
    get_connected_origins s = (Ret l, s)
    /\ NoDup l
    /\ forall o, o ∈ l <-> connected s o.
Proof.
  intros Hwf. exists (open_among s (map_to_list (current_users s))).
  split; [| split].
  - unfold get_connected_origins. unfold bind at 1. unfold gets at 1.
    by rewrite (collect_connected_result _ [] s (registry_wf_items s Hwf)).
  - apply (sublist_NoDup _ ((map_to_list (current_users s)).*1)).
    + apply NoDup_fst_map_to_list.
    + apply open_among_sublist.
  - apply open_among_registry.
Qed.

Lemma connected_origins_are_the_open_ones_witness :
  exists l,
    get_connected_origins Sample.with_dev1 = (Ret l, Sample.with_dev1)
    /\ NoDup l
    /\ forall o, o ∈ l <-> connected Sample.with_dev1 o.
Proof.
  apply (connected_origins_are_the_open_ones Sample.with_dev1).
  intros o e H.
  change (current_users Sample.with_dev1)
    with ({[ "dev1" := 0%nat ]} : gmap string nat) in H.
  apply lookup_singleton_Some in H as [<- <-].
  eexists. split; [reflexivity |]. cbn. eauto.
Defined.

Section Disconnect.

Lemma not_connected_when_closed s o e r :
  current_users s !! o = Some e ->
  entries s !! e = Some r ->
  is_open (websocket_client_connection r) s = false ->
  ~ connected s o.
Proof.
  intros Hcu Hr Hclosed (e' & r' & Hcu' & Hr' & Hopen). congruence.
Qed.

Lemma connected_origins_result s :
  registry_wf s ->
  get_connected_origins s
  = (Ret (open_among s (map_to_list (current_users s))), s).
Proof.
  intros Hwf. unfold get_connected_origins. unfold bind at 1.
  unfold gets at 1.
  by rewrite (collect_connected_result _ [] s (registry_wf_items s Hwf)).
Qed.

End Disconnect.

(** X13. [force_disconnect] on a running server with a well-formed registry.
    For a registered origin it returns after telling the origin's worker to
    stop and closing the entry's connection; the registry and the entries
    are as before, and [get_connected_origins] no longer lists the origin.
    For an origin that is not registered it logs a warning and changes
    nothing. *)
Theorem force_disconnect_disconnects (o : string) (s : server) :
  loop_running s = true ->
  registry_wf s ->
  (forall e,
      current_users s !! o = Some e ->
      exists r wk s',
        entries s !! e = Some r
        /\ worker_instance r = Some wk
        /\ force_disconnect o s = (Ret tt, s')
        /\ worker_stopping s' !! wk = Some true
        /\ is_open (websocket_client_connection r) s' = false
        /\ current_users s' = current_users s
        /\ entries s' = entries s
        /\ exists l, get_connected_origins s' = (Ret l, s') /\ o ∉ l)
  /\ (current_users s !! o = None ->
      force_disconnect o s
      = (Ret tt, set_trace (Log Warning :: Log Info :: trace s) s)).
Proof.
  intros Hrun Hwf. split.
  - intros e Hcu. destruct (Hwf o e Hcu) as (r & Hr & _ & [wk Hw] & _).
    assert (exists t co ws,
               force_disconnect o s
               = (Ret tt,
                  set_trace t (set_connection_open co
                                 (set_worker_stopping ws s)))
               /\ co !! websocket_client_connection r = Some false
               /\ ws !! wk = Some true)
      as (t & co & ws & Hfd & Hco & Hws).
    { exists (Log Info :: Log Info :: Log Info :: Log Info :: trace s),
        (<[websocket_client_connection r := false]> (connection_open s)),
        (<[wk := true]> (worker_stopping s)).
      rewrite !lookup_insert_eq. split; [| done].
      unfold force_disconnect, close_and_signal_stop,
        close_websocket_client_connection.
      unfold bind, gets, get_entry, log, emit, modify, stop_worker, close.
      cbn. rewrite Hrun, Hcu. cbn. rewrite Hr. cbn. rewrite Hw. reflexivity. }
    remember (set_trace t (set_connection_open co (set_worker_stopping ws s)))
      as s' eqn:Hs'.
    assert (current_users s' = current_users s) as Hcu' by (by subst s').
    assert (entries s' = entries s) as Hen' by (by subst s').
    assert (registry_wf s') as Hwf' by (subst s'; exact Hwf).
    assert (is_open (websocket_client_connection r) s' = false) as Hclosed
        by (subst s'; unfold is_open; cbn; by rewrite Hco).
    exists r, wk, s'. repeat (split; [first [assumption | by subst s'] |]).
    exists (open_among s' (map_to_list (current_users s'))).
    split; [exact (connected_origins_result s' Hwf') |].
    rewrite (open_among_registry s' o).
    apply (not_connected_when_closed s' o e r); congruence.
  - intros Hcu.
    unfold force_disconnect, close_and_signal_stop.
    unfold bind, gets, log, emit, modify. cbn. rewrite Hrun, Hcu. reflexivity.
Qed.

Lemma force_disconnect_disconnects_witness :
  exists r wk s',
    entries Sample.with_dev1 !! 0%nat = Some r
    /\ worker_instance r = Some wk
    /\ force_disconnect "dev1" Sample.with_dev1 = (Ret tt, s')
    /\ worker_stopping s' !! wk = Some true
    /\ is_open (websocket_client_connection r) s' = false
    /\ current_users s' = current_users Sample.with_dev1
    /\ entries s' = entries Sample.with_dev1
    /\ exists l, get_connected_origins s' = (Ret l, s') /\ "dev1" ∉ l.
Proof.
  destruct (force_disconnect_disconnects "dev1" Sample.with_dev1)
    as [Hhit _].
  - reflexivity.
  - intros o e H.
    change (current_users Sample.with_dev1)
      with ({[ "dev1" := 0%nat ]} : gmap string nat) in H.
    apply lookup_singleton_Some in H as [<- <-].
    eexists. split; [reflexivity |]. cbn. eauto.
  - apply Hhit. reflexivity.
Defined.

(** ** Shutting down *)

Section CloseAll.

Lemma close_each items : forall s,
  Forall (stoppable s) items ->
  exists s' t co ws,
    for_each items (fun kv =>
      worker_entry <- get_entry (snd kv) ;;;
      stop_worker (worker_instance worker_entry) ;;;
      close_websocket_client_connection
        (Some (origin worker_entry))
        (websocket_client_connection worker_entry)) s
    = (Ret tt, s')
    /\ s' = set_trace t (set_connection_open co (set_worker_stopping ws s))
    /\ (forall c, is_open c s = false -> is_open c s' = false)
    /\ (forall wk, worker_stopping s !! wk = Some true ->
                   worker_stopping s' !! wk = Some true)
    /\ (forall kv r wk,
           kv ∈ items ->
           entries s !! snd kv = Some r ->
           worker_instance r = Some wk ->
           is_open (websocket_client_connection r) s' = false
           /\ worker_stopping s' !! wk = Some true).
Proof.
  induction items as [| kv items IH]; intros s Hall.
  - exists s, (trace s), (connection_open s), (worker_stopping s).
    split; [reflexivity |]. split; [by destruct s |].
    split; [auto |]. split; [auto |].
    intros kv r wk Hin. by apply elem_of_nil in Hin.
  - apply Forall_cons in Hall as [(r & wk & Hr & Hw) Hall].
    set (s1 := set_trace (Log Info :: Log Info :: trace s)
                 (set_connection_open
                    (<[websocket_client_connection r := false]>
                       (connection_open s))
                    (set_worker_stopping (<[wk := true]> (worker_stopping s))
                                         s))).
    destruct (IH s1 Hall) as (s' & t & co & ws & Hrun & Hs' & Hc & Hws & Hin).
    exists s', t, co, ws.
    split.
    { cbn [for_each]. unfold bind at 1. unfold bind at 1.
      unfold get_entry at 1. rewrite Hr. unfold bind at 1.
      rewrite Hw. unfold stop_worker at 1. unfold modify at 1.
      unfold close_websocket_client_connection, bind, log, emit, close,
        modify. cbn. exact Hrun. }
    split; [subst s'; reflexivity |].
    split; [| split].
    + intros c Hclosed. apply Hc. unfold is_open in *. subst s1. cbn.
      rewrite lookup_insert. case_decide; [reflexivity | exact Hclosed].
    + intros wk' Hstop. apply Hws. subst s1. cbn.
      rewrite lookup_insert. case_decide; [reflexivity | exact Hstop].
    + intros kv' r' wk' Hel Hr' Hw'.
      apply elem_of_cons in Hel as [-> | Hel].
      * assert (r' = r) as -> by congruence.
        assert (wk' = wk) as -> by congruence.
        split.
        -- apply Hc. unfold is_open. subst s1. cbn.
           by rewrite lookup_insert_eq.
        -- apply Hws. subst s1. cbn. by rewrite lookup_insert_eq.
      * by apply (Hin kv' r' wk' Hel).
Qed.

Lemma registry_wf_stoppable s :
  registry_wf s -> Forall (stoppable s) (map_to_list (current_users s)).
Proof.
  intros Hwf. apply Forall_forall. intros [o e] Hin.
  apply elem_of_map_to_list in Hin.
  destruct (Hwf o e Hin) as (r & Hr & _ & [wk Hw] & _).
  exists r, wk. auto.
Qed.

Lemma close_all_result s :
  registry_wf s ->
  exists s' t co ws,
    close_all_connections_and_signal_stop s = (Ret tt, s')
    /\ s' = set_trace t (set_connection_open co (set_worker_stopping ws s))
    /\ (forall o e r wk,
           current_users s !! o = Some e ->
           entries s !! e = Some r ->
           worker_instance r = Some wk ->
           is_open (websocket_client_connection r) s' = false
           /\ worker_stopping s' !! wk = Some true).
Proof.
  intros Hwf.
  destruct (close_each (map_to_list (current_users s))
                       (set_trace (Log Info :: trace s) s)
                       (registry_wf_stoppable s Hwf))
    as (s1 & t & co & ws & Hrun & Hs1 & _ & _ & Hin).
  exists (set_trace (Log Info :: trace s1) s1), (Log Info :: t), co, ws.
  split; [| split].
  - unfold close_all_connections_and_signal_stop.
    unfold bind at 1. unfold log, emit, modify at 1.
    unfold bind at 1. unfold gets at 1. unfold bind at 1.
    cbn [current_users set_trace]. rewrite Hrun. reflexivity.
  - subst s1. reflexivity.
  - intros o e r wk Hcu Hr Hw.
    destruct (Hin (o, e) r wk) as [Hclosed Hstop]; auto.
    by apply elem_of_map_to_list.
Qed.

End CloseAll.

(** X14. On a well-formed registry [__close_all_connections_and_signal_stop]
    returns (no entry makes it raise); afterwards every registered worker
    has been told to stop, no registered origin is connected any more, so
    that [get_connected_origins] returns the empty list, and the registry
    and the entries themselves are as before. *)
Theorem close_all_closes_everything (s : server) :
  registry_wf s ->
  exists s',
    close_all_connections_and_signal_stop s = (Ret tt, s')
    /\ current_users s' = current_users s
    /\ entries s' = entries s
    /\ (forall o e r wk,
           current_users s !! o = Some e ->
           entries s !! e = Some r ->
           worker_instance r = Some wk ->
           worker_stopping s' !! wk = Some true)
    /\ (forall o, ~ connected s' o)
    /\ get_connected_origins s' = (Ret [], s').
Proof.
  intros Hwf.
  destruct (close_all_result s Hwf) as (s' & t & co & ws & Hrun & Hs' & Hall).
  assert (current_users s' = current_users s) as Hcu by (by subst s').
  assert (entries s' = entries s) as Hen by (by subst s').
  assert (registry_wf s') as Hwf' by (subst s'; exact Hwf).
  assert (forall o, ~ connected s' o) as Hnone.
  { intros o (e & r & Hcu' & Hr' & Hopen).
    rewrite Hcu in Hcu'. rewrite Hen in Hr'.
    destruct (Hwf o e Hcu') as (r0 & Hr0 & _ & [wk Hw] & _).
    assert (r0 = r) as -> by congruence.
    destruct (Hall o e r wk Hcu' Hr' Hw) as [Hclosed _]. congruence. }
  exists s'. repeat (split; [assumption |]).
  split; [| split; [exact Hnone |]].
  - intros o e r wk Hcu' Hr' Hw. by apply (Hall o e r wk).
  - rewrite (connected_origins_result s' Hwf'). do 2 f_equal.
    apply elem_of_nil_inv. intros o Hin.
    apply open_among_registry in Hin. by apply (Hnone o).
Qed.

Lemma close_all_closes_everything_witness :
  exists s',
    close_all_connections_and_signal_stop Sample.with_dev1 = (Ret tt, s')
    /\ current_users s' = current_users Sample.with_dev1
    /\ entries s' = entries Sample.with_dev1
    /\ (forall o e r wk,
           current_users Sample.with_dev1 !! o = Some e ->
           entries Sample.with_dev1 !! e = Some r ->
           worker_instance r = Some wk ->
           worker_stopping s' !! wk = Some true)
    /\ (forall o, ~ connected s' o)
    /\ get_connected_origins s' = (Ret [], s').
Proof.
  apply (close_all_closes_everything Sample.with_dev1).
  intros o e H.
  change (current_users Sample.with_dev1)
    with ({[ "dev1" := 0%nat ]} : gmap string nat) in H.
  apply lookup_singleton_Some in H as [<- <-].
  eexists. split; [reflexivity |]. cbn. eauto.
Defined.

(** ** The shutdown queue *)

Ltac queue_facts :=
  repeat split; intros; simplify_eq;
  rewrite ?elem_of_cons, ?elem_of_app, ?list_elem_of_singleton in *;
  rewrite ?lookup_insert;
  repeat case_decide; simplify_eq;
  try tauto;
  repeat match goal with
         | H : context [threads ?s !! ?y] |- _ =>
             destruct (threads s !! y) as [[| |] |]
         end;
  done.

Section ShutdownQueue.

Lemma join_loop_body_idle a s :
  worker_shutdown_queue s = [] ->
  join_loop_body a s
  = (Ret tt, set_trace (TimeSleep (Seconds 1) :: trace s) s).
Proof.
  intros Hq. unfold join_loop_body, bind, gets, emit, modify.
  by rewrite Hq.
Qed.

Lemma join_loop_body_item a s item rest :
  balanced s ->
  worker_shutdown_queue s = item :: rest ->
  exists t th q,
    join_loop_body a s
    = (Ret tt, set_trace t (set_threads th (set_queue q (length q) s)))
    /\ (a = false -> q = rest)
    /\ (forall x, x ∈ q -> x ∈ item :: rest)
    /\ (forall x, thread_alive x s = false ->
                  match th !! x with Some Alive => false | _ => true end
                  = true)
    /\ (a = false ->
        forall x, item = Some x ->
                  match th !! x with Some Alive => false | _ => true end
                  = true).
Proof.
  unfold balanced, thread_alive. intros Hbal Hq. rewrite Hq in Hbal.
  cbn in Hbal.
  unfold join_loop_body, bind, gets, modify, log, emit, try_except,
    thread_join, is_alive, queue_put, task_done, raise, ret.
  cbn. rewrite Hq. cbn. rewrite Hbal.
  destruct item as [x |]; cbn.
  - destruct (threads s !! x) as [[| |] |] eqn:Hx; cbn; rewrite ?Hx; cbn.
    + eexists _, (threads s), rest. split; [by destruct s |]. queue_facts.
    + destruct a; cbn; rewrite ?Hx, ?lookup_insert_eq; cbn.
      * eexists _, (threads s), (rest ++ [Some x])%list.
        split.
        { unfold set_trace, set_threads, set_queue. cbn.
          rewrite length_app. cbn.
          replace (length rest + 1)%nat with (S (length rest)) by lia.
          by destruct s. }
        queue_facts.
      * eexists _, (<[x := Finished]> (threads s)), rest.
        split; [reflexivity |]. queue_facts.
    + eexists _, (threads s), rest. split; [by destruct s |]. queue_facts.
    + eexists _, (threads s), rest. split; [by destruct s |]. queue_facts.
  - eexists _, (threads s), rest. split; [by destruct s |]. queue_facts.
Qed.

End ShutdownQueue.

Section Bookkeeping.

Lemma balanced_footprint t th q s :
  balanced (set_trace t (set_threads th (set_queue q (length q) s))).
Proof. reflexivity. Qed.

Lemma join_loop_body_balanced a s :
  balanced s ->
  exists s', join_loop_body a s = (Ret tt, s')
             /\ balanced s'
             /\ stop_server_event s' = stop_server_event s.
Proof.
  intros Hbal. destruct (worker_shutdown_queue s) as [| item rest] eqn:Hq.
  - rewrite (join_loop_body_idle a s Hq). eexists. split; [reflexivity |].
    split; [exact Hbal | reflexivity].
  - destruct (join_loop_body_item a s item rest Hbal Hq)
      as (t & th & q & -> & _).
    eexists. split; [reflexivity |]. split; reflexivity.
Qed.

Lemma interfere_balanced t s :
  balanced s ->
  exists s', interfere t s = (Ret tt, s')
             /\ balanced s'
             /\ (stop_server_event s = true -> stop_server_event s' = true).
Proof.
  unfold balanced, interfere, bind, modify, ret. intros Hbal. cbn.
  destruct (sets_stop t); eexists; (split; [reflexivity |]); cbn;
    rewrite length_app, Hbal; auto.
Qed.

Lemma internal_worker_join_balanced sched : forall s res s',
  balanced s ->
  internal_worker_join sched s = (res, s') ->
  balanced s' /\ (forall e, res <> Raise e).
Proof.
  induction sched as [| t sched IH]; intros s res s' Hbal;
    cbn [internal_worker_join]; unfold bind at 1; unfold gets at 1;
    destruct (join_loop_test s).
  - intros [= <- <-]. split; [exact Hbal | discriminate].
  - intros [= <- <-]. split; [exact Hbal | discriminate].
  - destruct (join_loop_body_balanced (alive_after_join t) s Hbal)
      as (s1 & Hbody & Hbal1 & _).
    unfold bind at 1. rewrite Hbody.
    destruct (interfere_balanced t s1 Hbal1) as (s2 & Hint & Hbal2 & _).
    unfold bind at 1. rewrite Hint. by apply IH.
  - intros [= <- <-]. split; [exact Hbal | discriminate].
Qed.

Lemma balanced_queue_put item : keeps balanced (queue_put item).
Proof.
  intros s Hbal. unfold balanced, queue_put, modify in *. cbn.
  rewrite length_app, Hbal. cbn. lia.
Qed.

Lemma balanced_connection_handler cfg w c :
  keeps balanced (connection_handler cfg w c).
Proof.
  pose proof balanced_queue_put as Hput.
  assert (keeps balanced (authenticate_connection cfg w c)) as Hauth.
  { intros s Hs. destruct (authenticate_connection_state cfg w c s) as [t ->].
    exact Hs. }
  assert (forall o e, keeps balanced (client_message_receiver w o e))
    as Hrecv.
  { intros o e s Hs.
    destruct (client_message_receiver_state w o e s) as (t & co & ->).
    exact Hs. }
  unfold connection_handler, logger_catch, close_websocket_client_connection,
    admission, add_worker_and_thread_to_entry.
  keeps_auto.
Qed.

End Bookkeeping.

(** X15. The bookkeeping of the shutdown queue never goes wrong.  If there
    is one unfinished task per queued item, this is still so after any
    number of connections have been handled and after any run of the join
    thread's loop, and that loop never raises: [task_done] is never called
    once too often. *)
Theorem shutdown_queue_stays_balanced
        (cfg : settings) (batch : list (oracle * connection))
        (sched : list tick) (s : server) :
  balanced s ->
  balanced (run_arrivals cfg batch s)
  /\ balanced (snd (internal_worker_join sched s))
  /\ (forall e, fst (internal_worker_join sched s) <> Raise e).
Proof.
  intros Hbal. split;
    [| by apply (internal_worker_join_balanced sched s);
          [| apply surjective_pairing]].
  revert s Hbal. induction batch as [| a batch IH]; intros s Hbal; cbn;
    [exact Hbal |].
  apply IH. unfold run_handler. by apply balanced_connection_handler.
Qed.

Lemma shutdown_queue_stays_balanced_witness :
  balanced (run_arrivals Sample.configured
                         [(Scenario.one_frame, Sample.handshake [""])]
                         Sample.draining)
  /\ balanced (snd (internal_worker_join Sample.two_turns Sample.draining))
  /\ (forall e, fst (internal_worker_join Sample.two_turns Sample.draining)
                <> Raise e).
Proof.
  apply (shutdown_queue_stays_balanced
           Sample.configured [(Scenario.one_frame, Sample.handshake [""])]
           Sample.two_turns Sample.draining).
  reflexivity.
Defined.

Section Draining.

Lemma join_loop_test_busy s item rest :
  stop_server_event s = true ->
  worker_shutdown_queue s = item :: rest ->
  join_loop_test s = true.
Proof.
  intros Hstop Hq. unfold join_loop_test. rewrite Hstop, Hq. reflexivity.
Qed.

Lemma interfere_quiet t s :
  puts t = [] ->
  stop_server_event s = true ->
  interfere t s
  = (Ret tt, set_queue (worker_shutdown_queue s) (unfinished_tasks s) s).
Proof.
  intros Hputs Hstop. unfold interfere, bind, modify, ret. rewrite Hputs.
  cbn. rewrite app_nil_r, Nat.add_0_r.
  destruct (sets_stop t); [| reflexivity].
  unfold set_stop_server_event. cbn. rewrite <- Hstop. reflexivity.
Qed.

Lemma internal_worker_join_drains sched : forall s,
  stop_server_event s = true ->
  balanced s ->
  Forall quiet_tick sched ->
  (length (worker_shutdown_queue s) <= length sched)%nat ->
  exists s',
    internal_worker_join sched s = (Ret tt, s')
    /\ worker_shutdown_queue s' = []
    /\ unfinished_tasks s' = 0%nat
    /\ (forall x, Some x ∈ worker_shutdown_queue s ->
                  thread_alive x s' = false)
    /\ (forall x, thread_alive x s = false -> thread_alive x s' = false).
Proof.
  induction sched as [| t sched IH]; intros s Hstop Hbal Hquiet Hlen.
  - destruct (worker_shutdown_queue s) as [| item rest] eqn:Hq;
      [| cbn in Hlen; lia].
    rewrite (internal_worker_join_done [] s Hstop Hq).
    eexists. split; [reflexivity |]. cbn. rewrite Hq.
    unfold balanced in Hbal. rewrite Hq in Hbal.
    repeat split; auto. intros x Hx. by apply elem_of_nil in Hx.
  - destruct (worker_shutdown_queue s) as [| item rest] eqn:Hq.
    + rewrite (internal_worker_join_done (t :: sched) s Hstop Hq).
      eexists. split; [reflexivity |]. cbn. rewrite Hq.
      unfold balanced in Hbal. rewrite Hq in Hbal.
      repeat split; auto. intros x Hx. by apply elem_of_nil in Hx.
    + apply Forall_cons in Hquiet as [[Halive Hputs] Hquiet].
      cbn [internal_worker_join]. unfold bind at 1. unfold gets at 1.
      rewrite (join_loop_test_busy s item rest Hstop Hq).
      destruct (join_loop_body_item (alive_after_join t) s item rest Hbal Hq)
        as (tr & th & q & Hbody & Hrest & _ & Hmono & Hhead).
      rewrite Halive in Hbody, Hrest, Hhead.
      specialize (Hrest eq_refl). specialize (Hhead eq_refl). subst q.
      unfold bind at 1. rewrite Halive, Hbody.
      unfold bind at 1. rewrite (interfere_quiet
                 t (set_trace tr (set_threads th
                                    (set_queue rest (length rest) s)))
                 Hputs Hstop).
      destruct (IH (set_queue rest (length rest)
                      (set_trace tr (set_threads th
                                       (set_queue rest (length rest) s)))))
        as (s' & Hrun & Hq' & Hu' & Hin' & Hmono').
      * exact Hstop.
      * reflexivity.
      * exact Hquiet.
      * cbn in Hlen |- *. lia.
      * exists s'. split; [exact Hrun |]. split; [exact Hq' |].
        split; [exact Hu' |]. split.
        -- intros x Hx. apply elem_of_cons in Hx as [Hx | Hx].
           ++ apply Hmono'. unfold thread_alive. cbn.
              specialize (Hhead x (eq_sym Hx)).
              by destruct (th !! x) as [[| |] |].
           ++ by apply Hin'.
        -- intros x Hx. apply Hmono'. unfold thread_alive. cbn.
           specialize (Hmono x Hx). by destruct (th !! x) as [[| |] |].
Qed.

End Draining.

(** X16. Once the stop event is set the join thread empties the queue and
    ends.  If the bookkeeping is balanced, no joined thread survives its
    join and nobody adds to the queue, then within as many turns as there
    are queued items the loop returns with an empty queue and no unfinished
    task, and none of the threads that were queued is alive. *)
Theorem join_thread_drains_queue (sched : list tick) (s : server) :
  stop_server_event s = true ->
  balanced s ->
  Forall quiet_tick sched ->
  (length (worker_shutdown_queue s) <= length sched)%nat ->
  exists s',
    internal_worker_join sched s = (Ret tt, s')
    /\ worker_shutdown_queue s' = []
    /\ unfinished_tasks s' = 0%nat
    /\ forall x, Some x ∈ worker_shutdown_queue s -> thread_alive x s' = false.
Proof.
  intros Hstop Hbal Hquiet Hlen.
  destruct (internal_worker_join_drains sched s Hstop Hbal Hquiet Hlen)
    as (s' & Hrun & Hq & Hu & Hin & _).
  exists s'. auto.
Qed.

Lemma join_thread_drains_queue_witness :
  exists s',
    internal_worker_join Scenario.quiet_turns Sample.draining = (Ret tt, s')
    /\ worker_shutdown_queue s' = []
    /\ unfinished_tasks s' = 0%nat
    /\ forall x, Some x ∈ worker_shutdown_queue Sample.draining ->
                 thread_alive x s' = false.
Proof.
  apply (join_thread_drains_queue Scenario.quiet_turns Sample.draining).
  - reflexivity.
  - reflexivity.
  - repeat constructor.
  - cbn. lia.
Defined.

(** * Saved routes *)

Section RouteFacts.

Import Route.

Lemma lstrip_empty s : lstrip s = EmptyString <-> all_space s = true.
Proof.
  induction s as [| c s IH]; simpl; [done |].
  destruct (is_space c); simpl; [exact IH | split; discriminate].
Qed.

Lemma rstrip_empty s : rstrip s = EmptyString <-> all_space s = true.
Proof.
  induction s as [| c s IH]; simpl; [done |].
  destruct (rstrip s) as [| c' r] eqn:Hr.
  - destruct (is_space c); simpl; [| split; discriminate].
    split; intros _; [by apply IH | reflexivity].
  - split; [discriminate |]. intros H.
    apply andb_true_iff in H as [_ H]. apply IH in H. discriminate.
Qed.

Lemma lstrip_all_space s : all_space (lstrip s) = true -> all_space s = true.
Proof.
  induction s as [| c s IH]; simpl; [done |].
  destruct (is_space c) eqn:Hc; simpl; [exact IH |].
  rewrite Hc. discriminate.
Qed.

Lemma strip_empty s : strip s = EmptyString <-> all_space s = true.
Proof.
  unfold strip. rewrite rstrip_empty. split.
  - apply lstrip_all_space.
  - intros H. apply lstrip_empty in H. by rewrite H.
Qed.

Lemma strip_eqb s : String.eqb (strip s) EmptyString = all_space s.
Proof.
  destruct (all_space s) eqn:H.
  - apply strip_empty in H. by rewrite H.
  - apply String.eqb_neq. intros Hs. apply strip_empty in Hs. congruence.
Qed.

Lemma has_comma_not_blank s :
  has_char "," s = true -> all_space s = false.
Proof.
  induction s as [| c s IH]; simpl; [discriminate |].
  intros Hc. apply orb_true_iff in Hc as [Hc | Hc].
  - apply Ascii.eqb_eq in Hc. by subst c.
  - rewrite (IH Hc). apply andb_false_r.
Qed.

Lemma split_no_sep sep s : has_char sep s = false -> split sep s = [s].
Proof.
  induction s as [| c s IH]; simpl; [reflexivity |].
  intros H. apply orb_false_iff in H as [Hc Hs].
  rewrite Hc, (IH Hs). reflexivity.
Qed.

Lemma split_at_sep sep a b :
  has_char sep a = false ->
  split sep (a +:+ String sep b) = a :: split sep b.
Proof.
  induction a as [| c a IH]; simpl.
  - intros _. by rewrite Ascii.eqb_refl.
  - intros H. apply orb_false_iff in H as [Hc Ha].
    rewrite Hc, (IH Ha). reflexivity.
Qed.

Context {F : Type} (float : string -> res F) (str : F -> string).

Ltac read_one_line line :=
  cbn [read_lines]; rewrite ?strip_eqb;
  destruct (index (split "," line) 0) as [? | |]; cbn [res_bind];
    try done;
  match goal with
  | |- context [float (strip ?f)] =>
      destruct (float (strip f)) as [? | |]; cbn [res_bind]; try done
  end;
  destruct (index (split "," line) 1) as [? | |]; cbn [res_bind];
    try done;
  match goal with
  | |- context [res_bind (float (strip ?f))] =>
      destruct (float (strip f)) as [? | |]; cbn [res_bind]; try done
  end.

Lemma read_lines_app l1 : forall l2 acc,
  read_lines float (l1 ++ l2) acc
  = res_bind (read_lines float l1 acc) (fun r => read_lines float l2 r).
Proof.
  induction l1 as [| line l1 IH]; intros l2 acc; [reflexivity |].
  cbn [app read_lines]. rewrite strip_eqb.
  destruct (all_space line); [apply IH |].
  read_one_line line.
Qed.

Lemma read_lines_acc lines : forall acc,
  read_lines float lines acc
  = res_bind (read_lines float lines []) (fun r => Ret (acc ++ r)%list).
Proof.
  induction lines as [| line lines IH]; intros acc.
  - cbn. by rewrite app_nil_r.
  - cbn [read_lines]. rewrite strip_eqb.
    destruct (all_space line); [apply IH |].
    read_one_line line.
    rewrite (IH (acc ++ _)%list), (IH ([] ++ _)%list).
    destruct (read_lines float lines []) as [r | |]; cbn [res_bind]; try done.
    by rewrite <- app_assoc.
Qed.

Lemma read_lines_calc_coords data : forall acc,
  Forall (fun c => prints_cleanly float str (lat c)
                   /\ prints_cleanly float str (lng c)) data ->
  read_lines float (calc_coords str data) acc = Ret (acc ++ data)%list.
Proof.
  induction data as [| c data IH]; intros acc Hall.
  - cbn. by rewrite app_nil_r.
  - apply Forall_cons in Hall
      as [[(Hla & Hnb & Hca) (Hln & _ & Hcn)] Hall].
    cbn [calc_coords map read_lines]. rewrite strip_eqb.
    rewrite has_comma_not_blank.
    2:{ rewrite has_char_app. cbn. by rewrite orb_true_r. }
    rewrite (split_at_sep _ _ _ Hca), (split_no_sep _ _ Hcn).
    cbn. rewrite Hla. cbn. rewrite Hln. cbn.
    fold (calc_coords str data). rewrite (IH _ Hall).
    rewrite <- app_assoc. by destruct c.
Qed.

(** X18. A stored route reads back as the route that was stored: when the
    text of every latitude and longitude is read back by [float] as the same
    number, and is a field of its own (not blank, no comma in it), then
    [_read_saved_json_route] applied to the lines that [get_json_route]
    writes for a list of coordinates returns that list, in the same order. *)
Theorem saved_route_reads_back (data : list (coord F)) :
  Forall (fun c => prints_cleanly float str (lat c)
                   /\ prints_cleanly float str (lng c)) data ->
  read_saved_json_route float (Some (calc_coords str data)) = Ret data.
Proof.
  intros Hall. unfold read_saved_json_route.
  by rewrite (read_lines_calc_coords data [] Hall).
Qed.

(** X19. A route file is read line by line and in order, and lines that are
    empty or hold only whitespace count for nothing: reading two lists of
    lines one after the other is reading the first, then the second, and
    joining the two results (an error of the first wins, the second is then
    not read); and removing the blank lines of a file changes nothing. *)
Theorem route_is_read_line_by_line (l1 l2 : list string) :
  read_saved_json_route float (Some (l1 ++ l2)%list)
  = res_bind (read_saved_json_route float (Some l1)) (fun r1 =>
    res_bind (read_saved_json_route float (Some l2)) (fun r2 =>
    Ret (r1 ++ r2)%list))
  /\ read_saved_json_route float
       (Some (filter (fun l => all_space l = false) l1))
     = read_saved_json_route float (Some l1).
Proof.
  unfold read_saved_json_route. split.
  - rewrite read_lines_app.
    destruct (read_lines float l1 []) as [r1 | |]; cbn [res_bind]; try done.
    apply read_lines_acc.
  - generalize (@nil (coord F)).
    induction l1 as [| line l1 IH]; intros acc; [reflexivity |].
    rewrite filter_cons. cbn [read_lines]. rewrite strip_eqb.
    destruct (all_space line) eqn:Hb.
    + rewrite decide_False by done. apply IH.
    + rewrite decide_True by done. cbn [read_lines].
      rewrite strip_eqb, Hb.
      read_one_line line.
Qed.

(** X20. One bad line loses the whole route: if some line of the file is
    not blank and has no comma, [_read_saved_json_route] returns no route at
    all, whatever the other lines are and wherever the line stands (it
    raises: [IndexError] at that line if its text is a number, or the error
    of [float], or the error of an earlier line). *)
Theorem line_without_comma_fails (lines : list string) (line : string)
    (r : list (coord F)) :
  line ∈ lines ->
  all_space line = false ->
  has_char "," line = false ->
  read_saved_json_route float (Some lines) <> Ret r.
Proof.
  unfold read_saved_json_route. generalize (@nil (coord F)).
  induction lines as [| l lines IH]; intros acc Hin Hnb Hnc.
  - by apply elem_of_nil in Hin.
  - cbn [read_lines]. rewrite strip_eqb.
    apply elem_of_cons in Hin as [<- | Hin].
    + rewrite Hnb, (split_no_sep _ _ Hnc). cbn.
      destruct (float (strip line)); cbn; discriminate.
    + destruct (all_space l); [by apply IH |].
      read_one_line l. by apply IH.
Qed.

(** X21. Only the first two fields of a line are used: whatever follows a
    second comma is dropped without being looked at, so a line with three
    or more fields reads as the line with its first two. *)
Theorem fields_after_second_ignored (a b rest : string)
    (lines : list string) :
  has_char "," a = false ->
  has_char "," b = false ->
  read_saved_json_route float
    (Some ((a +:+ String "," (b +:+ String "," rest)) :: lines))
  = read_saved_json_route float (Some ((a +:+ String "," b) :: lines)).
Proof.
  intros Ha Hb. unfold read_saved_json_route. cbn [read_lines].
  rewrite !strip_eqb, !has_comma_not_blank
    by (rewrite has_char_app; cbn; by rewrite orb_true_r).
  rewrite !(split_at_sep _ _ _ Ha), (split_at_sep _ _ _ Hb),
    (split_no_sep _ _ Hb).
  reflexivity.
Qed.

End RouteFacts.

Lemma saved_route_reads_back_witness :
  Forall (fun c =>
      Route.prints_cleanly Route.unary_float Route.unary_str (Route.lat c)
      /\ Route.prints_cleanly Route.unary_float Route.unary_str (Route.lng c))
    Route.two_points
  /\ Route.read_saved_json_route Route.unary_float
       (Some (Route.calc_coords Route.unary_str Route.two_points))
     = Ret Route.two_points.
Proof.
  assert (Forall (fun c =>
      Route.prints_cleanly Route.unary_float Route.unary_str (Route.lat c)
      /\ Route.prints_cleanly Route.unary_float Route.unary_str (Route.lng c))
    Route.two_points) as H.
  { repeat constructor; discriminate. }
  split; [exact H |].
  exact (saved_route_reads_back Route.unary_float Route.unary_str
           Route.two_points H).
Defined.

Lemma line_without_comma_fails_witness :
  "1 1" ∈ ["11,1"; "1 1"; "1,1"]
  /\ Route.all_space "1 1" = false
  /\ has_char "," "1 1" = false
  /\ Route.read_saved_json_route Route.unary_float
       (Some ["11,1"; "1 1"; "1,1"]) <> Ret [].
Proof.
  assert ("1 1" ∈ ["11,1"; "1 1"; "1,1"]) as Hin
    by (apply elem_of_cons; right; apply elem_of_cons; by left).
  split; [exact Hin | split; [reflexivity | split; [reflexivity |]]].
  exact (line_without_comma_fails Route.unary_float
           ["11,1"; "1 1"; "1,1"] "1 1" [] Hin eq_refl eq_refl).
Defined.

Lemma fields_after_second_ignored_witness :
  has_char "," "11" = false
  /\ has_char "," "111" = false
  /\ Route.read_saved_json_route Route.unary_float
       (Some (("11" +:+ String "," ("111" +:+ String "," "1111")) :: []))
     = Route.read_saved_json_route Route.unary_float
         (Some (("11" +:+ String "," "111") :: [])).
Proof.
  split; [reflexivity | split; [reflexivity |]].
  exact (fields_after_second_ignored Route.unary_float "11" "111" "1111" []
           eq_refl eq_refl).
Defined.
